(** * openapi-typescript: the generator core, embedded and verified

    A shallow embedding of the TypeScript generator:
    - [Identifier]    (src/identifier.ts),
    - [Imports]       (src/imports.ts),
    - [StringBuilder] (src/string-builder.ts),
    - the runtime type resolver [getRuntimeType] (src/runtime-type.ts),
    - the operation extractor and the API / client emitters (src/index.ts),
    - the model writers and the loops of the driver over the schemas and
      the tags (src/index.ts).

    JavaScript strings are modelled as [string] (a sequence of characters);
    the character classes of the regular expressions of the source ([\w],
    [A-Z], [\s], [.]) and the case conversions are the ASCII ones.  A [throw]
    is an explicit error result, the mutable [Imports] object shared by the
    closures of a descriptor is an explicit state that every generated
    expression threads. *)

From Stdlib Require Import String Ascii List ZArith Lia Bool Arith.
From Stdlib Require Import DecimalString Sorted Permutation OrderedTypeEx.
From Equations Require Import Equations.
Import ListNotations.

Local Open Scope list_scope.
Local Open Scope string_scope.

(* ===================================================================== *)
(** ** JavaScript strings *)
(* ===================================================================== *)

Module Js.

Definition LF : ascii := ascii_of_nat 10.
Definition CR : ascii := ascii_of_nat 13.
Definition DQUOTE : ascii := ascii_of_nat 34.
Definition BACKSLASH : ascii := ascii_of_nat 92.

(** A one-character string. *)
Definition chr (c : ascii) : string := String c EmptyString.

Definition between (lo hi : nat) (c : ascii) : bool :=
  (lo <=? nat_of_ascii c)%nat && (nat_of_ascii c <=? hi)%nat.

(** [[A-Z]] *)
Definition isUpper : ascii -> bool := between 65 90.
(** [[a-z]] *)
Definition isLower : ascii -> bool := between 97 122.
(** [[0-9]] *)
Definition isDigit : ascii -> bool := between 48 57.

(** [\w] is [[A-Za-z0-9_]]. *)
Definition isWord (c : ascii) : bool :=
  isUpper c || isLower c || isDigit c || (nat_of_ascii c =? 95)%nat.

(** The line terminators that [.] refuses. *)
Definition isLineTerminator (c : ascii) : bool :=
  (nat_of_ascii c =? 10)%nat || (nat_of_ascii c =? 13)%nat.

(** [\s], also what [trim] strips: tab, LF, VT, FF, CR, space. *)
Definition isSpace (c : ascii) : bool :=
  between 9 13 c || (nat_of_ascii c =? 32)%nat.

Definition lowerChar (c : ascii) : ascii :=
  if isUpper c then ascii_of_nat (nat_of_ascii c + 32) else c.

Definition upperChar (c : ascii) : ascii :=
  if isLower c then ascii_of_nat (nat_of_ascii c - 32) else c.

Fixpoint mapChars (f : ascii -> ascii) (s : string) : string :=
  match s with
  | EmptyString => EmptyString
  | String c rest => String (f c) (mapChars f rest)
  end.

(** [s.toLowerCase()] *)
Definition toLowerCase : string -> string := mapChars lowerChar.
(** [s.toUpperCase()] *)
Definition toUpperCase : string -> string := mapChars upperChar.

(** [/^\w+$/.test(s)] *)
Fixpoint allWord (s : string) : bool :=
  match s with
  | EmptyString => true
  | String c rest => isWord c && allWord rest
  end.

Definition isWordString (s : string) : bool :=
  match s with
  | EmptyString => false
  | String _ _ => allWord s
  end.

Fixpoint trimStart (s : string) : string :=
  match s with
  | EmptyString => EmptyString
  | String c rest => if isSpace c then trimStart rest else s
  end.

Fixpoint trimEnd (s : string) : string :=
  match s with
  | EmptyString => EmptyString
  | String c rest =>
      match trimEnd rest with
      | EmptyString => if isSpace c then EmptyString else chr c
      | rest' => String c rest'
      end
  end.

(** [s.trim()] *)
Definition trim (s : string) : string := trimEnd (trimStart s).

(** [parts.join(sep)] *)
Fixpoint join (sep : string) (parts : list string) : string :=
  match parts with
  | [] => EmptyString
  | [p] => p
  | p :: rest => p ++ sep ++ join sep rest
  end.

(** [`${n}`] for an integral number. *)
Definition numberToString (z : Z) : string :=
  NilZero.string_of_int (Z.to_int z).

(** [`${i}`] for an array index. *)
Definition indexToString (i : nat) : string :=
  NilZero.string_of_uint (Nat.to_uint i).

Definition hexDigit (n : nat) : ascii :=
  if (n <? 10)%nat then ascii_of_nat (48 + n) else ascii_of_nat (87 + n).

(** The escape [JSON.stringify] writes for one character of a string. *)
Definition jsonEscape (c : ascii) : string :=
  let n := nat_of_ascii c in
  if (n =? 34)%nat then String BACKSLASH (chr DQUOTE)
  else if (n =? 92)%nat then String BACKSLASH (chr BACKSLASH)
  else if (n =? 8)%nat then String BACKSLASH "b"
  else if (n =? 9)%nat then String BACKSLASH "t"
  else if (n =? 10)%nat then String BACKSLASH "n"
  else if (n =? 12)%nat then String BACKSLASH "f"
  else if (n =? 13)%nat then String BACKSLASH "r"
  else if (n <? 32)%nat then
    String BACKSLASH ("u00" ++ String (hexDigit (n / 16)) (chr (hexDigit (n mod 16))))
  else chr c.

Fixpoint jsonEscapeAll (s : string) : string :=
  match s with
  | EmptyString => EmptyString
  | String c rest => jsonEscape c ++ jsonEscapeAll rest
  end.

(** [JSON.stringify(s)] for a string [s]. *)
Definition stringify (s : string) : string :=
  String DQUOTE (jsonEscapeAll s) ++ chr DQUOTE.

(** JavaScript truthiness of an optional string: [undefined] and the empty
    string are falsy. *)
Definition truthy (s : option string) : bool :=
  match s with
  | Some (String _ _) => true
  | _ => false
  end.

(** [`${s}`] for an optional string. *)
Definition show (s : option string) : string :=
  match s with
  | Some s => s
  | None => "undefined"
  end.

(** [a.includes(x)] *)
Definition includes (a : list string) (x : string) : bool :=
  existsb (String.eqb x) a.

(** [s.split(/\r?\n/)] *)
Fixpoint splitNewlines (s : string) : list string :=
  match s with
  | EmptyString => [EmptyString]
  | String c rest =>
      let tail := splitNewlines rest in
      if (nat_of_ascii c =? 10)%nat then EmptyString :: tail
      else if (nat_of_ascii c =? 13)%nat then
        match rest with
        | String d _ =>
            if (nat_of_ascii d =? 10)%nat then tail
            else match tail with
                 | w :: ws => String c w :: ws
                 | [] => [chr c]
                 end
        | EmptyString => [chr c]
        end
      else match tail with
           | w :: ws => String c w :: ws
           | [] => [chr c]
           end
  end.

(** [s.split(/\s+/)] *)
Fixpoint splitSpaces (s : string) : list string :=
  match s with
  | EmptyString => [EmptyString]
  | String c rest =>
      if isSpace c then
        match rest with
        | String d _ => if isSpace d then splitSpaces rest
                        else EmptyString :: splitSpaces rest
        | EmptyString => [EmptyString; EmptyString]
        end
      else match splitSpaces rest with
           | w :: ws => String c w :: ws
           | [] => [chr c]
           end
  end.

(** [s.split(/(?<=[^A-Z])(?=[A-Z])/)]: a cut between a character that is
    not an upper-case letter and an upper-case letter. *)
Fixpoint splitHumpsFrom (c : ascii) (rest : string) : list string :=
  match rest with
  | EmptyString => [chr c]
  | String d rest' =>
      let tail := splitHumpsFrom d rest' in
      if negb (isUpper c) && isUpper d then chr c :: tail
      else match tail with
           | w :: ws => String c w :: ws
           | [] => [chr c]
           end
  end.

Definition splitHumps (s : string) : list string :=
  match s with
  | EmptyString => [EmptyString]
  | String c rest => splitHumpsFrom c rest
  end.

End Js.

(* ===================================================================== *)
(** ** Results: a [throw] aborts the generation *)
(* ===================================================================== *)

(** What the generator throws: its own messages are strings; [TypeError] is
    what the engine raises when a property of [undefined] is read. *)
Inductive exn : Type :=
| Thrown (message : string)
| TypeError.

Inductive result (A : Type) : Type :=
| Ok (a : A)
| Raise (e : exn).

Arguments Ok {A} a.
Arguments Raise {A} e.

Definition rbind {A B} (r : result A) (k : A -> result B) : result B :=
  match r with
  | Ok a => k a
  | Raise e => Raise e
  end.

Definition isOk {A} (r : result A) : bool :=
  match r with
  | Ok _ => true
  | Raise _ => false
  end.

Declare Scope result_scope.
Delimit Scope result_scope with result.
Notation "x <~ r ;; k" := (rbind r (fun x => k))
  (at level 61, r at next level, right associativity) : result_scope.

(* ===================================================================== *)
(** ** Identifier (src/identifier.ts) *)
(* ===================================================================== *)

Record Identifier : Type := mkIdentifier {
  lowerCamel : string;
  upperCamel : string;
  display : string;
  kebab : string
}.

Module IdentifierImpl.

(** [const capitalize = (s) => `${s[0].toUpperCase()}${s.substring(1)}`]:
    reading [s[0]] of the empty string gives [undefined]. *)
Definition capitalize (s : string) : result string :=
  match s with
  | EmptyString => Raise TypeError
  | String c rest => Ok (String (Js.upperChar c) rest)
  end.

(** The body of [words.forEach((word, i) => ...)] in the constructor. *)
Definition addWord (acc : Identifier) (word : string) (i : nat)
  : result Identifier :=
  let lower := Js.toLowerCase word in
  (capital <~ capitalize lower ;;
   Ok (if (0 <? i)%nat
       then {| lowerCamel := lowerCamel acc ++ capital;
               upperCamel := upperCamel acc ++ capital;
               display := (display acc ++ " ") ++ word;
               kebab := (kebab acc ++ "-") ++ lower |}
       else {| lowerCamel := lowerCamel acc ++ lower;
               upperCamel := upperCamel acc ++ capital;
               display := display acc ++ word;
               kebab := kebab acc ++ lower |}))%result.

Fixpoint forEachWord (words : list string) (i : nat) (acc : Identifier)
  : result Identifier :=
  match words with
  | [] => Ok acc
  | word :: rest =>
      (acc' <~ addWord acc word i ;; forEachWord rest (S i) acc')%result
  end.

(** [new Identifier(words)] *)
Definition construct (words : list string) : result Identifier :=
  forEachWord words 0
    (mkIdentifier EmptyString EmptyString EmptyString EmptyString).

Definition fromCamel (s : string) : result Identifier :=
  construct (Js.splitHumps (Js.trim s)).

Definition fromWords (s : string) : result Identifier :=
  construct (Js.splitSpaces (Js.trim s)).

End IdentifierImpl.

(* ===================================================================== *)
(** ** StringBuilder (src/string-builder.ts) *)
(* ===================================================================== *)

Module StringBuilder.

(** A part is a string (numbers and booleans are converted on [append]) or
    the [Imports] object of the file being written, kept by reference and
    rendered only by [toString].  A builder appended to another is read
    through its parts. *)
Inductive part : Type :=
| Text (s : string)
| ImportsRef.

Definition t : Type := list part.

Definition empty : t := [].

(** [b.append(s)] *)
Definition append (b : t) (s : string) : t := (b ++ [Text s])%list.

(** [b.append(imports)] *)
Definition appendImports (b : t) : t := (b ++ [ImportsRef])%list.

(** [b.append(other)] for another builder. *)
Definition appendBuilder (b other : t) : t := (b ++ other)%list.

Definition renderPart (importsText : string) (p : part) : string :=
  match p with
  | Text s => s
  | ImportsRef => importsText
  end.

(** [this.parts.join("")], where [importsText] is what the [Imports]
    object answers to [toString] at that moment. *)
Definition toString (importsText : string) (b : t) : string :=
  String.concat EmptyString (map (renderPart importsText) b).

End StringBuilder.

(* ===================================================================== *)
(** ** Arrays: [Array.prototype.sort] and [forEach] with an index *)
(* ===================================================================== *)

Section Arrays.
Context {A : Type}.

(** [Array.prototype.sort] is stable and, for a consistent comparator,
    yields the sorted arrangement; it is modelled by a stable insertion
    sort. *)
Fixpoint insertSorted (cmp : A -> A -> Z) (x : A) (l : list A) : list A :=
  match l with
  | [] => [x]
  | y :: l' =>
      if (cmp x y <=? 0)%Z then x :: l else y :: insertSorted cmp x l'
  end.

Definition sort (cmp : A -> A -> Z) (l : list A) : list A :=
  fold_right (insertSorted cmp) [] l.

(** [l.forEach((x, i) => ...)] threading an accumulator. *)
Fixpoint forEachFrom {B : Type} (f : B -> A -> nat -> B) (l : list A)
    (i : nat) (acc : B) : B :=
  match l with
  | [] => acc
  | x :: l' => forEachFrom f l' (S i) (f acc x i)
  end.

Definition forEach {B : Type} (f : B -> A -> nat -> B) (l : list A)
    (acc : B) : B :=
  forEachFrom f l 0 acc.

End Arrays.

(* ===================================================================== *)
(** ** Imports (src/imports.ts) *)
(* ===================================================================== *)

Inductive Folder : Type := api | client | model.

(** ["api" | "client" | "model" | undefined] *)
Definition ImportFolder : Type := option Folder.

Definition folderName (f : Folder) : string :=
  match f with
  | api => "api"
  | client => "client"
  | model => "model"
  end.

Definition folderEqb (a b : ImportFolder) : bool :=
  match a, b with
  | None, None => true
  | Some api, Some api => true
  | Some client, Some client => true
  | Some model, Some model => true
  | _, _ => false
  end.

(** One entry of [this.imports]: the default alias and the set of named
    imports, in insertion order. *)
Record ImportEntry : Type := mkEntry {
  def : option string;
  named : list string
}.

(** The [Imports] object: its folder and the entries of [this.imports] in
    insertion order (module paths are never array indices nor names of
    [Object.prototype]). *)
Record Imports : Type := mkImports {
  folder : ImportFolder;
  imports : list (string * ImportEntry)
}.

(** Generated expressions read and extend the [Imports] object they were
    built with: a computation takes its state and either throws or returns
    a value and the new state. *)
Definition M (A : Type) : Type := Imports -> result (A * Imports).

Definition ret {A} (a : A) : M A := fun st => Ok (a, st).

Definition bind {A B} (m : M A) (k : A -> M B) : M B :=
  fun st =>
    match m st with
    | Ok (a, st') => k a st'
    | Raise e => Raise e
    end.

Definition throw {A} (message : string) : M A := fun _ => Raise (Thrown message).

Definition lift {A} (r : result A) : M A :=
  fun st =>
    match r with
    | Ok a => Ok (a, st)
    | Raise e => Raise e
    end.

Declare Scope m_scope.
Delimit Scope m_scope with M.
Notation "x <- m ;; k" := (bind m (fun x => k))
  (at level 61, m at next level, right associativity) : m_scope.
Notation "m ;; k" := (bind m (fun _ => k))
  (at level 61, right associativity) : m_scope.

Module ImportsImpl.

(** [this.imports[file]] *)
Fixpoint lookup (file : string) (l : list (string * ImportEntry))
  : option ImportEntry :=
  match l with
  | [] => None
  | (f, e) :: l' => if String.eqb f file then Some e else lookup file l'
  end.

(** [this.imports[file] = e]: an existing key keeps its place, a new one
    comes last. *)
Fixpoint store (file : string) (e : ImportEntry)
    (l : list (string * ImportEntry)) : list (string * ImportEntry) :=
  match l with
  | [] => [(file, e)]
  | (f, e') :: l' =>
      if String.eqb f file then (f, e) :: l' else (f, e') :: store file e l'
  end.

(** [set.add(name)] *)
Definition setAdd (name : string) (s : list string) : list string :=
  if Js.includes s name then s else (s ++ [name])%list.

Definition addGlobal (file name : string) (isDefault : bool) : M unit :=
  fun this =>
    let i := match lookup file (imports this) with
             | Some i => i
             | None => mkEntry None []
             end in
    let put e := Ok (tt, mkImports (folder this) (store file e (imports this))) in
    if negb isDefault then put (mkEntry (def i) (setAdd name (named i)))
    else if Js.truthy (def i) then
      if negb (String.eqb (Js.show (def i)) name)
      then Raise (Thrown "Default import already specified")
      else put i
    else put (mkEntry (Some name) (named i)).

(** The four-way choice of [relative] in [addLocal]. *)
Definition relative (target self : ImportFolder) : string :=
  if folderEqb target self then "."
  else match target with
       | None => ".."
       | Some t =>
           match self with
           | None => "./" ++ folderName t
           | Some _ => "../" ++ folderName t
           end
       end.

Definition addLocal (target : ImportFolder) (file name : string)
    (isDefault : bool) : M unit :=
  fun this =>
    addGlobal (relative target (folder this) ++ "/" ++ file) name isDefault this.

Definition addValidate (name : string) : M unit :=
  addLocal None "type-utils" name false.

Section Render.
(** [a.localeCompare(b)] of the host. *)
Variable localeCompare : string -> string -> Z.

Definition byFile (a b : string * ImportEntry) : Z :=
  localeCompare (fst a) (fst b).

(** The body of the loop of [toString] for one entry. *)
Definition appendEntry (b : StringBuilder.t) (entry : string * ImportEntry)
  : StringBuilder.t :=
  let file := fst entry in
  let names := sort localeCompare (named (snd entry)) in
  let b := StringBuilder.append b "import { " in
  let b :=
    if Js.truthy (def (snd entry)) then
      let b := StringBuilder.append b "default as " in
      let b := StringBuilder.append b (Js.show (def (snd entry))) in
      if (0 <? length names)%nat then StringBuilder.append b ", " else b
    else b in
  let b :=
    forEach (fun b n i =>
               let b := if (0 <? i)%nat then StringBuilder.append b ", " else b in
               StringBuilder.append b n) names b in
  let b := StringBuilder.append b " } from " in
  let b := StringBuilder.append b (Js.stringify file) in
  StringBuilder.append b ";".

Definition toString (this : Imports) : string :=
  let b := StringBuilder.append StringBuilder.empty (String Js.LF (Js.chr Js.LF)) in
  let b := fold_left appendEntry (sort byFile (imports this)) b in
  let b := StringBuilder.append b (String Js.LF (Js.chr Js.LF)) in
  StringBuilder.toString EmptyString b.

End Render.

End ImportsImpl.

(* ===================================================================== *)
(** ** OpenAPI schemas (src/openapi.ts) *)
(* ===================================================================== *)

(** A schema object or a reference, as [getRuntimeType] reads it: [keys] is
    [Object.keys(schema)] in order, the other fields are the values of the
    properties the resolver reads ([None] for [undefined]). *)
#[warnings="-register-all"]
Inductive Schema : Type := mkSchema {
  keys : list string;
  ref : option string;
  oneOf : option (list Schema);
  type : option string;
  format : option string;
  minLength : option Z;
  maxLength : option Z;
  additionalProperties : option (bool + Schema);
  items : option Schema
}.

(** [isReference(x)]: ["$ref" in x]. *)
Definition isReference (schema : Schema) : bool :=
  Js.includes (keys schema) "$ref".

(* ===================================================================== *)
(** ** The runtime type resolver (src/runtime-type.ts) *)
(* ===================================================================== *)

Record RuntimeType : Type := mkRuntimeType {
  typeName : string;
  fromJson : M string;
  fromJsonParam : M string;
  toJson : M string
}.

Fixpoint mapM {A B} (f : A -> M B) (l : list A) : M (list B) :=
  match l with
  | [] => ret []
  | x :: l' => (y <- f x ;; ys <- mapM f l' ;; ret (y :: ys))%M
  end.

(** [l.map((x, i) => f(x, i))] for an effectful [f], from index [i]. *)
Definition mapMFrom {A B} (f : A -> nat -> M B) : list A -> nat -> M (list B) :=
  fix go (l : list A) (i : nat) : M (list B) :=
    match l with
    | [] => ret []
    | x :: l' => (y <- f x i ;; ys <- go l' (S i) ;; ret (y :: ys))%M
    end.

Module RuntimeTypeImpl.
Import ImportsImpl.

Definition BOOLEAN : M RuntimeType :=
  let fromJson := (addValidate "testBoolean" ;; ret "testBoolean")%M in
  ret (mkRuntimeType "boolean" fromJson
         (addValidate "testBooleanString" ;; ret "testBooleanString")%M
         fromJson).

Definition NUMBER : M RuntimeType :=
  let fromJson := (addValidate "testNumber" ;; ret "testNumber")%M in
  ret (mkRuntimeType "number" fromJson
         (addValidate "testNumberString" ;; ret "testNumberString")%M
         fromJson).

Definition INTEGER : M RuntimeType :=
  let fromJson := (addValidate "testInteger" ;; ret "testInteger")%M in
  ret (mkRuntimeType "number" fromJson
         (addValidate "testIntegerString" ;; ret "testIntegerString")%M
         fromJson).

Definition BIG_NUMBER : M RuntimeType :=
  (addGlobal "bignumber.js" "BigNumber" true ;;
   let fromJson := (addValidate "testBigNumber" ;; ret "testBigNumber") in
   ret (mkRuntimeType "BigNumber" fromJson
          (addValidate "testBigNumberString" ;; ret "testBigNumberString")
          fromJson))%M.

Definition BIG_INTEGER : M RuntimeType :=
  (addGlobal "bignumber.js" "BigNumber" true ;;
   let fromJson := (addValidate "testBigInteger" ;; ret "testBigInteger") in
   ret (mkRuntimeType "BigNumber" fromJson
          (addValidate "testBigIntegerString" ;; ret "testBigIntegerString")
          fromJson))%M.

Definition DATE : M RuntimeType :=
  (addGlobal "luxon" "DateTime" false ;;
   let fromJson := (addValidate "testDateString" ;; ret "testDateString") in
   ret (mkRuntimeType "DateTime" fromJson fromJson
          (addValidate "and" ;; addValidate "success" ;; addValidate "testType" ;;
           ret "and(testType(DateTime), (dt) => success(dt.toUTC().toISODate()))")))%M.

Definition DATE_TIME : M RuntimeType :=
  (addGlobal "luxon" "DateTime" false ;;
   let fromJson := (addValidate "testDateTimeString" ;; ret "testDateTimeString") in
   ret (mkRuntimeType "DateTime" fromJson fromJson
          (addValidate "and" ;; addValidate "success" ;; addValidate "testType" ;;
           ret "and(testType(DateTime), (dt) => success(dt.toUTC().toISO()))")))%M.

(** [props.delete(k)] on the set of keys. *)
Definition delete (k : string) (props : list string) : list string :=
  filter (fun p => negb (String.eqb p k)) props.

(** [props.size] as a condition. *)
Definition size (props : list string) : bool :=
  match props with
  | [] => false
  | _ :: _ => true
  end.

(** [`Unexpected properties of ${what} '${context}': ${Array.from(props)}`] *)
Definition unexpectedProperties (what context : string) (props : list string)
  : string :=
  "Unexpected properties of " ++ what ++ " '" ++ context ++ "': "
    ++ Js.join "," props.

Fixpoint stripPrefix (prefix s : string) : option string :=
  match prefix with
  | EmptyString => Some s
  | String p prefix' =>
      match s with
      | EmptyString => None
      | String c s' => if Ascii.eqb p c then stripPrefix prefix' s' else None
      end
  end.

(** [/^#\/components\/schemas\/(\w+)$/.exec(ref)]: the captured name. *)
Definition execRef (r : string) : option string :=
  match stripPrefix "#/components/schemas/" r with
  | Some name => if Js.isWordString name then Some name else None
  | None => None
  end.

(** [switch (x)] on an optional string. *)
Definition strictEq (x : option string) (s : string) : bool :=
  match x with
  | Some x => String.eqb x s
  | None => false
  end.

(** JavaScript truthiness of an optional number. *)
Definition truthyNumber (n : option Z) : bool :=
  match n with
  | Some z => negb (z =? 0)%Z
  | None => false
  end.

(** [n === 0] *)
Definition isZero (n : option Z) : bool :=
  match n with
  | Some z => (z =? 0)%Z
  | None => false
  end.

(** [`${n}`] for an optional number. *)
Definition showNumber (n : option Z) : string :=
  match n with
  | Some z => Js.numberToString z
  | None => "undefined"
  end.

(** The [fromJson] closure of the string branch (lines 295-330). *)
Definition stringFromJson (format : option string) (minLength maxLength : option Z)
    (context : string) : M string :=
  (if isZero minLength then
     throw ("Unexpected minLength of 0 in '" ++ context ++ "'")
   else if isZero maxLength then
     throw ("Unexpected maxLength of 0 in '" ++ context ++ "'")
   else
     options <-
       (if truthyNumber minLength || truthyNumber maxLength then
          addValidate "testStringLength" ;;
          ret ["testStringLength(" ++ showNumber minLength ++ ", "
                 ++ showNumber maxLength ++ ")"]
        else ret []) ;;
     options <-
       (if strictEq format "email" then
          addValidate "testEmail" ;;
          ret (options ++ ["testEmail"])%list
        else if strictEq format "uuid" then
          if truthyNumber minLength then
            throw ("Unexpected minLength of UUID '" ++ context ++ "'")
          else if truthyNumber maxLength then
            throw ("Unexpected maxLength of UUID '" ++ context ++ "'")
          else
            addValidate "testUuid" ;;
            ret (options ++ ["testUuid"])%list
        else ret options) ;;
     addValidate "testString" ;;
     match options with
     | [] => ret "testString"
     | _ :: _ =>
         addValidate "and" ;;
         ret ("and(testString," ++ Js.join "," options ++ ")")
     end)%M.

Section Resolver.
(** The global [enumTypes], filled before anything is resolved. *)
Variable enumTypes : list string.

(** The descriptor of a reference to [ident] (lines 195-228). *)
Definition referenceType (ident : Identifier) (context : string) : RuntimeType :=
  if Js.includes enumTypes (upperCamel ident) then
    let fromJson :=
      (addValidate "testOneOf" ;;
       addLocal (Some model) (kebab ident) ("values" ++ upperCamel ident) false ;;
       ret ("testOneOf(values" ++ upperCamel ident ++ ")"))%M in
    mkRuntimeType (upperCamel ident) fromJson fromJson fromJson
  else
    mkRuntimeType (upperCamel ident)
      (let method := "test" ++ upperCamel ident in
       addLocal (Some model) (kebab ident) method false ;; ret method)%M
      (throw ("Unexpected reference parameter '" ++ context ++ "'"))
      (let method := "print" ++ upperCamel ident in
       addLocal (Some model) (kebab ident) method false ;; ret method)%M.

(** The descriptor of a [oneOf] over the resolved branches. *)
Definition unionType (inner : list RuntimeType) : RuntimeType :=
  mkRuntimeType (Js.join " | " (map typeName inner))
    (addValidate "or" ;;
     exprs <- mapM fromJson inner ;;
     ret ("or(" ++ Js.join ", " exprs ++ ")"))%M
    (addValidate "or" ;;
     exprs <- mapM fromJsonParam inner ;;
     ret ("or(" ++ Js.join ", " exprs ++ ")"))%M
    (addValidate "or" ;;
     exprs <- mapM toJson inner ;;
     ret ("or(" ++ Js.join ", " exprs ++ ")"))%M.

(** The descriptor of a map over the resolved value type. *)
Definition mapType (inner : RuntimeType) (context : string) : RuntimeType :=
  mkRuntimeType ("ReadonlyMap<string, " ++ typeName inner ++ ">")
    (addValidate "testMap" ;;
     e <- fromJson inner ;; ret ("testMap(" ++ e ++ ")"))%M
    (throw ("Unexpected map parameter '" ++ context ++ "'"))
    (addValidate "printMap" ;;
     e <- toJson inner ;; ret ("printMap(" ++ e ++ ")"))%M.

(** The descriptor of an array over the resolved item type. *)
Definition arrayType (inner : RuntimeType) : RuntimeType :=
  mkRuntimeType ("ReadonlyArray<" ++ typeName inner ++ ">")
    (addValidate "testArray" ;;
     e <- fromJson inner ;; ret ("testArray(" ++ e ++ ")"))%M
    (addValidate "testParamArray" ;;
     e <- fromJsonParam inner ;; ret ("testParamArray(" ++ e ++ ")"))%M
    (addValidate "printArray" ;;
     e <- toJson inner ;; ret ("printArray(" ++ e ++ ")"))%M.

(** The string branch for the formats [undefined], [email], [password]
    and [uuid] (lines 287-338); [props] is what is left of the keys. *)
Definition stringCase (schema : Schema) (context : string)
    (props : list string) : M RuntimeType :=
  let props := delete "minLength" props in
  let props := delete "maxLength" props in
  if size props then
    throw (unexpectedProperties "string schema" context props)
  else
    let fromJson :=
      stringFromJson (format schema) (minLength schema) (maxLength schema)
        context in
    ret (mkRuntimeType "string" fromJson fromJson fromJson).

(** The body of [getRuntimeType]; [self] stands for the function itself
    in its three recursive calls. *)
Definition getRuntimeTypeBody (self : Schema -> string -> M RuntimeType)
    (schema : Schema) (context : string) : M RuntimeType :=
  let props := keys schema in
  if isReference schema then
    let props := delete "$ref" props in
    if size props then
      throw (unexpectedProperties "schema reference" context props)
    else
      match execRef (Js.show (ref schema)) with
      | None =>
          throw ("Expected ref to be of form /^#\/components\/schemas\/(\w+)$/, but found: "
                   ++ Js.show (ref schema))
      | Some name =>
          (ident <- lift (IdentifierImpl.fromCamel name) ;;
           addLocal (Some model) (kebab ident) (upperCamel ident) false ;;
           ret (referenceType ident context))%M
      end
  else
    match oneOf schema with
    | Some branches =>
        let props := delete "oneOf" props in
        if size props then
          throw (unexpectedProperties "oneOf schema" context props)
        else
          (inner <- mapMFrom
                      (fun s i =>
                         self s
                           (context ++ ".oneOf[" ++ Js.indexToString i ++ "]"))
                      branches 0 ;;
           ret (unionType inner))%M
    | None =>
        let props := delete "description" props in
        let props := delete "type" props in
        if strictEq (type schema) "string" then
          let props := delete "format" props in
          match format schema with
          | None => stringCase schema context props
          | Some f =>
              if String.eqb f "email" || String.eqb f "password"
                 || String.eqb f "uuid"
              then stringCase schema context props
              else if String.eqb f "date" then
                if size props then
                  throw (unexpectedProperties "date schema" context props)
                else DATE
              else if String.eqb f "date-time" then
                if size props then
                  throw (unexpectedProperties "date-time schema" context props)
                else DATE_TIME
              else
                throw ("Unexpected string format '" ++ f ++ "' of '"
                         ++ context ++ "'")
          end
        else if strictEq (type schema) "boolean" then
          if size props then
            throw (unexpectedProperties "boolean schema" context props)
          else BOOLEAN
        else if strictEq (type schema) "integer" || strictEq (type schema) "number" then
          let isInteger := strictEq (type schema) "integer" in
          let generator := if isInteger then INTEGER else NUMBER in
          let '(generator, props) :=
            if strictEq (format schema) "big"
            then (if isInteger then BIG_INTEGER else BIG_NUMBER,
                  delete "format" props)
            else (generator, props) in
          if size props then
            throw (unexpectedProperties (Js.show (type schema) ++ " schema")
                     context props)
          else generator
        else if strictEq (type schema) "object" then
          let props := delete "additionalProperties" props in
          if size props then
            throw (unexpectedProperties "map schema" context props)
          else
            match additionalProperties schema with
            | Some (inl b) =>
                throw ("Expected 'additionalProperties' inside '" ++ context
                         ++ "' to be a schema or reference, but found: "
                         ++ (if b then "true" else "false"))
            | None =>
                throw ("Expected 'additionalProperties' inside '" ++ context ++ "'")
            | Some (inr value) =>
                (inner <- self value (context ++ ".additionalProperties") ;;
                 ret (mapType inner context))%M
            end
        else if strictEq (type schema) "array" then
          let props := delete "items" props in
          if size props then
            throw (unexpectedProperties "array schema" context props)
          else
            match items schema with
            | None => throw ("Expected 'items' inside '" ++ context ++ "'")
            | Some item =>
                (inner <- self item (context ++ ".items") ;;
                 ret (arrayType inner))%M
            end
        else
          throw ("Unexpected type '" ++ Js.show (type schema) ++ "' of '"
                   ++ context ++ "'")
    end.

Fixpoint getRuntimeType (schema : Schema) (context : string) {struct schema}
  : M RuntimeType :=
  getRuntimeTypeBody getRuntimeType schema context.

End Resolver.

End RuntimeTypeImpl.

(* ===================================================================== *)
(** ** OpenAPI documents (src/openapi.ts), as src/index.ts reads them *)
(* ===================================================================== *)

(** [A | OpenAPIReference] *)
Inductive OrReference (A : Type) : Type :=
| Reference (target : string)
| Plain (a : A).

Arguments Reference {A} target.
Arguments Plain {A} a.

Module OpenAPIMediaType.
Record t : Type := mk { schema : option Schema }.
End OpenAPIMediaType.

Module OpenAPIResponse.
Record t : Type := mk {
  description : option string;
  content : option (list (string * OpenAPIMediaType.t))
}.
End OpenAPIResponse.

Module OpenAPIRequestBody.
Record t : Type := mk {
  description : option string;
  content : option (list (string * OpenAPIMediaType.t));
  required : option bool
}.
End OpenAPIRequestBody.

Module OpenAPIParameter.
(** [in_] is the property [in]. *)
Record t : Type := mk {
  name : string;
  in_ : string;
  required : option bool;
  description : option string;
  schema : option Schema
}.
End OpenAPIParameter.

(** The property [tags] of an operation: absent, an array of strings, or a
    value that is not an array, given by the text [`${tags}`] shows. *)
Inductive TagsField : Type :=
| TagsUndefined
| TagsArray (names : list string)
| TagsOther (shown : string).

Module OpenAPIOperation.
(** [other] holds the properties that neither the extractor nor the
    emitters name ([externalDocs], [callbacks], [deprecated], [servers]),
    each with the JSON text of its value. *)
Record t : Type := mk {
  tags : TagsField;
  summary : option string;
  description : option string;
  operationId : option string;
  parameters : option (list (OrReference OpenAPIParameter.t));
  requestBody : option (OrReference OpenAPIRequestBody.t);
  responses : list (string * OrReference OpenAPIResponse.t);
  other : list (string * string)
}.

(** [{ tags, ...operation }]: the operation without its tags. *)
Definition withoutTags (o : t) : t :=
  mk TagsUndefined (summary o) (description o) (operationId o)
     (parameters o) (requestBody o) (responses o) (other o).
End OpenAPIOperation.

Module OpenAPITag.
(** [externalDocs] is given by its JSON text. *)
Record t : Type := mk {
  name : string;
  description : option string;
  externalDocs : option string
}.
End OpenAPITag.

(* ===================================================================== *)
(** ** The operation extractor (src/index.ts, lines 81-160) *)
(* ===================================================================== *)

Inductive UrlPartType : Type := literal | param.

Module UrlPart.
Record t : Type := mk { type : UrlPartType; value : string }.
End UrlPart.

Module Url.
Record t : Type := mk { original : string; parts : list UrlPart.t }.
End Url.

Module OperationExtended.
(** [OpenAPIOperation & { method; url }] *)
Record t : Type := mk {
  operation : OpenAPIOperation.t;
  method : string;
  url : Url.t
}.
End OperationExtended.

Module TagEntry.
(** A value of [operationsByTag]. *)
Record t : Type := mk {
  description : option string;
  externalDocs : option string;
  operations : list OperationExtended.t
}.
End TagEntry.

Module Extractor.

Definition isHttpMethod (s : string) : bool :=
  Js.includes
    ["GET"; "PUT"; "POST"; "DELETE"; "OPTIONS"; "HEAD"; "PATCH"; "TRACE"] s.

(** The longest prefix of word characters, and the rest. *)
Fixpoint takeWord (s : string) : string * string :=
  match s with
  | EmptyString => (EmptyString, EmptyString)
  | String c rest =>
      if Js.isWord c
      then let '(w, rest') := takeWord rest in (String c w, rest')
      else (EmptyString, s)
  end.

(** [\{(\w+)\}] at the head of [s]: the name and what follows the brace. *)
Definition bracedWord (s : string) : option (string * string) :=
  match s with
  | String c rest =>
      if (nat_of_ascii c =? 123)%nat then
        match takeWord rest with
        | (String w ws, String d rest') =>
            if (nat_of_ascii d =? 125)%nat then Some (String w ws, rest')
            else None
        | _ => None
        end
      else None
  | EmptyString => None
  end.

(** [/^(.*?)\{(\w+)\}/.exec(s)]: group 1, group 2 and
    [s.substring(match[0].length)].  The lazy [.*?] grows one character
    at a time and never over a line terminator. *)
Fixpoint exec (s : string) : option (string * string * string) :=
  match bracedWord s with
  | Some (name, rest) => Some (EmptyString, name, rest)
  | None =>
      match s with
      | EmptyString => None
      | String c s' =>
          if Js.isLineTerminator c then None
          else match exec s' with
               | Some (start, name, rest) => Some (String c start, name, rest)
               | None => None
               end
      end
  end.

Definition nonEmpty (s : string) : bool :=
  match s with
  | EmptyString => false
  | String _ _ => true
  end.

(** One turn of the [while] loop: what is pushed on [parts]. *)
Definition pushMatch (parts : list UrlPart.t) (start name : string)
  : list UrlPart.t :=
  let parts :=
    if nonEmpty start then (parts ++ [UrlPart.mk literal start])%list else parts in
  (parts ++ [UrlPart.mk param name])%list.

(** A value together with the equation that names it. *)
Definition inspect {A : Type} (a : A) : { b : A | a = b } :=
  exist _ a eq_refl.

(** The [while] loop of the extractor: the parts pushed and the final
    [urlRest]. *)
Equations? whileMatch (parts : list UrlPart.t) (urlRest : string)
  : list UrlPart.t * string by wf (String.length urlRest) lt :=
  whileMatch parts urlRest with inspect (exec urlRest) := {
    | exist _ (Some (start, name, rest)) _ =>
        whileMatch (pushMatch parts start name) rest
    | exist _ None _ => (parts, urlRest)
  }.
Proof.
  (* what is left after a match is shorter than [urlRest] *)
  assert (Htake : forall s,
            String.length (fst (takeWord s)) + String.length (snd (takeWord s))
            = String.length s).
  { induction s as [|c s IH]; simpl; [reflexivity|].
    destruct (Js.isWord c); [|reflexivity].
    destruct (takeWord s) as [w r]; simpl in *. lia. }
  assert (Hbraced : forall s n r,
            bracedWord s = Some (n, r) -> String.length r < String.length s).
  { intros [|c s] n r; simpl; [discriminate|].
    destruct (nat_of_ascii c =? 123)%nat; [|discriminate].
    pose proof (Htake s) as L.
    destruct (takeWord s) as [w t]; simpl in L.
    destruct w as [|w ws]; [discriminate|].
    destruct t as [|d t]; [discriminate|].
    destruct (nat_of_ascii d =? 125)%nat; [|discriminate].
    intros [= <- <-]. simpl in *. lia. }
  clear whileMatch parts. revert start name rest e.
  induction urlRest as [|c s IH]; intros start name rest.
  - simpl. discriminate.
  - change (exec (String c s))
      with (match bracedWord (String c s) with
            | Some (n, r) => Some (EmptyString, n, r)
            | None =>
                if Js.isLineTerminator c then None
                else match exec s with
                     | Some (st, n, r) => Some (String c st, n, r)
                     | None => None
                     end
            end).
    destruct (bracedWord (String c s)) as [[n r]|] eqn:B.
    + intros [= <- <- <-]. apply Hbraced in B. exact B.
    + destruct (Js.isLineTerminator c); [discriminate|].
      destruct (exec s) as [[[st n] r]|] eqn:E; [|discriminate].
      intros [= <- <- <-]. specialize (IH _ _ _ eq_refl). simpl. lia.
Qed.

(** Lines 127-145: the parsed url of a path template. *)
Definition parseUrl (urlString : string) : Url.t :=
  let '(parts, urlRest) := whileMatch [] urlString in
  let parts :=
    if nonEmpty urlRest then (parts ++ [UrlPart.mk literal urlRest])%list
    else parts in
  Url.mk urlString parts.

Definition ByTag : Type := list (string * TagEntry.t).

Fixpoint lookup (name : string) (o : ByTag) : option TagEntry.t :=
  match o with
  | [] => None
  | (n, e) :: o' => if String.eqb n name then Some e else lookup name o'
  end.

Fixpoint store (name : string) (e : TagEntry.t) (o : ByTag) : ByTag :=
  match o with
  | [] => [(name, e)]
  | (n, e') :: o' =>
      if String.eqb n name then (n, e) :: o' else (n, e') :: store name e o'
  end.

(** The [reduce] over the declared tags (lines 115-125). *)
Definition declaredTags (tags : list OpenAPITag.t) : ByTag :=
  fold_left
    (fun o tag =>
       store (OpenAPITag.name tag)
         (TagEntry.mk (OpenAPITag.description tag) (OpenAPITag.externalDocs tag) []) o)
    tags [].

(** [`${tags}`] *)
Definition showTags (tags : TagsField) : string :=
  match tags with
  | TagsUndefined => "undefined"
  | TagsArray names => Js.join "," names
  | TagsOther shown => shown
  end.

(** The body of the loop over the methods of a path (lines 149-159). *)
Definition addOperation (urlString : string) (url : Url.t)
    (operationsByTag : ByTag) (entry : string * OpenAPIOperation.t) : result ByTag :=
  let method := fst entry in
  let operation := snd entry in
  if negb (isHttpMethod method) then Ok operationsByTag
  else
    match OpenAPIOperation.tags operation with
    | TagsArray [tagName] =>
        let tag := match lookup tagName operationsByTag with
                   | Some tag => tag
                   | None => TagEntry.mk None None []
                   end in
        Ok (store tagName
              (TagEntry.mk (TagEntry.description tag) (TagEntry.externalDocs tag)
                 (TagEntry.operations tag
                    ++ [OperationExtended.mk (OpenAPIOperation.withoutTags operation)
                          method url])%list)
              operationsByTag)
    | tags =>
        Raise (Thrown ("Expected 1 tag for " ++ method ++ " " ++ urlString
                         ++ ", but found: " ++ showTags tags))
    end.

Fixpoint foldM {A B} (f : B -> A -> result B) (l : list A) (acc : B)
  : result B :=
  match l with
  | [] => Ok acc
  | x :: l' => (acc' <~ f acc x ;; foldM f l' acc')%result
  end.

(** The body of the loop over [Object.entries(paths)] (lines 126-160). *)
Definition addPath (operationsByTag : ByTag)
    (path : string * list (string * OpenAPIOperation.t)) : result ByTag :=
  let urlString := fst path in
  let url := parseUrl urlString in
  let entries := map (fun kv => (Js.toUpperCase (fst kv), snd kv)) (snd path) in
  foldM (addOperation urlString url) entries operationsByTag.

Definition operationsByTag (tags : list OpenAPITag.t)
    (paths : list (string * list (string * OpenAPIOperation.t))) : result ByTag :=
  foldM addPath paths (declaredTags tags).

End Extractor.

(* ===================================================================== *)
(** ** The API and client emitters (src/index.ts, lines 162-774) *)
(* ===================================================================== *)

Module Emitter.
Import ImportsImpl.

Definition nl : string := Js.chr Js.LF.

(** [a.push(x)] *)
Definition push {A} (a : list A) (x : A) : list A := (a ++ [x])%list.

(** A string between double quotes, as it stands in the source text. *)
Definition quoted (s : string) : string :=
  String Js.DQUOTE s ++ Js.chr Js.DQUOTE.

(** Consecutive [b.append(...)] calls. *)
Definition appends (b : StringBuilder.t) (l : list string) : StringBuilder.t :=
  fold_left StringBuilder.append l b.

(** [x || fallback] for an optional string. *)
Definition orElse (x : option string) (fallback : string) : string :=
  if Js.truthy x then Js.show x else fallback.

Definition splitLines (s : option string) : list string :=
  if Js.truthy s then Js.splitNewlines (Js.trim (Js.show s)) else [].

(** [while (lines.length && !lines[0]) lines.shift()] *)
Fixpoint shiftEmpty (lines : list (option string)) : list (option string) :=
  match lines with
  | [] => []
  | x :: rest => if Js.truthy x then lines else shiftEmpty rest
  end.

(** [while (lines.length && !lines[lines.length - 1]) lines.pop()] *)
Definition popEmpty (lines : list (option string)) : list (option string) :=
  rev (shiftEmpty (rev lines)).

Definition appendMarkdownAsComment (b : StringBuilder.t)
    (lines : list (option string)) : StringBuilder.t :=
  let lines := shiftEmpty (popEmpty lines) in
  match lines with
  | [] => b
  | [line] => appends b [nl ++ "/** "; Js.show line; " */" ++ nl]
  | _ =>
      let b := StringBuilder.append b (nl ++ "/**" ++ nl) in
      let '(b, _) :=
        fold_left
          (fun (st : StringBuilder.t * bool) x =>
             let '(b, lastEmpty) := st in
             if Js.truthy x then (appends b [" * "; Js.show x; nl], false)
             else ((if lastEmpty then b else StringBuilder.append b (" *" ++ nl)),
                   true))
          lines (b, false) in
      StringBuilder.append b (" */" ++ nl)
  end.

(** [JSON.stringify(props)] for an object given by the JSON text of its
    values. *)
Definition stringifyObject (props : list (string * string)) : string :=
  "{" ++ Js.join "," (map (fun kv => Js.stringify (fst kv) ++ ":" ++ snd kv) props)
    ++ "}".

Fixpoint lookup {A} (key : string) (o : list (string * A)) : option A :=
  match o with
  | [] => None
  | (k, v) :: o' => if String.eqb k key then Some v else lookup key o'
  end.

(** [/^(\w+)\.(\w+)$/.exec(s)] *)
Definition execDotted (s : string) : option (string * string) :=
  match Extractor.takeWord s with
  | (String c w, String d rest) =>
      if (nat_of_ascii d =? 46)%nat && Js.isWordString rest
      then Some (String c w, rest) else None
  | _ => None
  end.

(** Lines 361-370 and 610-619. *)
Definition methodName (tag : Identifier) (method : string) (url : Url.t)
    (operationId : string) : result string :=
  if Js.isWordString operationId then Ok operationId
  else
    match execDotted operationId with
    | Some (m1, m2) =>
        if String.eqb m1 (upperCamel tag) then Ok m2
        else Raise (Thrown ("Expected operation ID for " ++ method ++ " "
                              ++ Url.original url ++ " to start with "
                              ++ quoted (upperCamel tag ++ ".")))
    | None =>
        Raise (Thrown ("Expected operation ID for " ++ method ++ " "
                         ++ Url.original url ++ " to start with "
                         ++ quoted (upperCamel tag ++ ".")))
    end.

(** [paramJsDoc.push(prefix, ...splitLines(doc).map((l) => `  ${l}`))] *)
Definition addJsDoc (paramJsDoc : list string) (prefix doc : string)
  : list string :=
  (paramJsDoc ++ prefix :: map (String.append "  ") (splitLines (Some doc)))%list.

(** [`${paramType[0].toUpperCase()}${paramType.substring(1)} param.`] *)
Definition defaultParamDoc (paramType : string) : result string :=
  (capital <~ IdentifierImpl.capitalize paramType ;; Ok (capital ++ " param."))%result.

(** [{ 200: response, ...otherResponses } = responses] *)
Definition otherResponses {A} (responses : list (string * A)) : list (string * A) :=
  filter (fun kv => negb (String.eqb (fst kv) "200")) responses.

Definition isNil {A} (l : list A) : bool :=
  match l with
  | [] => true
  | _ :: _ => false
  end.

Section WithEnums.
Variable enumTypes : list string.

Definition getRuntimeType := RuntimeTypeImpl.getRuntimeType enumTypes.

Definition getTypeFromContent
    (content : option (list (string * OpenAPIMediaType.t)))
    (context : string) : M (option RuntimeType) :=
  match content with
  | None => ret None
  | Some content =>
      match lookup "application/json" content with
      | None => ret None
      | Some jsonContent =>
          match OpenAPIMediaType.schema jsonContent with
          | None => ret None
          | Some schema =>
              (t <- getRuntimeType schema context ;; ret (Some t))%M
          end
      end
  end.

(** Lines 467-482 and 691-706: the response of an operation; the result
    is the return type, if any, and the extended [paramJsDoc]. *)
Definition checkResponses (operationId : string)
    (responses : list (string * OrReference OpenAPIResponse.t))
    (paramJsDoc : list string) : M (option RuntimeType * list string) :=
  match lookup "200" responses with
  | None => throw ("Expected 200 response of operation " ++ operationId)
  | Some response =>
      if negb (isNil (otherResponses responses)) then
        throw "Unexpected responses of operation"
      else
        match response with
        | Reference _ =>
            throw ("Unexpected reference in response of " ++ operationId)
        | Plain response =>
            (returnType <- getTypeFromContent (OpenAPIResponse.content response)
                             (operationId ++ ".200.responseBody") ;;
             ret (returnType,
                  match returnType with
                  | Some _ =>
                      addJsDoc paramJsDoc "@return"
                        (orElse (OpenAPIResponse.description response)
                           "Response body.")
                  | None => paramJsDoc
                  end))%M
        end
  end.

(** The locals of one turn of the loop of [writeApi]. *)
Record ApiLocals : Type := mkApiLocals {
  paramNames : list string;
  paramsWithTypes : list string;
  paramLines : StringBuilder.t;
  paramJsDoc : list string
}.

(** Lines 384-409: the request body of an operation of [writeApi]. *)
Definition apiRequestBody (operationId : string)
    (requestBody : option (OrReference OpenAPIRequestBody.t)) (l : ApiLocals)
  : M ApiLocals :=
  match requestBody with
  | Some (Plain requestBody) =>
      (requestType <- getTypeFromContent (OpenAPIRequestBody.content requestBody)
                        (operationId ++ ".requestBody") ;;
       match requestType with
       | None => ret l
       | Some requestType =>
           match OpenAPIRequestBody.required requestBody with
           | Some true =>
               addValidate "validate" ;;
               expr <- fromJson requestType ;;
               ret (mkApiLocals
                      (push (paramNames l) "body")
                      (push (paramsWithTypes l) ("body: " ++ typeName requestType))
                      (appends (paramLines l)
                         ["const body = validate("; expr; ")(req.body, [";
                          Js.stringify operationId;
                          ", " ++ quoted "requestBody" ++ "]);"])
                      (addJsDoc (paramJsDoc l) "@param body"
                         (orElse (OpenAPIRequestBody.description requestBody)
                            "Request body.")))
           | _ => throw ("Body is not required for operation " ++ operationId)
           end
       end)%M
  | _ => ret l
  end.

(** Lines 411-465: one parameter of an operation of [writeApi]. *)
Definition apiParameter (operationId : string) (l : ApiLocals)
    (parameter : OrReference OpenAPIParameter.t) : M ApiLocals :=
  match parameter with
  | Reference _ =>
      throw ("Unexpected reference in parameter of " ++ operationId)
  | Plain parameter =>
      let paramName := OpenAPIParameter.name parameter in
      let paramType := OpenAPIParameter.in_ parameter in
      let paramRequired :=
        match OpenAPIParameter.required parameter with
        | Some r => r
        | None => false
        end in
      match OpenAPIParameter.schema parameter with
      | None =>
          throw ("Expected schema inside of parameter " ++ paramName ++ " of "
                   ++ operationId)
      | Some paramSchema =>
          (t <- getRuntimeType paramSchema
                  (operationId ++ "." ++ paramType ++ "." ++ paramName) ;;
           addValidate "validate" ;;
           let lines := appends (paramLines l) ["const "; paramName; " = validate("] in
           lines <- (if paramRequired then ret lines
                     else addValidate "opt" ;;
                          ret (StringBuilder.append lines "opt(")) ;;
           expr <- fromJsonParam t ;;
           let lines := StringBuilder.append lines expr in
           let lines :=
             if paramRequired then lines else StringBuilder.append lines ")" in
           let lines :=
             appends lines
               [")(req.";
                if String.eqb paramType "path" then "params" else paramType;
                "."; paramName; ", ["; Js.stringify operationId; ", ";
                Js.stringify paramType; ", "; Js.stringify paramName; "]);"] in
           doc <- (if Js.truthy (OpenAPIParameter.description parameter)
                   then ret (Js.show (OpenAPIParameter.description parameter))
                   else lift (defaultParamDoc paramType)) ;;
           ret (mkApiLocals
                  (push (paramNames l) paramName)
                  (push (paramsWithTypes l)
                     (paramName ++ ": " ++ typeName t
                        ++ (if paramRequired then EmptyString
                            else " | undefined")))
                  lines
                  (addJsDoc (paramJsDoc l) ("@param " ++ paramName) doc)))%M
      end
  end.

Fixpoint foldM {A B} (f : B -> A -> M B) (l : list A) (acc : B) : M B :=
  match l with
  | [] => ret acc
  | x :: l' => (acc' <- f acc x ;; foldM f l' acc')%M
  end.

(** [if (!operationId) throw ...] (lines 358-360 and 607-609). *)
Definition requireOperationId (o : OperationExtended.t) : M string :=
  let operationId := OpenAPIOperation.operationId (OperationExtended.operation o) in
  if Js.truthy operationId then ret (Js.show operationId)
  else throw ("Expected operation ID for " ++ OperationExtended.method o ++ " "
                ++ Url.original (OperationExtended.url o)).

(** [if (isReference(requestBody)) throw ...] *)
Definition refuseBodyReference (operationId : string)
    (requestBody : option (OrReference OpenAPIRequestBody.t)) : M unit :=
  match requestBody with
  | Some (Reference _) =>
      throw ("Unexpected reference in request body " ++ operationId)
  | _ => ret tt
  end.

(** Lines 547-551 and 765-769. *)
Definition refuseOtherProps (operationId : string)
    (other : list (string * string)) : M unit :=
  if isNil other then ret tt
  else throw ("Unexpected properties of operation " ++ operationId ++ ": "
                ++ stringifyObject other).

(** [addResponseValidator()] of [writeApi]. *)
Definition addResponseValidator (operationId : string)
    (returnType : option RuntimeType) (registerLines : StringBuilder.t)
  : M StringBuilder.t :=
  match returnType with
  | None => ret registerLines
  | Some returnType =>
      (addValidate "validate" ;;
       expr <- toJson returnType ;;
       ret (appends registerLines
              [".then((result) => validate("; expr; ")(result, [";
               Js.stringify operationId;
               ", " ++ quoted "200" ++ ", " ++ quoted "responseBody" ++ "]))"]))%M
  end.

(** The body of the loop of [writeApi] (lines 345-552); the state is
    [abstractMethodLines] and [registerLines]. *)
Definition apiOperation (tag : Identifier)
    (acc : StringBuilder.t * StringBuilder.t) (o : OperationExtended.t)
  : M (StringBuilder.t * StringBuilder.t) :=
  let '(abstractMethodLines, registerLines) := acc in
  let op := OperationExtended.operation o in
  let method := OperationExtended.method o in
  let url := OperationExtended.url o in
  (operationId <- requireOperationId o ;;
   methodName <- lift (methodName tag method url operationId) ;;
   refuseBodyReference operationId (OpenAPIOperation.requestBody op) ;;
   l <- apiRequestBody operationId (OpenAPIOperation.requestBody op)
          (mkApiLocals [] [] StringBuilder.empty []) ;;
   l <- foldM (apiParameter operationId)
          (match OpenAPIOperation.parameters op with
           | Some parameters => parameters
           | None => []
           end) l ;;
   r <- checkResponses operationId (OpenAPIOperation.responses op) (paramJsDoc l) ;;
   let '(returnType, paramJsDoc) := r in
   let abstractMethodLines :=
     appendMarkdownAsComment abstractMethodLines
       (OpenAPIOperation.summary op :: Some EmptyString
          :: OpenAPIOperation.description op :: Some EmptyString
          :: map Some paramJsDoc) in
   let abstractMethodLines :=
     appends abstractMethodLines ["abstract "; methodName; "("] in
   let abstractMethodLines :=
     forEach (fun b p i =>
                let b := if (0 <? i)%nat then StringBuilder.append b "," else b in
                StringBuilder.append b p)
       (paramsWithTypes l) abstractMethodLines in
   let abstractMethodLines :=
     appends abstractMethodLines
       ["): Promise<";
        match returnType with
        | Some t => typeName t
        | None => "void"
        end;
        ">;" ++ nl ++ nl] in
   (* [typeof url === "string"] never holds: [url] is the parsed object *)
   let urlString :=
     fold_left
       (fun b part =>
          let b := match UrlPart.type part with
                   | param => StringBuilder.append b ":"
                   | literal => b
                   end in
          StringBuilder.append b (UrlPart.value part))
       (Url.parts url) StringBuilder.empty in
   let registerLines :=
     appends registerLines
       ["app."; Js.toLowerCase method; "(";
        Js.stringify (StringBuilder.toString EmptyString urlString);
        ", (req: Request, res: Response) => "; "this.handleResponse(res, "] in
   registerLines <-
     (if isNil (paramNames l) then
        let registerLines :=
          StringBuilder.append registerLines ("this." ++ methodName ++ "()") in
        registerLines <- addResponseValidator operationId returnType registerLines ;;
        ret (StringBuilder.append registerLines ")")
      else
        let registerLines := StringBuilder.append registerLines "(async () => {" in
        let registerLines := StringBuilder.appendBuilder registerLines (paramLines l) in
        let registerLines :=
          appends registerLines
            ["return await this."; methodName; "("; Js.join "," (paramNames l); ")"] in
        registerLines <- addResponseValidator operationId returnType registerLines ;;
        ret (StringBuilder.append registerLines ";})())")) ;;
   let registerLines := StringBuilder.append registerLines ");" in
   refuseOtherProps operationId (OpenAPIOperation.other op) ;;
   ret (abstractMethodLines, registerLines))%M.

(** [writeApi] up to its last line: the builder [b] and the imports. *)
Definition writeApiBuilder (tag : Identifier) (tagDescription : option string)
    (operations : list OperationExtended.t) : M StringBuilder.t :=
  (addLocal None "base-api" "BaseApi" false ;;
   addGlobal "express" "Express" false ;;
   addGlobal "express" "Request" false ;;
   addGlobal "express" "Response" false ;;
   lines <- foldM (apiOperation tag) operations
              (StringBuilder.empty, StringBuilder.empty) ;;
   let '(abstractMethodLines, registerLines) := lines in
   let b := StringBuilder.appendImports StringBuilder.empty in
   let b :=
     appendMarkdownAsComment b
       (Some (display tag ++ " api.") :: Some EmptyString
          :: map Some (splitLines tagDescription)) in
   let b := appends b ["export abstract class "; upperCamel tag; "Api extends BaseApi {"] in
   let b := StringBuilder.appendBuilder b abstractMethodLines in
   let b :=
     StringBuilder.append b
       ("/** Register all endpoints. */" ++ nl
          ++ "registerEndpoints(app: Express): void {") in
   let b := StringBuilder.appendBuilder b registerLines in
   ret (StringBuilder.append b "}}"))%M.

(** The locals of one turn of the loop of [writeClient]. *)
Record ClientLocals : Type := mkClientLocals {
  cParamNames : list string;
  cParamsWithTypes : list string;
  queryParamNames : list string;
  cParamJsDoc : list string;
  hasBody : bool
}.

(** Lines 632-647: the request body of an operation of [writeClient]. *)
Definition clientRequestBody (operationId : string)
    (requestBody : option (OrReference OpenAPIRequestBody.t)) (l : ClientLocals)
  : M ClientLocals :=
  match requestBody with
  | Some (Plain requestBody) =>
      (requestType <- getTypeFromContent (OpenAPIRequestBody.content requestBody)
                        (operationId ++ ".requestBody") ;;
       match requestType with
       | None => ret l
       | Some requestType =>
           match OpenAPIRequestBody.required requestBody with
           | Some true =>
               ret (mkClientLocals
                      (push (cParamNames l) "body")
                      (push (cParamsWithTypes l) ("body: " ++ typeName requestType))
                      (queryParamNames l)
                      (addJsDoc (cParamJsDoc l) "@param body"
                         (orElse (OpenAPIRequestBody.description requestBody)
                            "Request body."))
                      true)
           | _ => throw ("Body is not required for operation " ++ operationId)
           end
       end)%M
  | _ => ret l
  end.

(** Lines 649-684: one parameter of an operation of [writeClient]. *)
Definition clientParameter (operationId : string) (l : ClientLocals)
    (parameter : OrReference OpenAPIParameter.t) : M ClientLocals :=
  match parameter with
  | Reference _ =>
      throw ("Unexpected reference in parameter of " ++ operationId)
  | Plain parameter =>
      let paramName := OpenAPIParameter.name parameter in
      let paramType := OpenAPIParameter.in_ parameter in
      let paramRequired :=
        match OpenAPIParameter.required parameter with
        | Some r => r
        | None => false
        end in
      if negb (String.eqb paramType "path") && negb (String.eqb paramType "query")
      then throw ("Params should only be path or query: " ++ paramName ++ " of "
                    ++ operationId)
      else
        match OpenAPIParameter.schema parameter with
        | None =>
            throw ("Expected schema inside of parameter " ++ paramName ++ " of "
                     ++ operationId)
        | Some paramSchema =>
            (t <- getRuntimeType paramSchema
                    (operationId ++ "." ++ paramType ++ "." ++ paramName) ;;
             doc <- (if Js.truthy (OpenAPIParameter.description parameter)
                     then ret (Js.show (OpenAPIParameter.description parameter))
                     else lift (defaultParamDoc paramType)) ;;
             ret (mkClientLocals
                    (push (cParamNames l) paramName)
                    (push (cParamsWithTypes l)
                       (paramName ++ ": " ++ typeName t
                          ++ (if paramRequired then EmptyString
                              else " | undefined")))
                    (if String.eqb paramType "query"
                     then push (queryParamNames l) paramName
                     else queryParamNames l)
                    (addJsDoc (cParamJsDoc l) ("@param " ++ paramName) doc)
                    (hasBody l)))%M
        end
  end.

(** The body of the loop of [writeClient] (lines 594-770); the state is
    the builder [b]. *)
Definition clientOperation (tag : Identifier) (b : StringBuilder.t)
    (o : OperationExtended.t) : M StringBuilder.t :=
  let op := OperationExtended.operation o in
  let method := OperationExtended.method o in
  let url := OperationExtended.url o in
  (operationId <- requireOperationId o ;;
   methodName <- lift (methodName tag method url operationId) ;;
   refuseBodyReference operationId (OpenAPIOperation.requestBody op) ;;
   l <- clientRequestBody operationId (OpenAPIOperation.requestBody op)
          (mkClientLocals [] [] [] [] false) ;;
   l <- foldM (clientParameter operationId)
          (match OpenAPIOperation.parameters op with
           | Some parameters => parameters
           | None => []
           end) l ;;
   let paramJsDoc :=
     addJsDoc (cParamJsDoc l) "@param overrideConfig"
       "Client config variable overrides. Defaults to the baseConfig." in
   r <- checkResponses operationId (OpenAPIOperation.responses op) paramJsDoc ;;
   let '(returnType, paramJsDoc) := r in
   let b :=
     appendMarkdownAsComment b
       (OpenAPIOperation.summary op :: Some EmptyString
          :: OpenAPIOperation.description op :: Some EmptyString
          :: map Some paramJsDoc) in
   let b := appends b [methodName; "("] in
   let b := fold_left (fun b p => appends b [p; ","]) (cParamsWithTypes l) b in
   addLocal None "base-client" "ClientConfig" false ;;
   let b :=
     appends b
       ["overrideConfig: Partial<ClientConfig> = {}): Promise<";
        match returnType with
        | Some t => typeName t
        | None => "void"
        end;
        "> {return this.fetch(overrideConfig, " ++ Js.chr Js.DQUOTE;
        method;
        Js.chr Js.DQUOTE ++ ","] in
   addLocal None "base-client" "UrlBuilder" false ;;
   let b := StringBuilder.append b "new UrlBuilder()" in
   let b :=
     fold_left
       (fun b part =>
          match UrlPart.type part with
          | literal =>
              appends b [".addLiteral("; Js.stringify (UrlPart.value part); ")"]
          | param => appends b [".addPathParam("; UrlPart.value part; ")"]
          end)
       (Url.parts url) b in
   let b :=
     fold_left (fun b p => appends b [".addQuery("; Js.stringify p; ", "; p; ")"])
       (queryParamNames l) b in
   let b := StringBuilder.append b ".toString()," in
   let b := if hasBody l then StringBuilder.append b "body," else b in
   b <- match returnType with
        | None => ret b
        | Some returnType =>
            let b := if hasBody l then b else StringBuilder.append b "undefined," in
            expr <- fromJson returnType ;;
            ret (appends b [expr; ","])
        end ;;
   let b := StringBuilder.append b ");}" in
   refuseOtherProps operationId (OpenAPIOperation.other op) ;;
   ret b)%M.

(** [writeClient] up to its last line: the builder [b] and the imports. *)
Definition writeClientBuilder (tag : Identifier) (tagDescription : option string)
    (operations : list OperationExtended.t) : M StringBuilder.t :=
  (let b := StringBuilder.appendImports StringBuilder.empty in
   let b :=
     appendMarkdownAsComment b
       (Some (display tag ++ " client.") :: Some EmptyString
          :: map Some (splitLines tagDescription)) in
   addLocal None "base-client" "BaseClient" false ;;
   let b := appends b ["export class "; upperCamel tag; "Client extends BaseClient {"] in
   b <- foldM (clientOperation tag) operations b ;;
   ret (StringBuilder.append b "}"))%M.

Section WithLocale.
Variable localeCompare : string -> string -> Z.

(** [return b.toString()]: the [Imports] object among the parts is
    rendered now, with all that was registered. *)
Definition finish (start : ImportFolder) (body : M StringBuilder.t)
  : result string :=
  match body (mkImports start []) with
  | Ok (b, imports) =>
      Ok (StringBuilder.toString (ImportsImpl.toString localeCompare imports) b)
  | Raise e => Raise e
  end.

Definition writeApi (tag : Identifier) (tagDescription : option string)
    (operations : list OperationExtended.t) : result string :=
  finish (Some api) (writeApiBuilder tag tagDescription operations).

Definition writeClient (tag : Identifier) (tagDescription : option string)
    (operations : list OperationExtended.t) : result string :=
  finish (Some client) (writeClientBuilder tag tagDescription operations).

End WithLocale.

End WithEnums.

End Emitter.

(* ===================================================================== *)
(** ** Positions in a schema *)
(* ===================================================================== *)

(** The places of a schema that hold a schema: a branch of [oneOf], [items],
    [additionalProperties]. *)
Inductive Position : Type :=
| Branch (i : nat)
| Items
| AdditionalProperties.

(** The schema at a position. *)
Definition child (schema : Schema) (p : Position) : option Schema :=
  match p with
  | Branch i =>
      match oneOf schema with
      | Some branches => nth_error branches i
      | None => None
      end
  | Items => items schema
  | AdditionalProperties =>
      match additionalProperties schema with
      | Some (inr value) => Some value
      | _ => None
      end
  end.

(** The segment that names a position in a context. *)
Definition segment (p : Position) : string :=
  match p with
  | Branch i => ".oneOf[" ++ Js.indexToString i ++ "]"
  | Items => ".items"
  | AdditionalProperties => ".additionalProperties"
  end.



(** The resolver unfolded [n] levels deep above [self]. *)
Fixpoint unfoldResolver (enumTypes : list string) (n : nat)
    (self : Schema -> string -> M RuntimeType) : Schema -> string -> M RuntimeType :=
  match n with
  | 0 => self
  | S n' =>
      RuntimeTypeImpl.getRuntimeTypeBody enumTypes (unfoldResolver enumTypes n' self)
  end.

(* ===================================================================== *)
(** ** Vocabulary of the statements *)
(* ===================================================================== *)



(** The text of the template a segment stands for. *)
Definition partText (p : UrlPart.t) : string :=
  match UrlPart.type p with
  | literal => UrlPart.value p
  | param => String "{"%char (UrlPart.value p ++ "}")
  end.

Definition isLiteral (p : UrlPart.t) : bool :=
  match UrlPart.type p with
  | literal => true
  | param => false
  end.

(** Literal and parameter segments alternate: neighbours differ in type. *)
Fixpoint alternating (parts : list UrlPart.t) : bool :=
  match parts with
  | a :: (b :: _) as rest =>
      negb (Bool.eqb (isLiteral a) (isLiteral b)) && alternating rest
  | _ => true
  end.

(** No literal segment follows a literal segment. *)
Fixpoint noAdjacentLiterals (parts : list UrlPart.t) : bool :=
  match parts with
  | a :: (b :: _) as rest =>
      negb (isLiteral a && isLiteral b) && noAdjacentLiterals rest
  | _ => true
  end.

(** The last segment, if any, is a parameter. *)
Definition endsWithParam (parts : list UrlPart.t) : bool :=
  match rev parts with
  | [] => true
  | p :: _ => negb (isLiteral p)
  end.

(** A literal is not empty; a parameter is a non-empty word. *)
Definition wellFormedPart (p : UrlPart.t) : Prop :=
  UrlPart.value p <> EmptyString
  /\ (UrlPart.type p = param -> Js.isWordString (UrlPart.value p) = true).

(** The template has an occurrence of [{name}] for a word [name]. *)
Definition hasParameter (s : string) : Prop :=
  exists before name after,
    s = before ++ String "{"%char (name ++ String "}"%char after)
    /\ Js.isWordString name = true.

(** The string has no line terminator. *)
Fixpoint noLineTerminator (s : string) : bool :=
  match s with
  | EmptyString => true
  | String c rest => negb (Js.isLineTerminator c) && noLineTerminator rest
  end.

(** No literal segment holds a [{name}] occurrence. *)
Definition literalsSplit (parts : list UrlPart.t) : Prop :=
  Forall (fun p => UrlPart.type p = literal -> ~ hasParameter (UrlPart.value p))
    parts.

(** What one turn of the loop of the extractor pushes. *)
Definition pushed (start name : string) : list UrlPart.t :=
  Extractor.pushMatch [] start name.

(** The responses are exactly a [200] entry that is not a reference. *)
Definition exactly200 (responses : list (string * OrReference OpenAPIResponse.t))
  : Prop :=
  (exists response, Emitter.lookup "200" responses = Some (Plain response))
  /\ (forall code r, In (code, r) responses -> code = "200").

(** An operation identifier the emitters accept under a tag: a word, or the
    upper-camel name of the tag, a dot and a word. *)
Definition validOperationId (tag : Identifier) (operationId : string) : Prop :=
  Js.isWordString operationId = true
  \/ (exists word,
        operationId = upperCamel tag ++ "." ++ word
        /\ Js.isWordString (upperCamel tag) = true
        /\ Js.isWordString word = true).

(** The message of lines 369 and 618 of src/index.ts. *)
Definition operationIdError (tag : Identifier) (method : string) (url : Url.t)
  : exn :=
  Thrown ("Expected operation ID for " ++ method ++ " " ++ Url.original url
            ++ " to start with " ++ Emitter.quoted (upperCamel tag ++ ".")).

(** An operation that one of the emitters has accepted. *)
Definition accepted (tag : Identifier) (o : OperationExtended.t) : Prop :=
  exists operationId name,
    OpenAPIOperation.operationId (OperationExtended.operation o) = Some operationId
    /\ Emitter.methodName tag (OperationExtended.method o) (OperationExtended.url o)
         operationId = Ok name
    /\ exactly200 (OpenAPIOperation.responses (OperationExtended.operation o)).

(** The default import of a statement, when there is an alias. *)
Definition defaultImport (alias : option string) : list string :=
  if Js.truthy alias then ["default as " ++ Js.show alias] else [].

(** One import statement: the default import first, then the names. *)
Definition importStatement (file : string) (alias : option string)
    (names : list string) : string :=
  "import { " ++ Js.join ", " (app (defaultImport alias) names)
    ++ " } from " ++ Js.stringify file ++ ";".




(** Under the comparator, [x] comes strictly before [y]. *)
Definition before {A : Type} (cmp : A -> A -> Z) (x y : A) : Prop :=
  (cmp x y <= 0)%Z /\ (0 < cmp y x)%Z.




(** Two line feeds. *)
Definition blankLine : string := String Js.LF (Js.chr Js.LF).


(* ===================================================================== *)
(** ** Sample documents *)
(* ===================================================================== *)

Module Sample.

(** A comparator for the runs below: the order of the character codes. *)
Definition codeCompare (a b : string) : Z :=
  match String.compare a b with
  | Lt => (-1)%Z
  | Eq => 0%Z
  | Gt => 1%Z
  end.

(** [{ $ref: "#/components/schemas/<name>" }] *)
Definition reference (name : string) : Schema :=
  mkSchema ["$ref"] (Some ("#/components/schemas/" ++ name))
    None None None None None None None.

(** [{ type: "string" }] *)
Definition plainString : Schema :=
  mkSchema ["type"] None None (Some "string") None None None None None.


(** [{ type: "string", format: "binary" }] *)
Definition binaryString : Schema :=
  mkSchema ["type"; "format"] None None (Some "string") (Some "binary") None None
    None None.

(** [{ oneOf: [...] }] *)
Definition union (branches : list Schema) : Schema :=
  mkSchema ["oneOf"] None (Some branches) None None None None None None.

(** [{ type: "array", items }] *)
Definition array (item : Schema) : Schema :=
  mkSchema ["type"; "items"] None None (Some "array") None None None None
    (Some item).

(** [{ type: "object", additionalProperties }] *)
Definition map (value : Schema) : Schema :=
  mkSchema ["type"; "additionalProperties"] None None (Some "object") None None
    None (Some (inr value)) None.

Definition petsTag : Identifier := mkIdentifier "pets" "Pets" "Pets" "pets".

(** [responses: { 200: { description: "ok" } }]: no content. *)
Definition okWithoutContent : list (string * OrReference OpenAPIResponse.t) :=
  [("200", Plain (OpenAPIResponse.mk (Some "ok") None))].

(** [GET /ping] with the operation id [ping]. *)
Definition ping : OperationExtended.t :=
  OperationExtended.mk
    (OpenAPIOperation.mk TagsUndefined None None (Some "ping") None None
       okWithoutContent [])
    "GET" (Extractor.parseUrl "/ping").

(** [POST /ping] with the same operation id. *)
Definition pingAgain : OperationExtended.t :=
  OperationExtended.mk
    (OpenAPIOperation.mk TagsUndefined None None (Some "ping") None None
       okWithoutContent [])
    "POST" (Extractor.parseUrl "/ping").




(** [GET /ping] without any response. *)
Definition pingWithoutResponse : OperationExtended.t :=
  OperationExtended.mk
    (OpenAPIOperation.mk TagsUndefined None None (Some "ping") None None [] [])
    "GET" (Extractor.parseUrl "/ping").

(** [GET /ping] with the operation id [Store.ping]. *)
Definition pingOfStore : OperationExtended.t :=
  OperationExtended.mk
    (OpenAPIOperation.mk TagsUndefined None None (Some "Store.ping") None None
       okWithoutContent [])
    "GET" (Extractor.parseUrl "/ping").

(** [GET /pets] with the operation id [Pets.list]. *)
Definition listPets : OperationExtended.t :=
  OperationExtended.mk
    (OpenAPIOperation.mk TagsUndefined None None (Some "Pets.list") None None
       okWithoutContent [])
    "GET" (Extractor.parseUrl "/pets").

(** The imports of an API file, registered in one order ... *)
Definition registeredOneWay : Imports :=
  mkImports (Some api)
    [("express", mkEntry None ["Response"; "Express"]);
     ("../base-api", mkEntry None ["BaseApi"])].


End Sample.

(* ===================================================================== *)
(** ** The model writers and the driver (src/index.ts, lines 204-316 and
       812-872) *)
(* ===================================================================== *)

Module OpenAPIProperty.
(** A property of an object schema as [writeObjectModel] reads it: the
    schema that [getRuntimeType] resolves, and the value of its
    [description]. *)
Record t : Type := mk {
  schema : Schema;
  description : option string
}.
End OpenAPIProperty.

Module OpenAPIModel.
(** An entry of [components.schemas] as the driver and the model writers
    read it: [schema] answers [isReference] and [schema.type]; [enum] holds
    the JSON text of each value. *)
Record t : Type := mk {
  schema : Schema;
  description : option string;
  enum : option (list string);
  properties : option (list (string * OpenAPIProperty.t));
  required : option (list string)
}.
End OpenAPIModel.

(** [mode]: what the generator writes besides the models. *)
Inductive Mode : Type := ApiMode | ClientMode.

Module Driver.
Import ImportsImpl.
Import Emitter.

(** [enumValues.forEach((enumValue, i) => { if (i > 0) b.append(sep);
    b.append(JSON.stringify(enumValue)); })] *)
Definition appendValues (sep : string) (values : list string)
    (b : StringBuilder.t) : StringBuilder.t :=
  forEach (fun b value i =>
             let b := if (0 <? i)%nat then StringBuilder.append b sep else b in
             StringBuilder.append b value)
    values b.

(** Lines 204-232. *)
Definition writeEnumModel (enumName : string) (schema : OpenAPIModel.t)
  : result string :=
  match OpenAPIModel.enum schema with
  | None => Raise (Thrown ("Expected enum values in " ++ enumName))
  | Some enumValues =>
      let b := StringBuilder.empty in
      let b :=
        appendMarkdownAsComment b
          (map Some (splitLines (OpenAPIModel.description schema))) in
      let b := appends b ["export type "; enumName; " = "] in
      let b := appendValues " | " enumValues b in
      let b :=
        appends b
          [";" ++ nl ++ nl ++ "/** Array of "; enumName;
           " values. */" ++ nl ++ "export const values"; enumName;
           ": readonly "; enumName; "[] = ["] in
      let b := appendValues "," enumValues b in
      let b := StringBuilder.append b "];" in
      Ok (StringBuilder.toString EmptyString b)
  end.

Section WithEnums.
Variable enumTypes : list string.

(** The builders [propertyBuilder], [printBuilder] and [validateBuilder]. *)
Record ModelLocals : Type := mkModelLocals {
  propertyBuilder : StringBuilder.t;
  printBuilder : StringBuilder.t;
  validateBuilder : StringBuilder.t
}.

(** The body of the loop of [writeObjectModel] (lines 249-287). *)
Definition objectProperty (objectName : string) (required : option (list string))
    (l : ModelLocals) (entry : string * OpenAPIProperty.t) : M ModelLocals :=
  let property := fst entry in
  let propertySchema := snd entry in
  let isRequired :=
    match required with
    | Some names => Js.includes names property
    | None => false
    end in
  (t <- Emitter.getRuntimeType enumTypes (OpenAPIProperty.schema propertySchema)
          (objectName ++ "." ++ property) ;;
   let propertyBuilder :=
     if negb (isReference (OpenAPIProperty.schema propertySchema))
     then appendMarkdownAsComment (propertyBuilder l)
            (map Some (splitLines (OpenAPIProperty.description propertySchema)))
     else propertyBuilder l in
   (if isRequired then ret tt else addValidate "opt") ;;
   let propertyBuilder := appends propertyBuilder ["readonly "; property] in
   let propertyBuilder :=
     if isRequired then propertyBuilder
     else StringBuilder.append propertyBuilder "?" in
   let propertyBuilder := appends propertyBuilder [": "; typeName t; ";"] in
   let printBuilder := appends (printBuilder l) [property; ": "] in
   let printBuilder :=
     if isRequired then printBuilder else StringBuilder.append printBuilder "opt(" in
   printed <- toJson t ;;
   let printBuilder := StringBuilder.append printBuilder printed in
   let printBuilder :=
     if isRequired then printBuilder else StringBuilder.append printBuilder ")" in
   let printBuilder := StringBuilder.append printBuilder "," in
   let validateBuilder := appends (validateBuilder l) [property; ": "] in
   let validateBuilder :=
     if isRequired then validateBuilder
     else StringBuilder.append validateBuilder "opt(" in
   validated <- fromJson t ;;
   let validateBuilder := StringBuilder.append validateBuilder validated in
   let validateBuilder :=
     if isRequired then validateBuilder
     else StringBuilder.append validateBuilder ")" in
   let validateBuilder := StringBuilder.append validateBuilder "," in
   ret (mkModelLocals propertyBuilder printBuilder validateBuilder))%M.

(** [writeObjectModel] (lines 234-316) from [new Imports("model")] up to
    its last line: the builder [b] and the imports. *)
Definition writeObjectModelBuilder (objectName : string)
    (properties : list (string * OpenAPIProperty.t))
    (objectSchema : OpenAPIModel.t) : M StringBuilder.t :=
  (addValidate "testModelObject" ;;
   addValidate "printModelObject" ;;
   l <- Emitter.foldM (objectProperty objectName (OpenAPIModel.required objectSchema))
          properties
          (mkModelLocals StringBuilder.empty StringBuilder.empty StringBuilder.empty) ;;
   let b := StringBuilder.appendImports StringBuilder.empty in
   let b :=
     appendMarkdownAsComment b
       (map Some (splitLines (OpenAPIModel.description objectSchema))) in
   let b := appends b ["export type "; objectName; " = {"] in
   let b := StringBuilder.appendBuilder b (propertyBuilder l) in
   let b :=
     appends b
       ["};" ++ nl ++ nl ++ "/** Convert from "; objectName;
        " to JSON. */" ++ nl ++ "export const print"; objectName;
        " = printModelObject<"; objectName; ">("; Js.stringify objectName; ", {"] in
   let b := StringBuilder.appendBuilder b (printBuilder l) in
   let b :=
     appends b
       ["});" ++ nl ++ nl ++ "/** Convert from JSON to "; objectName;
        ". */" ++ nl ++ "export const test"; objectName;
        " = testModelObject<"; objectName; ">("; Js.stringify objectName; ", {"] in
   let b := StringBuilder.appendBuilder b (validateBuilder l) in
   ret (StringBuilder.append b "});"))%M.

Section WithLocale.
Variable localeCompare : string -> string -> Z.

Definition writeObjectModel (objectName : string) (objectSchema : OpenAPIModel.t)
  : result string :=
  match OpenAPIModel.properties objectSchema with
  | None => Raise (Thrown ("Expected properties in " ++ objectName))
  | Some properties =>
      Emitter.finish localeCompare (Some model)
        (writeObjectModelBuilder objectName properties objectSchema)
  end.

(** The body of the loop that writes the model files (lines 829-840):
    the name of the file under the model directory and its contents
    before formatting. *)
Definition writeModel (entry : string * OpenAPIModel.t) : result (string * string) :=
  let schema := snd entry in
  (ident <~ IdentifierImpl.fromCamel (fst entry) ;;
   contents <~
     (if RuntimeTypeImpl.strictEq (type (OpenAPIModel.schema schema)) "string"
      then writeEnumModel (upperCamel ident) schema
      else writeObjectModel (upperCamel ident) schema) ;;
   Ok (kebab ident ++ ".ts", contents))%result.

(** The body of the loop over the tags (lines 842-872): the identifier of
    the tag and the contents of its file before formatting. *)
Definition writeTag (mode : Mode) (entry : string * TagEntry.t)
  : result (Identifier * string) :=
  let tagName := fst entry in
  let tag := snd entry in
  match TagEntry.externalDocs tag with
  | Some docs =>
      Raise (Thrown ("Unexpected properties of tag " ++ tagName ++ ": "
                       ++ stringifyObject [("externalDocs", docs)]))
  | None =>
      if isNil (TagEntry.operations tag) then
        Raise (Thrown ("Tag " ++ tagName ++ " had no operations"))
      else
        (ident <~ IdentifierImpl.fromWords tagName ;;
         contents <~
           match mode with
           | ApiMode =>
               writeApi enumTypes localeCompare ident (TagEntry.description tag)
                 (TagEntry.operations tag)
           | ClientMode =>
               writeClient enumTypes localeCompare ident (TagEntry.description tag)
                 (TagEntry.operations tag)
           end ;;
         Ok (ident, contents))%result
  end.

End WithLocale.
End WithEnums.

(** [for (const x of l) { ... }] collecting what each turn writes. *)
Fixpoint forEachR {A B} (f : A -> result B) (l : list A) : result (list B) :=
  match l with
  | [] => Ok []
  | x :: l' => (y <~ f x ;; ys <~ forEachR f l' ;; Ok (y :: ys))%result
  end.

(** The body of the loop that classifies the schemas (lines 812-827); the
    state is [enumTypes] and [objectTypes]. *)
Definition classify (acc : list string * list string)
    (entry : string * OpenAPIModel.t) : result (list string * list string) :=
  let '(enumTypes, objectTypes) := acc in
  let schema := OpenAPIModel.schema (snd entry) in
  (ident <~ IdentifierImpl.fromCamel (fst entry) ;;
   if isReference schema then
     Raise (Thrown ("Schema " ++ upperCamel ident ++ " was a reference"))
   else if RuntimeTypeImpl.strictEq (type schema) "string" then
     Ok (push enumTypes (upperCamel ident), objectTypes)
   else if RuntimeTypeImpl.strictEq (type schema) "object" then
     Ok (enumTypes, push objectTypes (upperCamel ident))
   else
     Raise (Thrown ("Unexpected schema type: " ++ Js.show (type schema))))%result.

Definition classifySchemas (schemas : list (string * OpenAPIModel.t))
  : result (list string * list string) :=
  Extractor.foldM classify schemas ([], []).

Section Files.
Variable localeCompare : string -> string -> Z.

(** The loop over the schemas that writes the model files. *)
Definition writeModels (enumTypes : list string)
    (schemas : list (string * OpenAPIModel.t)) : result (list (string * string)) :=
  forEachR (writeModel enumTypes localeCompare) schemas.

Definition byName (a b : string * TagEntry.t) : Z :=
  localeCompare (fst a) (fst b).

(** The loop over the tags, in the order of their names. *)
Definition writeTags (enumTypes : list string) (mode : Mode)
    (operationsByTag : Extractor.ByTag) : result (list (Identifier * string)) :=
  forEachR (writeTag enumTypes localeCompare mode) (sort byName operationsByTag).

End Files.

End Driver.

(* ===================================================================== *)
(** ** Vocabulary of the further statements *)
(* ===================================================================== *)

(** The word in lower case with its first character in upper case. *)
Definition capitalWord (word : string) : string :=
  match Js.toLowerCase word with
  | EmptyString => EmptyString
  | String c rest => String (Js.upperChar c) rest
  end.

(** The four spellings of a list of words. *)
Definition identifierOf (words : list string) : Identifier :=
  {| lowerCamel :=
       match words with
       | [] => EmptyString
       | first :: rest =>
           Js.toLowerCase first ++ String.concat EmptyString (map capitalWord rest)
       end;
     upperCamel := String.concat EmptyString (map capitalWord words);
     display := Js.join " " words;
     kebab := Js.join "-" (map Js.toLowerCase words) |}.

(** [this.imports[file]], or the fresh entry [addGlobal] starts from. *)
Definition entryOf (file : string) (this : Imports) : ImportEntry :=
  match ImportsImpl.lookup file (imports this) with
  | Some i => i
  | None => mkEntry None []
  end.

(** An entry keeps what another holds: its alias, when it has one, and its
    names. *)
Definition entryKept (e e' : ImportEntry) : Prop :=
  (Js.truthy (def e) = true -> def e' = def e)
  /\ incl (named e) (named e').

(** The second import set holds all that the first holds. *)
Definition grows (a b : Imports) : Prop :=
  folder b = folder a
  /\ forall file e,
       ImportsImpl.lookup file (imports a) = Some e ->
       exists e', ImportsImpl.lookup file (imports b) = Some e' /\ entryKept e e'.

(** A computation that, when it returns, has only added imports. *)
Definition onlyAdds {A : Type} (m : M A) : Prop :=
  forall st a st', m st = Ok (a, st') -> grows st st'.

(** A descriptor whose three generators only add imports. *)
Definition descriptorOnlyAdds (t : RuntimeType) : Prop :=
  onlyAdds (fromJson t) /\ onlyAdds (fromJsonParam t) /\ onlyAdds (toJson t).

(** A resolution that, when it returns, has only added imports and yields
    a descriptor that only adds imports. *)
Definition wellBehaved (m : M RuntimeType) : Prop :=
  forall st t st', m st = Ok (t, st') -> grows st st' /\ descriptorOnlyAdds t.

(** The types [getRuntimeType] has a case for. *)
Definition knownTypes : list string :=
  ["string"; "boolean"; "integer"; "number"; "object"; "array"].

(** The message of line 464 of src/runtime-type.ts. *)
Definition unexpectedType (schema : Schema) (context : string) : exn :=
  Thrown ("Unexpected type '" ++ Js.show (type schema) ++ "' of '" ++ context ++ "'").

(** The message of line 190 of src/runtime-type.ts. *)
Definition malformedReference (schema : Schema) : exn :=
  Thrown ("Expected ref to be of form /^#\/components\/schemas\/(\w+)$/, but found: "
            ++ Js.show (ref schema)).

(** The keys of a schema besides [description] and [type]. *)
Definition otherKeys (schema : Schema) : list string :=
  RuntimeTypeImpl.delete "type" (RuntimeTypeImpl.delete "description" (keys schema)).

(** The keys that a schema of type [integer] or [number] must not have:
    those besides [description] and [type], and besides [format] when the
    format is [big]. *)
Definition numberKeys (schema : Schema) : list string :=
  if RuntimeTypeImpl.strictEq (format schema) "big"
  then RuntimeTypeImpl.delete "format" (otherKeys schema)
  else otherKeys schema.

(** A schema that is neither a reference nor a [oneOf], of the given type. *)
Definition plainOfType (schema : Schema) (t : string) : Prop :=
  isReference schema = false /\ oneOf schema = None /\ type schema = Some t.

(** The entries of a path item whose key, in upper case, is an HTTP method. *)
Definition methodEntries (entries : list (string * OpenAPIOperation.t))
  : list (string * OpenAPIOperation.t) :=
  filter (fun kv => Extractor.isHttpMethod (Js.toUpperCase (fst kv))) entries.

(** The paths with only the method entries of every path item. *)
Definition methodsOnly (paths : list (string * list (string * OpenAPIOperation.t)))
  : list (string * list (string * OpenAPIOperation.t)) :=
  map (fun path => (fst path, methodEntries (snd path))) paths.

(** What the extractor stores for the entry [key] of the path [urlString]. *)
Definition extended (urlString key : string) (op : OpenAPIOperation.t)
  : OperationExtended.t :=
  OperationExtended.mk (OpenAPIOperation.withoutTags op) (Js.toUpperCase key)
    (Extractor.parseUrl urlString).

(** The operation [o] stands under [tagName] for a method entry of [paths]
    that names this tag only. *)
Definition extractedFrom (paths : list (string * list (string * OpenAPIOperation.t)))
    (tagName : string) (o : OperationExtended.t) : Prop :=
  exists urlString entries key op,
    In (urlString, entries) paths
    /\ In (key, op) entries
    /\ Extractor.isHttpMethod (Js.toUpperCase key) = true
    /\ OpenAPIOperation.tags op = TagsArray [tagName]
    /\ o = extended urlString key op.

(** Every operation stored in [acc] stems from a method entry of [paths]. *)
Definition allExtracted (paths : list (string * list (string * OpenAPIOperation.t)))
    (acc : Extractor.ByTag) : Prop :=
  forall n e o, In (n, e) acc -> In o (TagEntry.operations e) ->
                extractedFrom paths n o.

(** The operation [o] stands under the tag [tagName] in [acc]. *)
Definition stored (acc : Extractor.ByTag) (tagName : string)
    (o : OperationExtended.t) : Prop :=
  exists entry,
    Extractor.lookup tagName acc = Some entry
    /\ In o (TagEntry.operations entry).

(** A comment line that is [undefined] or empty. *)
Definition blank (line : option string) : Prop := Js.truthy line = false.

(** The lines of a comment once the empty ones at both ends are gone. *)
Definition trimmedLines (lines : list (option string)) : list (option string) :=
  Emitter.shiftEmpty (Emitter.popEmpty lines).

(** The body of [lines.forEach] in [appendMarkdownAsComment] (lines
    185-197): the builder and [lastEmpty]. *)
Definition commentLine (st : StringBuilder.t * bool) (x : option string)
  : StringBuilder.t * bool :=
  let '(b, lastEmpty) := st in
  if Js.truthy x then (Emitter.appends b [" * "; Js.show x; Emitter.nl], false)
  else ((if lastEmpty then b else StringBuilder.append b (" *" ++ Emitter.nl)),
        true).

(** The schema of the [application/json] entry of a content map. *)
Definition jsonSchema (content : option (list (string * OpenAPIMediaType.t)))
  : option Schema :=
  match content with
  | Some content =>
      match Emitter.lookup "application/json" content with
      | Some media => OpenAPIMediaType.schema media
      | None => None
      end
  | None => None
  end.

(** A request body the emitters accept: none, or an inline body that is
    required when it has a JSON schema. *)
Definition bodyAccepted (requestBody : option (OrReference OpenAPIRequestBody.t))
  : Prop :=
  match requestBody with
  | None => True
  | Some (Reference _) => False
  | Some (Plain body) =>
      jsonSchema (OpenAPIRequestBody.content body) <> None ->
      OpenAPIRequestBody.required body = Some true
  end.

(** [parameters || []] of an operation. *)
Definition parametersOf (o : OperationExtended.t)
  : list (OrReference OpenAPIParameter.t) :=
  match OpenAPIOperation.parameters (OperationExtended.operation o) with
  | Some parameters => parameters
  | None => []
  end.

(** The operation identifier as the emitters read it. *)
Definition idOf (o : OperationExtended.t) : string :=
  Js.show (OpenAPIOperation.operationId (OperationExtended.operation o)).

(** The context under which the schema of a parameter is resolved. *)
Definition parameterContext (operationId : string) (parameter : OpenAPIParameter.t)
  : string :=
  operationId ++ "." ++ OpenAPIParameter.in_ parameter ++ "."
    ++ OpenAPIParameter.name parameter.

(** A parameter [writeApi] accepts: inline, with a schema that resolves to
    a descriptor whose [fromJsonParam] returns. *)
Definition apiParameterAccepted (enumTypes : list string) (operationId : string)
    (p : OrReference OpenAPIParameter.t) : Prop :=
  exists parameter schema t,
    p = Plain parameter
    /\ OpenAPIParameter.schema parameter = Some schema
    /\ (exists st st',
          RuntimeTypeImpl.getRuntimeType enumTypes schema
            (parameterContext operationId parameter) st = Ok (t, st'))
    /\ (exists st expression st', fromJsonParam t st = Ok (expression, st')).

(** A parameter [writeClient] accepts: inline, in the path or the query,
    with a schema that resolves. *)
Definition clientParameterAccepted (enumTypes : list string) (operationId : string)
    (p : OrReference OpenAPIParameter.t) : Prop :=
  exists parameter schema t,
    p = Plain parameter
    /\ (OpenAPIParameter.in_ parameter = "path"
        \/ OpenAPIParameter.in_ parameter = "query")
    /\ OpenAPIParameter.schema parameter = Some schema
    /\ (exists st st',
          RuntimeTypeImpl.getRuntimeType enumTypes schema
            (parameterContext operationId parameter) st = Ok (t, st')).

(** The schema is a reference to a schema classified as a string enum. *)
Definition enumReference (enumTypes : list string) (schema : Schema) : Prop :=
  exists name ident,
    ref schema = Some ("#/components/schemas/" ++ name)
    /\ IdentifierImpl.fromCamel name = Ok ident
    /\ Js.includes enumTypes (upperCamel ident) = true.

(** A schema of [schemas] with the given type whose name, through
    [fromCamel], is [name] in upper camel case. *)
Definition namedAs (schemas : list (string * OpenAPIModel.t)) (t name : string)
  : Prop :=
  exists rawName schema ident,
    In (rawName, schema) schemas
    /\ IdentifierImpl.fromCamel rawName = Ok ident
    /\ type (OpenAPIModel.schema schema) = Some t
    /\ name = upperCamel ident.

(** A schema the driver classifies: inline, of type [string] or [object]. *)
Definition classifiable (entry : string * OpenAPIModel.t) : Prop :=
  isReference (OpenAPIModel.schema (snd entry)) = false
  /\ (type (OpenAPIModel.schema (snd entry)) = Some "string"
      \/ type (OpenAPIModel.schema (snd entry)) = Some "object").

(** The text of the comment [appendMarkdownAsComment] writes for a
    description. *)
Definition commentOf (description : option string) : string :=
  StringBuilder.toString EmptyString
    (Emitter.appendMarkdownAsComment StringBuilder.empty
       (map Some (Emitter.splitLines description))).

(** The file [writeEnumModel] writes for the values of an enum. *)
Definition enumModelText (enumName : string) (description : option string)
    (values : list string) : string :=
  commentOf description
    ++ "export type " ++ enumName ++ " = " ++ Js.join " | " values ++ ";"
    ++ Emitter.nl ++ Emitter.nl
    ++ "/** Array of " ++ enumName ++ " values. */" ++ Emitter.nl
    ++ "export const values" ++ enumName ++ ": readonly " ++ enumName
    ++ "[] = [" ++ Js.join "," values ++ "];".

(** A property [writeObjectModel] accepts: its schema resolves under the
    name of the object and of the property, and the descriptor generates
    both of its JSON conversions. *)
Definition propertyAccepted (enumTypes : list string) (objectName : string)
    (entry : string * OpenAPIProperty.t) : Prop :=
  exists t,
    (exists st st',
       RuntimeTypeImpl.getRuntimeType enumTypes
         (OpenAPIProperty.schema (snd entry))
         (objectName ++ "." ++ fst entry) st = Ok (t, st'))
    /\ (exists st expression st', toJson t st = Ok (expression, st'))
    /\ (exists st expression st', fromJson t st = Ok (expression, st')).

(** A tag the driver writes a file for. *)
Definition tagAccepted (entry : string * TagEntry.t) : Prop :=
  TagEntry.externalDocs (snd entry) = None
  /\ TagEntry.operations (snd entry) <> []
  /\ Js.trim (fst entry) <> EmptyString.

(** A schema the driver writes a model file for. *)
Definition modelAccepted (entry : string * OpenAPIModel.t) : Prop :=
  (type (OpenAPIModel.schema (snd entry)) = Some "string" ->
   OpenAPIModel.enum (snd entry) <> None)
  /\ (type (OpenAPIModel.schema (snd entry)) <> Some "string" ->
      OpenAPIModel.properties (snd entry) <> None).

(* ===================================================================== *)
(** ** Further sample documents *)
(* ===================================================================== *)

Module Cases.

(** [{ type: "string", format: "date" }] *)
Definition date : Schema :=
  mkSchema ["type"; "format"] None None (Some "string") (Some "date") None None
    None None.

(** [{ type: "integer", format: "int32" }] *)
Definition int32 : Schema :=
  mkSchema ["type"; "format"] None None (Some "integer") (Some "int32") None None
    None None.

(** [{ description: "anything" }] *)
Definition untyped : Schema :=
  mkSchema ["description"] None None None None None None None None.

(** [{ $ref: "#/components/schemas/Pet", description: "a pet" }] *)
Definition describedReference : Schema :=
  mkSchema ["$ref"; "description"] (Some "#/components/schemas/Pet")
    None None None None None None None.

(** [{ $ref: "#/definitions/Pet" }] *)
Definition foreignReference : Schema :=
  mkSchema ["$ref"] (Some "#/definitions/Pet") None None None None None None None.




(** An import set of a model file that already names [luxon]. *)
Definition withLuxon : Imports :=
  mkImports (Some model) [("luxon", mkEntry None ["Settings"])].

End Cases.

Module Paths.

(** [GET /pets] and [POST /pets] under the tag [Pets], next to a
    [parameters] key of the path item. *)
Definition listOperation : OpenAPIOperation.t :=
  OpenAPIOperation.mk (TagsArray ["Pets"]) None None (Some "listPets") None None
    Sample.okWithoutContent [].

Definition pets : list (string * list (string * OpenAPIOperation.t)) :=
  [("/pets",
    [("parameters", OpenAPIOperation.mk TagsUndefined None None None None None [] []);
     ("get", listOperation)])].

(** The declared tags [Store] and [Pets], in this order. *)
Definition declared : list OpenAPITag.t :=
  [OpenAPITag.mk "Store" (Some "The store.") None;
   OpenAPITag.mk "Pets" None None].

End Paths.

Module Operations.

(** [GET /pets/{petId}] whose path parameter is a reference to [PetId]. *)
Definition petIdParameter : OpenAPIParameter.t :=
  OpenAPIParameter.mk "petId" "path" (Some true) None
    (Some (Sample.reference "PetId")).

Definition getPet : OperationExtended.t :=
  OperationExtended.mk
    (OpenAPIOperation.mk TagsUndefined None None (Some "getPet")
       (Some [Plain petIdParameter]) None Sample.okWithoutContent [])
    "GET" (Extractor.parseUrl "/pets/{petId}").

(** [POST /pets] with an optional JSON body. *)
Definition optionalBody : OpenAPIRequestBody.t :=
  OpenAPIRequestBody.mk None
    (Some [("application/json", OpenAPIMediaType.mk (Some Sample.plainString))])
    None.

(** [POST /pets] with a required JSON body. *)
Definition requiredBody : OpenAPIRequestBody.t :=
  OpenAPIRequestBody.mk None
    (Some [("application/json", OpenAPIMediaType.mk (Some Sample.plainString))])
    (Some true).

Definition addPetOptionally : OperationExtended.t :=
  OperationExtended.mk
    (OpenAPIOperation.mk TagsUndefined None None (Some "addPet") None
       (Some (Plain optionalBody)) Sample.okWithoutContent [])
    "POST" (Extractor.parseUrl "/pets").

Definition addPet : OperationExtended.t :=
  OperationExtended.mk
    (OpenAPIOperation.mk TagsUndefined None None (Some "addPet") None
       (Some (Plain requiredBody)) Sample.okWithoutContent [])
    "POST" (Extractor.parseUrl "/pets").

End Operations.

Module Models.

(** [Status: { type: string, enum: [available, sold] }] *)
Definition status : OpenAPIModel.t :=
  OpenAPIModel.mk Sample.plainString None
    (Some [Emitter.quoted "available"; Emitter.quoted "sold"]) None None.

(** [Email: { type: string }], without values. *)
Definition email : OpenAPIModel.t :=
  OpenAPIModel.mk Sample.plainString None None None None.

(** [Pet: { type: object, properties: { name: { type: string } },
    required: [name] }] *)
Definition pet : OpenAPIModel.t :=
  OpenAPIModel.mk
    (mkSchema ["type"; "properties"; "required"] None None (Some "object") None
       None None None None)
    None None
    (Some [("name", OpenAPIProperty.mk Sample.plainString None)])
    (Some ["name"]).

(** [Tags: { type: array, items: { type: string } }] *)
Definition tags : OpenAPIModel.t :=
  OpenAPIModel.mk (Sample.array Sample.plainString) None None None None.

End Models.

(* ===================================================================== *)
(** * Properties *)
(* ===================================================================== *)

(** ** Running computations *)

Lemma bind_Ok {A B} (m : M A) (k : A -> M B) (st : Imports) (r : B * Imports) :
  bind m k st = Ok r ->
  exists a st', m st = Ok (a, st') /\ k a st' = Ok r.
Proof.
  unfold bind. destruct (m st) as [[a st']|e]; [|discriminate].
  intros H. exists a, st'. split; [reflexivity|exact H].
Qed.

Lemma bind_Raise {A B} (m : M A) (k : A -> M B) (st : Imports) (e : exn) :
  m st = Raise e -> bind m k st = Raise e.
Proof. unfold bind. intros ->. reflexivity. Qed.

Lemma bind_step {A B} (m : M A) (k : A -> M B) (st st' : Imports) (a : A) :
  m st = Ok (a, st') -> bind m k st = k a st'.
Proof. unfold bind. intros ->. reflexivity. Qed.

Lemma lift_Ok {A} (r : result A) (st : Imports) (a : A) (st' : Imports) :
  lift r st = Ok (a, st') -> r = Ok a /\ st' = st.
Proof. unfold lift. destruct r; [intros [= <- <-]; auto | discriminate]. Qed.

(** Breaks an equation [bind m k st = Ok r] into its two runs. *)
Tactic Notation "invert_bind" hyp(H) "as" ident(a) ident(st) ident(Hm) ident(Hk) :=
  apply bind_Ok in H; destruct H as (a & st & Hm & Hk).

(** ** Identifier *)

Example fromCamel_userProfile :
  IdentifierImpl.fromCamel "userProfile"
  = Ok (mkIdentifier "userProfile" "UserProfile" "user Profile" "user-profile").
Proof. reflexivity. Qed.

Lemma isWord_not_space (c : ascii) : Js.isWord c = true -> Js.isSpace c = false.
Proof.
  destruct c as [[] [] [] [] [] [] [] []]; vm_compute; intros H;
    try reflexivity; discriminate H.
Qed.

Lemma trimEnd_word (s : string) : Js.allWord s = true -> Js.trimEnd s = s.
Proof.
  induction s as [|c s IH]; simpl; [reflexivity|].
  intros H. apply andb_true_iff in H as [Hc Hs].
  rewrite (IH Hs). destruct s as [|d s]; [|reflexivity].
  rewrite (isWord_not_space _ Hc). reflexivity.
Qed.

Lemma trim_word (s : string) : Js.allWord s = true -> Js.trim s = s.
Proof.
  intros H. unfold Js.trim.
  destruct s as [|c s]; [reflexivity|].
  pose proof H as H'. simpl in H'. apply andb_true_iff in H' as [Hc _].
  simpl Js.trimStart. rewrite (isWord_not_space _ Hc).
  apply trimEnd_word. exact H.
Qed.

Lemma splitHumpsFrom_nonempty (c : ascii) (rest : string) :
  Forall (fun w => w <> EmptyString) (Js.splitHumpsFrom c rest).
Proof.
  revert c. induction rest as [|d rest IH]; intros c; simpl.
  - constructor; [discriminate|constructor].
  - specialize (IH d).
    destruct (negb (Js.isUpper c) && Js.isUpper d).
    + constructor; [discriminate|exact IH].
    + destruct (Js.splitHumpsFrom d rest) as [|w ws].
      * constructor; [discriminate|constructor].
      * inversion IH; subst. constructor; [discriminate|assumption].
Qed.

Lemma forEachWord_ok (words : list string) (i : nat) (acc : Identifier) :
  Forall (fun w => w <> EmptyString) words ->
  exists ident, IdentifierImpl.forEachWord words i acc = Ok ident.
Proof.
  revert i acc. induction words as [|w words IH]; intros i acc H; simpl.
  - exists acc. reflexivity.
  - inversion H as [|w' ws Hw Hws]; subst.
    destruct w as [|c w]; [congruence|].
    unfold IdentifierImpl.addWord. simpl. apply IH. exact Hws.
Qed.

(** [fromCamel] returns an identifier for every name that is a word. *)
Lemma fromCamel_word (name : string) :
  Js.isWordString name = true ->
  exists ident, IdentifierImpl.fromCamel name = Ok ident.
Proof.
  intros W. unfold IdentifierImpl.fromCamel, IdentifierImpl.construct.
  destruct name as [|c name]; [discriminate|].
  rewrite (trim_word _ W). apply forEachWord_ok.
  apply splitHumpsFrom_nonempty.
Qed.

(** ** Imports *)

Example addLocal_from_api :
  (ImportsImpl.addLocal (Some model) "pet" "Pet" false ;;
   ImportsImpl.addValidate "testString")%M (mkImports (Some api) [])
  = Ok (tt, mkImports (Some api)
              [("../model/pet", mkEntry None ["Pet"]);
               ("../type-utils", mkEntry None ["testString"])]).
Proof. reflexivity. Qed.

(** A named import is always accepted. *)
Lemma addGlobal_named (file name : string) (this : Imports) :
  exists st, ImportsImpl.addGlobal file name false this = Ok (tt, st).
Proof. unfold ImportsImpl.addGlobal. simpl. eexists. reflexivity. Qed.

Lemma addLocal_named (target : ImportFolder) (file name : string) (this : Imports) :
  exists st, ImportsImpl.addLocal target file name false this = Ok (tt, st).
Proof. unfold ImportsImpl.addLocal. apply addGlobal_named. Qed.

Lemma addValidate_ok (name : string) (this : Imports) :
  exists st, ImportsImpl.addValidate name this = Ok (tt, st).
Proof. unfold ImportsImpl.addValidate. apply addLocal_named. Qed.

Lemma store_keys (file : string) (e : ImportEntry)
    (l : list (string * ImportEntry)) (k : string) :
  In k (List.map fst (ImportsImpl.store file e l))
  <-> k = file \/ In k (List.map fst l).
Proof.
  induction l as [|[f e'] l IH]; simpl.
  - intuition congruence.
  - destruct (String.eqb_spec f file) as [->|Hne]; simpl.
    + intuition congruence.
    + rewrite IH. intuition congruence.
Qed.

Lemma store_keys_distinct (file : string) (e : ImportEntry)
    (l : list (string * ImportEntry)) :
  NoDup (List.map fst l) ->
  NoDup (List.map fst (ImportsImpl.store file e l)).
Proof.
  induction l as [|[f e'] l IH]; simpl; intros Hnd.
  - constructor; [intros []|constructor].
  - inversion Hnd as [|k ks Hnot Hl]; subst.
    destruct (String.eqb_spec f file) as [->|Hne]; simpl.
    + constructor; assumption.
    + constructor; [|apply IH; exact Hl].
      rewrite store_keys. intros [Hf|Hin]; [congruence|contradiction].
Qed.

(** Registering keeps the module paths of an import set distinct. *)
Lemma addGlobal_keys_distinct (file name : string) (isDefault : bool)
    (this st : Imports) :
  NoDup (List.map fst (imports this)) ->
  ImportsImpl.addGlobal file name isDefault this = Ok (tt, st) ->
  NoDup (List.map fst (imports st)).
Proof.
  intros Hnd H. unfold ImportsImpl.addGlobal in H.
  destruct isDefault; simpl in H.
  - destruct (Js.truthy _).
    + destruct (negb _); [discriminate|].
      injection H as <-. apply store_keys_distinct, Hnd.
    + injection H as <-. apply store_keys_distinct, Hnd.
  - injection H as <-. apply store_keys_distinct, Hnd.
Qed.

Lemma folderEqb_eq (a b : ImportFolder) : folderEqb a b = true <-> a = b.
Proof.
  destruct a as [[]|], b as [[]|]; simpl; split; intros H;
    try reflexivity; try discriminate.
Qed.

(** C7: [addLocal] registers, through [addGlobal], the module path given by
    the four-way rule: [./file] when the target folder is the folder of the
    import set, [../file] when the target is the root, [./target/file] when
    the import set is at the root, [../target/file] otherwise. *)
Theorem addLocal_four_way_rule :
  forall (this : Imports) (target : ImportFolder) (file name : string)
         (isDefault : bool),
    (target = folder this ->
     ImportsImpl.addLocal target file name isDefault this
     = ImportsImpl.addGlobal ("./" ++ file) name isDefault this)
    /\ (target = None -> folder this <> None ->
        ImportsImpl.addLocal target file name isDefault this
        = ImportsImpl.addGlobal ("../" ++ file) name isDefault this)
    /\ (forall t, target = Some t -> folder this = None ->
        ImportsImpl.addLocal target file name isDefault this
        = ImportsImpl.addGlobal ("./" ++ folderName t ++ "/" ++ file) name
            isDefault this)
    /\ (forall t f, target = Some t -> folder this = Some f -> t <> f ->
        ImportsImpl.addLocal target file name isDefault this
        = ImportsImpl.addGlobal ("../" ++ folderName t ++ "/" ++ file) name
            isDefault this).
Proof.
  intros this target file name isDefault.
  unfold ImportsImpl.addLocal, ImportsImpl.relative.
  repeat split.
  - intros ->. rewrite (proj2 (folderEqb_eq _ _) eq_refl). reflexivity.
  - intros -> Hself. destruct (folder this) as [f|]; [|congruence].
    reflexivity.
  - intros t -> Hself. rewrite Hself. destruct t; reflexivity.
  - intros t f -> Hself Hne. rewrite Hself.
    destruct t, f; try congruence; reflexivity.
Qed.

Lemma addLocal_four_way_rule_witness :
  ImportsImpl.addLocal (Some api) "pet-api" "PetApi" false (mkImports (Some api) [])
  = ImportsImpl.addGlobal "./pet-api" "PetApi" false (mkImports (Some api) [])
  /\ ImportsImpl.addLocal None "type-utils" "testString" false (mkImports (Some api) [])
     = ImportsImpl.addGlobal "../type-utils" "testString" false (mkImports (Some api) [])
  /\ ImportsImpl.addLocal (Some model) "pet" "Pet" false (mkImports None [])
     = ImportsImpl.addGlobal "./model/pet" "Pet" false (mkImports None [])
  /\ ImportsImpl.addLocal (Some model) "pet" "Pet" false (mkImports (Some api) [])
     = ImportsImpl.addGlobal "../model/pet" "Pet" false (mkImports (Some api) []).
Proof.
  split; [|split; [|split]].
  - apply (proj1 (addLocal_four_way_rule (mkImports (Some api) []) (Some api)
                    "pet-api" "PetApi" false)).
    reflexivity.
  - apply (proj1 (proj2 (addLocal_four_way_rule (mkImports (Some api) []) None
                           "type-utils" "testString" false)));
      [reflexivity | discriminate].
  - apply (proj1 (proj2 (proj2 (addLocal_four_way_rule (mkImports None [])
                                  (Some model) "pet" "Pet" false))) model);
      reflexivity.
  - apply (proj2 (proj2 (proj2 (addLocal_four_way_rule (mkImports (Some api) [])
                                  (Some model) "pet" "Pet" false))) model api);
      [reflexivity | reflexivity | discriminate].
Defined.

(** ** The runtime type resolver *)

Section ResolverFacts.
Import RuntimeTypeImpl.
Variable enumTypes : list string.

Lemma getRuntimeType_unfold (schema : Schema) (context : string) :
  getRuntimeType enumTypes schema context
  = getRuntimeTypeBody enumTypes (getRuntimeType enumTypes) schema context.
Proof. destruct schema; reflexivity. Qed.

(** What [getRuntimeType] returns for a reference is the descriptor built
    by lines 195-228 for the identifier of the referenced name. *)
Lemma reference_descriptor (schema : Schema) (context : string)
    (st st' : Imports) (d : RuntimeType) :
  isReference schema = true ->
  getRuntimeType enumTypes schema context st = Ok (d, st') ->
  exists name ident,
    execRef (Js.show (ref schema)) = Some name
    /\ IdentifierImpl.fromCamel name = Ok ident
    /\ d = referenceType enumTypes ident context.
Proof.
  intros Href. rewrite getRuntimeType_unfold. unfold getRuntimeTypeBody.
  rewrite Href.
  destruct (size (delete "$ref" (keys schema))); [discriminate|].
  destruct (execRef (Js.show (ref schema))) as [name|]; [|discriminate].
  intros H. invert_bind H as ident st1 Hm Hk.
  apply lift_Ok in Hm as [Hident ->].
  invert_bind Hk as u st2 Hadd Hret. unfold ret in Hret. injection Hret as <- _.
  exists name, ident. auto.
Qed.

Lemma referenceType_typeName (ident : Identifier) (context : string) :
  typeName (referenceType enumTypes ident context) = upperCamel ident.
Proof. unfold referenceType. destruct (Js.includes _ _); reflexivity. Qed.

Lemma stripPrefix_app (prefix s : string) :
  stripPrefix prefix (prefix ++ s) = Some s.
Proof.
  induction prefix as [|c prefix IH]; simpl; [reflexivity|].
  rewrite Ascii.eqb_refl. exact IH.
Qed.

Lemma execRef_word (name : string) :
  Js.isWordString name = true ->
  execRef ("#/components/schemas/" ++ name) = Some name.
Proof.
  intros W. unfold execRef. rewrite stripPrefix_app, W. reflexivity.
Qed.

(** A reference with no other key and a pointer to a word resolves to the
    descriptor of that name. *)
Lemma reference_resolves (schema : Schema) (context name : string)
    (st : Imports) :
  isReference schema = true ->
  delete "$ref" (keys schema) = [] ->
  ref schema = Some ("#/components/schemas/" ++ name) ->
  Js.isWordString name = true ->
  exists ident st',
    IdentifierImpl.fromCamel name = Ok ident
    /\ getRuntimeType enumTypes schema context st
       = Ok (referenceType enumTypes ident context, st').
Proof.
  intros Href Hkeys Hptr W.
  destruct (fromCamel_word name W) as (ident & Hident).
  destruct (addLocal_named (Some model) (kebab ident) (upperCamel ident) st)
    as (st' & Hadd).
  exists ident, st'. split; [exact Hident|].
  rewrite getRuntimeType_unfold. unfold getRuntimeTypeBody.
  rewrite Href, Hkeys, Hptr.
  change (Js.show (Some ("#/components/schemas/" ++ name)))
    with ("#/components/schemas/" ++ name).
  rewrite (execRef_word name W).
  cbv beta iota delta [size].
  unfold lift, bind. rewrite Hident, Hadd. reflexivity.
Qed.

(** C1 (amended): for a reference to a schema that is not classified as a
    string enum, invoking [fromJsonParam] of the returned descriptor throws
    [Unexpected reference parameter '<context>']; for a reference to a
    string enum, [fromJsonParam] is the function [fromJson] and returns the
    [testOneOf(values<Name>)] check. *)
Theorem reference_fromJsonParam :
  forall (schema : Schema) (context : string) (st st' : Imports)
         (d : RuntimeType),
    isReference schema = true ->
    getRuntimeType enumTypes schema context st = Ok (d, st') ->
    (Js.includes enumTypes (typeName d) = false ->
     forall st2,
       fromJsonParam d st2
       = Raise (Thrown ("Unexpected reference parameter '" ++ context ++ "'")))
    /\ (Js.includes enumTypes (typeName d) = true ->
        fromJsonParam d = fromJson d
        /\ forall st2, exists st3,
             fromJsonParam d st2
             = Ok ("testOneOf(values" ++ typeName d ++ ")", st3)).
Proof.
  intros schema context st st' d Href Hd.
  destruct (reference_descriptor _ _ _ _ _ Href Hd) as (name & ident & _ & _ & ->).
  rewrite referenceType_typeName. unfold referenceType.
  split; intros Henum; rewrite Henum; simpl.
  - intros st2. reflexivity.
  - split; [reflexivity|]. intros st2.
    destruct (addValidate_ok "testOneOf" st2) as (s1 & E1).
    rewrite (bind_step _ _ _ _ _ E1).
    destruct (addLocal_named (Some model) (kebab ident)
                ("values" ++ upperCamel ident) s1) as (s2 & E2).
    rewrite (bind_step _ _ _ _ _ E2).
    exists s2. reflexivity.
Qed.

(** C6: for a reference to a string enum, [fromJson] and [toJson] are the
    same function, and both return the expression
    [testOneOf(values<Name>)]. *)
Theorem enum_reference_symmetric :
  forall (schema : Schema) (context : string) (st st' : Imports)
         (d : RuntimeType),
    isReference schema = true ->
    getRuntimeType enumTypes schema context st = Ok (d, st') ->
    Js.includes enumTypes (typeName d) = true ->
    toJson d = fromJson d
    /\ forall st2, exists st3,
         fromJson d st2 = Ok ("testOneOf(values" ++ typeName d ++ ")", st3)
         /\ toJson d st2 = Ok ("testOneOf(values" ++ typeName d ++ ")", st3).
Proof.
  intros schema context st st' d Href Hd Henum.
  destruct (reference_descriptor _ _ _ _ _ Href Hd) as (name & ident & _ & _ & ->).
  rewrite referenceType_typeName in *. unfold referenceType.
  rewrite Henum; simpl.
  split; [reflexivity|]. intros st2.
  destruct (addValidate_ok "testOneOf" st2) as (s1 & E1).
  rewrite (bind_step _ _ _ _ _ E1).
  destruct (addLocal_named (Some model) (kebab ident)
              ("values" ++ upperCamel ident) s1) as (s2 & E2).
  rewrite (bind_step _ _ _ _ _ E2).
  exists s2. split; reflexivity.
Qed.




Lemma mapMFrom_cons {A B} (f : A -> nat -> M B) (x : A) (l : list A) (i : nat) :
  mapMFrom f (x :: l) i
  = (y <- f x i ;; ys <- mapMFrom f l (S i) ;; ret (y :: ys))%M.
Proof. reflexivity. Qed.

Lemma mapMFrom_ext {A B} (f g : A -> nat -> M B) (l : list A) (i : nat) :
  (forall k x, nth_error l k = Some x -> f x (i + k) = g x (i + k)) ->
  mapMFrom f l i = mapMFrom g l i.
Proof.
  revert i. induction l as [|x l IH]; intros i H; [reflexivity|].
  rewrite !mapMFrom_cons.
  pose proof (H 0 x eq_refl) as H0. rewrite Nat.add_0_r in H0. rewrite H0.
  rewrite (IH (S i)); [reflexivity|].
  intros k y Hk. specialize (H (S k) y Hk).
  rewrite Nat.add_succ_r in H. exact H.
Qed.

Lemma body_calls_children (self1 self2 : Schema -> string -> M RuntimeType)
    (schema : Schema) (context : string) :
  (forall p c, child schema p = Some c ->
     self1 c (context ++ segment p) = self2 c (context ++ segment p)) ->
  getRuntimeTypeBody enumTypes self1 schema context
  = getRuntimeTypeBody enumTypes self2 schema context.
Proof.
  intros H. unfold getRuntimeTypeBody.
  destruct (isReference schema); [reflexivity|].
  destruct (oneOf schema) as [branches|] eqn:Hone.
  - destruct (size (delete "oneOf" (keys schema))); [reflexivity|].
    rewrite (mapMFrom_ext
               (fun s i => self1 s (context ++ ".oneOf[" ++ Js.indexToString i ++ "]"))
               (fun s i => self2 s (context ++ ".oneOf[" ++ Js.indexToString i ++ "]"))
               branches 0); [reflexivity|].
    intros k x Hk. simpl. apply (H (Branch k)). simpl. rewrite Hone. exact Hk.
  - destruct (strictEq (type schema) "string"); [reflexivity|].
    destruct (strictEq (type schema) "boolean"); [reflexivity|].
    destruct (strictEq (type schema) "integer" || strictEq (type schema) "number");
      [reflexivity|].
    destruct (strictEq (type schema) "object").
    + destruct (size _); [reflexivity|].
      destruct (additionalProperties schema) as [[b|value]|] eqn:Hadd;
        try reflexivity.
      assert (E : child schema AdditionalProperties = Some value)
        by (simpl; rewrite Hadd; reflexivity).
      apply H in E. change (segment AdditionalProperties)
        with ".additionalProperties" in E.
      rewrite E. reflexivity.
    + destruct (strictEq (type schema) "array"); [|reflexivity].
      destruct (size _); [reflexivity|].
      destruct (items schema) as [item|] eqn:Hitems; [|reflexivity].
      assert (E : child schema Items = Some item) by exact Hitems.
      apply H in E. change (segment Items) with ".items" in E.
      rewrite E. reflexivity.
Qed.

Lemma unfoldResolver_fix (n : nat) (schema : Schema) (context : string) :
  unfoldResolver enumTypes n (getRuntimeType enumTypes) schema context
  = getRuntimeType enumTypes schema context.
Proof.
  revert schema context. induction n as [|n IH]; intros schema context.
  - reflexivity.
  - rewrite getRuntimeType_unfold. simpl.
    apply body_calls_children. intros p c _. apply IH.
Qed.


End ResolverFacts.

(** *** Runs of the resolver *)

Example resolve_string :
  exists d,
    RuntimeTypeImpl.getRuntimeType [] Sample.plainString "Pet.name"
      (mkImports (Some model) [])
    = Ok (d, mkImports (Some model) [])
    /\ typeName d = "string"
    /\ fromJson d (mkImports (Some model) [])
       = Ok ("testString",
             mkImports (Some model) [("../type-utils", mkEntry None ["testString"])]).
Proof. eexists. split; [vm_compute; reflexivity | split; reflexivity]. Qed.

(** An error three levels down names the whole path. *)
Example nested_error_names_path :
  RuntimeTypeImpl.getRuntimeType []
    (Sample.array
       (Sample.map (Sample.union [Sample.plainString; Sample.binaryString])))
    "Widget.tags" (mkImports (Some model) [])
  = Raise (Thrown
      "Unexpected string format 'binary' of 'Widget.tags.items.additionalProperties.oneOf[1]'").
Proof. reflexivity. Qed.

Lemma reference_fromJsonParam_witness :
  fromJsonParam
    (RuntimeTypeImpl.referenceType ["Status"]
       (mkIdentifier "pet" "Pet" "Pet" "pet") "getPet.query.pet")
    (mkImports (Some api) [])
  = Raise (Thrown "Unexpected reference parameter 'getPet.query.pet'").
Proof.
  apply (proj1 (reference_fromJsonParam ["Status"] (Sample.reference "Pet")
                  "getPet.query.pet" (mkImports (Some api) [])
                  (mkImports (Some api) [("../model/pet", mkEntry None ["Pet"])])
                  (RuntimeTypeImpl.referenceType ["Status"]
                     (mkIdentifier "pet" "Pet" "Pet" "pet") "getPet.query.pet")
                  eq_refl eq_refl)).
  reflexivity.
Defined.

(** C1, as stated, fails for a reference to a string enum: the descriptor is
    returned and its [fromJsonParam] returns the one-of check. *)
Lemma enum_reference_param_accepted :
  exists d st st2,
    isReference (Sample.reference "Status") = true
    /\ RuntimeTypeImpl.getRuntimeType ["Status"] (Sample.reference "Status")
         "listPets.query.status" (mkImports (Some api) [])
       = Ok (d, st)
    /\ fromJsonParam d st = Ok ("testOneOf(valuesStatus)", st2).
Proof.
  do 3 eexists. split; [reflexivity | split; [vm_compute; reflexivity | reflexivity]].
Qed.

Lemma enum_reference_symmetric_witness :
  exists st3,
    fromJson
      (RuntimeTypeImpl.referenceType ["Status"]
         (mkIdentifier "status" "Status" "Status" "status") "Pet.status")
      (mkImports (Some model) [])
    = Ok ("testOneOf(valuesStatus)", st3)
    /\ toJson
         (RuntimeTypeImpl.referenceType ["Status"]
            (mkIdentifier "status" "Status" "Status" "status") "Pet.status")
         (mkImports (Some model) [])
       = Ok ("testOneOf(valuesStatus)", st3).
Proof.
  apply (proj2 (enum_reference_symmetric ["Status"] (Sample.reference "Status")
                  "Pet.status" (mkImports (Some model) [])
                  (mkImports (Some model) [("./status", mkEntry None ["Status"])])
                  (RuntimeTypeImpl.referenceType ["Status"]
                     (mkIdentifier "status" "Status" "Status" "status") "Pet.status")
                  eq_refl eq_refl eq_refl)).
Defined.



(** ** The operation extractor *)

Section ExtractorFacts.
Import Extractor.




End ExtractorFacts.


Example two_tags_abort :
  Extractor.operationsByTag []
    [("/pets/{petId}",
      [("get", OpenAPIOperation.mk (TagsArray ["Pets"; "Store"]) None None
                 (Some "getPet") None None Sample.okWithoutContent [])])]
  = Raise (Thrown "Expected 1 tag for GET /pets/{petId}, but found: Pets,Store").
Proof. reflexivity. Qed.

Example no_tags_abort :
  Extractor.operationsByTag []
    [("/pets", [("post", OpenAPIOperation.mk TagsUndefined None None
                           (Some "addPet") None None Sample.okWithoutContent [])])]
  = Raise (Thrown "Expected 1 tag for POST /pets, but found: undefined").
Proof. reflexivity. Qed.

(** ** Path templates *)

Lemma append_nil_r (s : string) : s ++ EmptyString = s.
Proof. induction s as [|c s IH]; simpl; [reflexivity|rewrite IH; reflexivity]. Qed.

Lemma append_assoc (a b c : string) : (a ++ b) ++ c = a ++ b ++ c.
Proof. induction a as [|x a IH]; simpl; [reflexivity|rewrite IH; reflexivity]. Qed.

Lemma concat_cons (x : string) (l : list string) :
  String.concat EmptyString (x :: l) = x ++ String.concat EmptyString l.
Proof. destruct l; simpl; [rewrite append_nil_r|]; reflexivity. Qed.

Lemma concat_app (l1 l2 : list string) :
  String.concat EmptyString (l1 ++ l2)%list
  = String.concat EmptyString l1 ++ String.concat EmptyString l2.
Proof.
  induction l1 as [|x l1 IH]; [reflexivity|].
  change ((x :: l1) ++ l2)%list with (x :: (l1 ++ l2))%list.
  rewrite !concat_cons, IH, append_assoc. reflexivity.
Qed.

Lemma nat_of_ascii_eq (c : ascii) (n : nat) :
  (nat_of_ascii c =? n)%nat = true -> c = ascii_of_nat n.
Proof.
  intros H. apply Nat.eqb_eq in H. rewrite <- H.
  symmetry. apply ascii_nat_embedding.
Qed.

Section UrlFacts.
Import Extractor.

Lemma exec_unfold (s : string) :
  exec s =
  match bracedWord s with
  | Some (name, rest) => Some (EmptyString, name, rest)
  | None =>
      match s with
      | EmptyString => None
      | String c s' =>
          if Js.isLineTerminator c then None
          else match exec s' with
               | Some (start, name, rest) => Some (String c start, name, rest)
               | None => None
               end
      end
  end.
Proof. destruct s; reflexivity. Qed.

Lemma takeWord_spec (s : string) :
  s = fst (takeWord s) ++ snd (takeWord s)
  /\ Js.allWord (fst (takeWord s)) = true.
Proof.
  induction s as [|c s [IH1 IH2]]; simpl; [split; reflexivity|].
  destruct (Js.isWord c) eqn:W; simpl; [|split; reflexivity].
  destruct (takeWord s) as [w r]; simpl in *.
  split; [rewrite <- IH1; reflexivity|rewrite W; exact IH2].
Qed.

Lemma takeWord_app (w rest : string) (c : ascii) :
  Js.allWord w = true -> Js.isWord c = false ->
  Extractor.takeWord (w ++ String c rest) = (w, String c rest).
Proof.
  intros W C. induction w as [|x w IH]; simpl.
  - rewrite C. reflexivity.
  - simpl in W. apply andb_true_iff in W as [Wx W].
    rewrite Wx, (IH W). reflexivity.
Qed.

Lemma bracedWord_spec (s name rest : string) :
  bracedWord s = Some (name, rest) ->
  s = String "{"%char (name ++ String "}"%char rest)
  /\ Js.isWordString name = true.
Proof.
  destruct s as [|c s]; simpl; [discriminate|].
  destruct (nat_of_ascii c =? 123)%nat eqn:C; [|discriminate].
  apply nat_of_ascii_eq in C. subst c.
  destruct (takeWord_spec s) as [E W].
  destruct (takeWord s) as [w r]; simpl in *.
  destruct w as [|x w]; [discriminate|].
  destruct r as [|d r]; [discriminate|].
  destruct (nat_of_ascii d =? 125)%nat eqn:D; [|discriminate].
  apply nat_of_ascii_eq in D. subst d.
  intros [= <- <-]. split; [rewrite E; reflexivity|exact W].
Qed.

Lemma exec_spec (s start name rest : string) :
  exec s = Some (start, name, rest) ->
  s = start ++ String "{"%char (name ++ String "}"%char rest)
  /\ Js.isWordString name = true.
Proof.
  revert start name rest.
  induction s as [|c s IH]; intros start name rest; rewrite exec_unfold.
  - simpl. discriminate.
  - destruct (bracedWord (String c s)) as [[n r]|] eqn:B.
    + intros [= <- <- <-]. apply bracedWord_spec in B. exact B.
    + destruct (Js.isLineTerminator c); [discriminate|].
      destruct (exec s) as [[[st n] r]|] eqn:E; [|discriminate].
      intros [= <- <- <-]. destruct (IH _ _ _ eq_refl) as [-> W].
      split; [reflexivity|exact W].
Qed.

Lemma length_append (a b : string) :
  String.length (a ++ b) = String.length a + String.length b.
Proof. induction a as [|c a IH]; simpl; [reflexivity|rewrite IH; reflexivity]. Qed.

Lemma noLineTerminator_app (a b : string) :
  noLineTerminator (a ++ b) = noLineTerminator a && noLineTerminator b.
Proof.
  induction a as [|c a IH]; simpl; [reflexivity|].
  rewrite IH, andb_assoc. reflexivity.
Qed.

Lemma bracedWord_complete (name rest : string) :
  Js.isWordString name = true ->
  bracedWord (String "{"%char (name ++ String "}"%char rest)) = Some (name, rest).
Proof.
  intros W. destruct name as [|c name]; [discriminate|].
  unfold bracedWord. change (nat_of_ascii "{" =? 123)%nat with true. cbv iota.
  rewrite takeWord_app; [|exact W|reflexivity].
  reflexivity.
Qed.

(** The scan stops at the first [{name}] of the line. *)
Lemma exec_leftmost (before name after : string) :
  noLineTerminator before = true -> Js.isWordString name = true ->
  exists start n r,
    exec (before ++ String "{"%char (name ++ String "}"%char after))
    = Some (start, n, r)
    /\ String.length start <= String.length before.
Proof.
  intros Hline W. induction before as [|c before IH].
  - exists EmptyString, name, after. split; [|apply Nat.le_refl].
    simpl append. rewrite exec_unfold, (bracedWord_complete _ _ W). reflexivity.
  - simpl in Hline. apply andb_true_iff in Hline as [Hc Hline].
    apply negb_true_iff in Hc.
    destruct (IH Hline) as (start & n & r & E & Hlen).
    simpl append. rewrite exec_unfold.
    destruct (bracedWord (String c _)) as [[n' r']|].
    + exists EmptyString, n', r'. split; [reflexivity|simpl; lia].
    + rewrite Hc, E. exists (String c start), n, r.
      split; [reflexivity|simpl; lia].
Qed.

Lemma exec_start_line (s start name rest : string) :
  exec s = Some (start, name, rest) -> noLineTerminator start = true.
Proof.
  revert start name rest.
  induction s as [|c s IH]; intros start name rest; rewrite exec_unfold.
  - simpl. discriminate.
  - destruct (bracedWord (String c s)) as [[n r]|].
    + intros [= <- <- <-]. reflexivity.
    + destruct (Js.isLineTerminator c) eqn:L; [discriminate|].
      destruct (exec s) as [[[st n] r]|] eqn:E; [|discriminate].
      intros [= <- <- <-]. simpl. rewrite L. simpl. eapply IH. reflexivity.
Qed.

(** The literal before a parameter holds no [{name}] occurrence. *)
Lemma exec_start_split (s start name rest : string) :
  exec s = Some (start, name, rest) -> ~ hasParameter start.
Proof.
  intros E (before & w & after & Hstart & W).
  pose proof (exec_start_line _ _ _ _ E) as Hline.
  destruct (exec_spec _ _ _ _ E) as [Hs _].
  rewrite Hstart in Hline. rewrite noLineTerminator_app in Hline.
  apply andb_true_iff in Hline as [Hline _].
  destruct (exec_leftmost before w
              (after ++ String "{"%char (name ++ String "}"%char rest)) Hline W)
    as (start' & n & r & E' & Hlen).
  assert (Hsame : s = before
                      ++ String "{"%char
                           (w ++ String "}"%char
                                   (after ++ String "{"%char (name ++ String "}"%char rest)))).
  { rewrite Hs, Hstart, append_assoc. simpl. rewrite append_assoc. reflexivity. }
  rewrite <- Hsame, E in E'. injection E' as <- _ _.
  rewrite Hstart, length_append in Hlen. simpl in Hlen. lia.
Qed.

(** What is left when the scan finds nothing holds no [{name}] occurrence on
    its first line. *)
Lemma exec_none_split (s : string) :
  exec s = None -> noLineTerminator s = true -> ~ hasParameter s.
Proof.
  intros E Hline (before & w & after & Hs & W).
  rewrite Hs, noLineTerminator_app in Hline.
  apply andb_true_iff in Hline as [Hline _].
  destruct (exec_leftmost before w after Hline W) as (start & n & r & E' & _).
  rewrite <- Hs in E'. congruence.
Qed.

Lemma whileMatch_unfolded (parts : list UrlPart.t) (s : string) :
  whileMatch parts s
  = match exec s with
    | Some (start, name, rest) => whileMatch (pushMatch parts start name) rest
    | None => (parts, s)
    end.
Proof.
  apply (whileMatch_elim
           (fun parts s r =>
              r = match exec s with
                  | Some (start, name, rest) =>
                      whileMatch (pushMatch parts start name) rest
                  | None => (parts, s)
                  end)).
  - intros parts' s' start name rest E _ _. rewrite E. reflexivity.
  - intros parts' s' E _. rewrite E. reflexivity.
Qed.

Lemma isWordString_nonEmpty (s : string) :
  Js.isWordString s = true -> s <> EmptyString.
Proof. destruct s; [discriminate|discriminate]. Qed.

Lemma endsWithParam_app (l1 l2 : list UrlPart.t) :
  l2 <> [] -> endsWithParam (l1 ++ l2) = endsWithParam l2.
Proof.
  intros H. unfold endsWithParam. rewrite rev_app_distr.
  destruct (rev l2) as [|p r] eqn:R; [|reflexivity].
  exfalso. apply H. apply (f_equal (@rev _)) in R.
  rewrite rev_involutive in R. exact R.
Qed.

Lemma noAdjacentLiterals_app (l1 l2 : list UrlPart.t) :
  noAdjacentLiterals l1 = true -> endsWithParam l1 = true ->
  noAdjacentLiterals l2 = true ->
  noAdjacentLiterals (l1 ++ l2) = true.
Proof.
  intros H1 He H2. induction l1 as [|a l1 IH]; [exact H2|].
  destruct l1 as [|b l1].
  - unfold endsWithParam in He. simpl in He.
    destruct l2 as [|c l2]; [reflexivity|].
    simpl. simpl in H2. rewrite H2.
    destruct (isLiteral a); [discriminate|reflexivity].
  - change (noAdjacentLiterals ((a :: b :: l1) ++ l2))
      with (negb (isLiteral a && isLiteral b)
            && noAdjacentLiterals ((b :: l1) ++ l2)).
    change (noAdjacentLiterals (a :: b :: l1))
      with (negb (isLiteral a && isLiteral b) && noAdjacentLiterals (b :: l1)) in H1.
    apply andb_true_iff in H1 as [Hab H1]. rewrite Hab. simpl andb.
    apply IH; [exact H1|].
    rewrite <- He. symmetry.
    apply (endsWithParam_app [a] (b :: l1)). discriminate.
Qed.

Lemma pushMatch_app (parts : list UrlPart.t) (start name : string) :
  pushMatch parts start name = (parts ++ pushed start name)%list.
Proof.
  unfold pushed, pushMatch. destruct (nonEmpty start); simpl;
    [rewrite <- app_assoc|]; reflexivity.
Qed.

Lemma pushed_spec (start name : string) :
  Js.isWordString name = true ->
  String.concat EmptyString (List.map partText (pushed start name))
  = start ++ String "{"%char (name ++ "}")
  /\ Forall wellFormedPart (pushed start name)
  /\ noAdjacentLiterals (pushed start name) = true
  /\ endsWithParam (pushed start name) = true
  /\ pushed start name <> [].
Proof.
  intros W. unfold pushed, pushMatch.
  assert (Wp : wellFormedPart (UrlPart.mk param name)).
  { split; simpl; [apply isWordString_nonEmpty; exact W|intros _; exact W]. }
  destruct start as [|c start]; simpl;
    (split; [|split; [|split; [|split]]]);
    try reflexivity; try discriminate.
  - constructor; [exact Wp|constructor].
  - constructor; [|constructor; [exact Wp|constructor]].
    split; simpl; discriminate.
Qed.

(** The loop: what it pushes spells the consumed prefix of the template, in
    order; the scan finds no further parameter in what is left. *)
Lemma whileMatch_spec (parts : list UrlPart.t) (s : string) :
  exists more,
    fst (whileMatch parts s) = (parts ++ more)%list
    /\ String.concat EmptyString (List.map partText more) ++ snd (whileMatch parts s) = s
    /\ Forall wellFormedPart more
    /\ noAdjacentLiterals more = true
    /\ endsWithParam more = true
    /\ exec (snd (whileMatch parts s)) = None
    /\ (exec s = None -> more = []).
Proof.
  apply (whileMatch_elim
           (fun parts s r =>
              exists more,
                fst r = (parts ++ more)%list
                /\ String.concat EmptyString (List.map partText more) ++ snd r = s
                /\ Forall wellFormedPart more
                /\ noAdjacentLiterals more = true
                /\ endsWithParam more = true
                /\ exec (snd r) = None
                /\ (exec s = None -> more = []))).
  - clear parts s. intros parts s start name rest E IH _.
    destruct IH as (more & Hfst & Hcat & Hwf & Hadj & Hend & Hnone & _).
    destruct (exec_spec _ _ _ _ E) as [Hs W].
    destruct (pushed_spec start name W) as (Pcat & Pwf & Padj & Pend & Pne).
    exists (pushed start name ++ more)%list. repeat split.
    + rewrite Hfst, pushMatch_app, app_assoc. reflexivity.
    + rewrite map_app, concat_app, Pcat, !append_assoc. simpl.
      rewrite append_assoc. simpl. rewrite Hcat. symmetry. exact Hs.
    + apply Forall_app. split; assumption.
    + apply noAdjacentLiterals_app; assumption.
    + destruct more as [|m more]; [rewrite app_nil_r; exact Pend|].
      rewrite endsWithParam_app; [exact Hend|discriminate].
    + exact Hnone.
    + intros Hn. congruence.
  - clear parts s. intros parts s E _. exists []. simpl.
    repeat split; try reflexivity.
    + rewrite app_nil_r. reflexivity.
    + constructor.
    + exact E.
Qed.

Lemma pushed_split (start name : string) :
  ~ hasParameter start -> literalsSplit (pushed start name).
Proof.
  intros H. unfold literalsSplit, pushed, pushMatch.
  destruct (nonEmpty start); simpl; repeat constructor; simpl; try discriminate.
  intros _. exact H.
Qed.

Lemma whileMatch_split (parts : list UrlPart.t) (s : string) :
  exists more,
    fst (whileMatch parts s) = (parts ++ more)%list /\ literalsSplit more.
Proof.
  apply (whileMatch_elim
           (fun parts s r =>
              exists more, fst r = (parts ++ more)%list /\ literalsSplit more)).
  - clear parts s. intros parts s start name rest E (more & Hfst & Hsplit) _.
    exists (pushed start name ++ more)%list. split.
    + rewrite Hfst, pushMatch_app, app_assoc. reflexivity.
    + apply Forall_app. split; [|exact Hsplit].
      apply pushed_split. eapply exec_start_split. exact E.
  - clear parts s. intros parts s _ _. exists []. split.
    + simpl. rewrite app_nil_r. reflexivity.
    + constructor.
Qed.

Lemma not_hasParameter_exec (s : string) :
  ~ hasParameter s -> exec s = None.
Proof.
  intros H. destruct (exec s) as [[[start name] rest]|] eqn:E; [|reflexivity].
  exfalso. apply H. destruct (exec_spec _ _ _ _ E) as [Hs W].
  exists start, name, rest. split; assumption.
Qed.

(** C4 (amended): the segments of a path template, read in order, spell the
    template ([{name}] for a parameter); a parameter is a non-empty word, a
    literal is not empty, and no literal follows a literal (two parameters
    with nothing between them are neighbours); in a template without line
    terminator no literal holds a [{name}] occurrence; a non-empty template
    without any [{name}] occurrence is a single literal; and
    [/widgets/{widgetId}/parts/{partId}] yields exactly the four segments
    [literal /widgets/], [param widgetId], [literal /parts/],
    [param partId]. *)
Theorem parseUrl_segments :
  forall urlString : string,
    Url.original (parseUrl urlString) = urlString
    /\ String.concat EmptyString (List.map partText (Url.parts (parseUrl urlString)))
       = urlString
    /\ Forall wellFormedPart (Url.parts (parseUrl urlString))
    /\ noAdjacentLiterals (Url.parts (parseUrl urlString)) = true
    /\ (noLineTerminator urlString = true ->
        literalsSplit (Url.parts (parseUrl urlString)))
    /\ (urlString <> EmptyString -> ~ hasParameter urlString ->
        Url.parts (parseUrl urlString) = [UrlPart.mk literal urlString])
    /\ Url.parts (parseUrl "/widgets/{widgetId}/parts/{partId}")
       = [UrlPart.mk literal "/widgets/"; UrlPart.mk param "widgetId";
          UrlPart.mk literal "/parts/"; UrlPart.mk param "partId"].
Proof.
  intros urlString. unfold parseUrl.
  destruct (whileMatch_spec [] urlString)
    as (more & Hfst & Hcat & Hwf & Hadj & Hend & Hnone & Hempty).
  destruct (whileMatch_split [] urlString) as (more' & Hfst' & Hsplit).
  destruct (whileMatch [] urlString) as [parts urlRest]. simpl in *. subst parts.
  subst more'.
  split; [reflexivity|].
  split; [|split; [|split; [|split; [|split]]]].
  - destruct urlRest as [|c urlRest]; simpl.
    + rewrite append_nil_r in Hcat. exact Hcat.
    + rewrite map_app, concat_app. simpl. exact Hcat.
  - destruct urlRest as [|c urlRest]; simpl; [exact Hwf|].
    apply Forall_app. split; [exact Hwf|].
    constructor; [|constructor]. split; simpl; discriminate.
  - destruct urlRest as [|c urlRest]; simpl; [exact Hadj|].
    apply noAdjacentLiterals_app; [exact Hadj|exact Hend|reflexivity].
  - intros Hline. destruct urlRest as [|c urlRest]; simpl; [exact Hsplit|].
    apply Forall_app. split; [exact Hsplit|].
    constructor; [|constructor]. intros _. simpl.
    apply exec_none_split; [exact Hnone|].
    rewrite <- Hcat, noLineTerminator_app in Hline.
    apply andb_true_iff in Hline as [_ Hline]. exact Hline.
  - intros Hne Hno. rewrite (Hempty (not_hasParameter_exec _ Hno)) in *.
    simpl in Hcat. subst urlRest.
    destruct urlString as [|c urlString]; [congruence|reflexivity].
  - reflexivity.
Qed.

End UrlFacts.

(** C4, as stated, fails when two parameters have nothing between them (the
    segments do not alternate) and for the empty template (no segment). *)
Lemma adjacent_parameters_do_not_alternate :
  Url.parts (Extractor.parseUrl "/pets/{petId}{format}")
  = [UrlPart.mk literal "/pets/"; UrlPart.mk param "petId";
     UrlPart.mk param "format"]
  /\ alternating (Url.parts (Extractor.parseUrl "/pets/{petId}{format}")) = false
  /\ Url.parts (Extractor.parseUrl EmptyString) = [].
Proof. repeat split. Qed.

Lemma parseUrl_segments_witness :
  Url.parts (Extractor.parseUrl "/ping") = [UrlPart.mk literal "/ping"].
Proof.
  apply (proj1 (proj2 (proj2 (proj2 (proj2 (proj2 (parseUrl_segments "/ping"))))))).
  - discriminate.
  - intros (before & name & after & E & _).
    destruct before as [|a [|b [|c [|d [|e [|f before]]]]]]; simpl in E; discriminate.
Defined.

(** ** The emitters *)

Section EmitterFacts.
Import Emitter.
Variable enumTypes : list string.

Lemma foldM_Ok {A B} (f : B -> A -> M B) (l : list A) (acc : B)
    (st : Imports) (r : B * Imports) :
  foldM f l acc st = Ok r ->
  Forall (fun x => exists a s r', f a x s = Ok r') l.
Proof.
  revert acc st. induction l as [|x l IH]; intros acc st H; [constructor|].
  simpl in H. invert_bind H as acc' st' Hm Hk.
  constructor; [exists acc, st, (acc', st'); exact Hm|].
  eapply IH. exact Hk.
Qed.

Lemma requireOperationId_Ok (o : OperationExtended.t) (st st' : Imports)
    (operationId : string) :
  requireOperationId o st = Ok (operationId, st') ->
  OpenAPIOperation.operationId (OperationExtended.operation o) = Some operationId
  /\ operationId <> EmptyString.
Proof.
  unfold requireOperationId.
  destruct (OpenAPIOperation.operationId (OperationExtended.operation o))
    as [[|c id]|]; simpl; try discriminate.
  unfold ret. intros [= <- _]. split; [reflexivity|discriminate].
Qed.

Lemma filter_nil_all {A} (f : A -> bool) (l : list A) :
  filter f l = [] -> forall x, In x l -> f x = false.
Proof.
  induction l as [|y l IH]; simpl; intros H x Hx; [contradiction|].
  destruct (f y) eqn:F; [discriminate|].
  destruct Hx as [<-|Hx]; [exact F|apply IH; assumption].
Qed.

Lemma checkResponses_Ok (operationId : string)
    (responses : list (string * OrReference OpenAPIResponse.t))
    (doc : list string) (st : Imports)
    (r : option RuntimeType * list string * Imports) :
  checkResponses enumTypes operationId responses doc st = Ok r ->
  exactly200 responses.
Proof.
  unfold checkResponses, exactly200.
  destruct (lookup "200" responses) as [response|]; [|discriminate].
  destruct (isNil (otherResponses responses)) eqn:N; simpl; [|discriminate].
  destruct response as [target|response]; [discriminate|].
  intros _. split; [exists response; reflexivity|].
  intros code r' Hin. unfold otherResponses in N.
  destruct (filter _ responses) eqn:F; [|discriminate].
  apply (filter_nil_all _ _ F) in Hin. simpl in Hin.
  apply negb_false_iff in Hin. apply String.eqb_eq in Hin. exact Hin.
Qed.

(** What an operation has passed when the loop of [writeApi] accepts it. *)
Lemma apiOperation_Ok (tag : Identifier)
    (acc : StringBuilder.t * StringBuilder.t) (o : OperationExtended.t)
    (st : Imports) (r : StringBuilder.t * StringBuilder.t * Imports) :
  apiOperation enumTypes tag acc o st = Ok r ->
  exists operationId name,
    OpenAPIOperation.operationId (OperationExtended.operation o) = Some operationId
    /\ methodName tag (OperationExtended.method o) (OperationExtended.url o)
         operationId = Ok name
    /\ exactly200 (OpenAPIOperation.responses (OperationExtended.operation o)).
Proof.
  unfold apiOperation. destruct acc as [abstractMethodLines registerLines].
  intros H. invert_bind H as operationId st1 Hid H.
  apply requireOperationId_Ok in Hid as [Hid _].
  invert_bind H as name st2 Hname H. apply lift_Ok in Hname as [Hname _].
  invert_bind H as u st3 Hbody H.
  invert_bind H as l1 st4 Hrequest H.
  invert_bind H as l2 st5 Hparams H.
  invert_bind H as rt st6 Hresponses H.
  apply checkResponses_Ok in Hresponses.
  exists operationId, name. auto.
Qed.

(** What an operation has passed when the loop of [writeClient] accepts it. *)
Lemma clientOperation_Ok (tag : Identifier) (b : StringBuilder.t)
    (o : OperationExtended.t) (st : Imports) (r : StringBuilder.t * Imports) :
  clientOperation enumTypes tag b o st = Ok r ->
  exists operationId name,
    OpenAPIOperation.operationId (OperationExtended.operation o) = Some operationId
    /\ methodName tag (OperationExtended.method o) (OperationExtended.url o)
         operationId = Ok name
    /\ exactly200 (OpenAPIOperation.responses (OperationExtended.operation o)).
Proof.
  unfold clientOperation.
  intros H. invert_bind H as operationId st1 Hid H.
  apply requireOperationId_Ok in Hid as [Hid _].
  invert_bind H as name st2 Hname H. apply lift_Ok in Hname as [Hname _].
  invert_bind H as u st3 Hbody H.
  invert_bind H as l1 st4 Hrequest H.
  invert_bind H as l2 st5 Hparams H.
  invert_bind H as rt st6 Hresponses H.
  apply checkResponses_Ok in Hresponses.
  exists operationId, name. auto.
Qed.

Variable localeCompare : string -> string -> Z.

Lemma finish_Ok (start : ImportFolder) (body : M StringBuilder.t) (text : string) :
  finish localeCompare start body = Ok text ->
  exists b imports, body (mkImports start []) = Ok (b, imports).
Proof.
  unfold finish. destruct (body (mkImports start [])) as [[b imports]|e];
    [|discriminate].
  intros _. exists b, imports. reflexivity.
Qed.

Lemma writeApi_Ok (tag : Identifier) (tagDescription : option string)
    (operations : list OperationExtended.t) (text : string) :
  writeApi enumTypes localeCompare tag tagDescription operations = Ok text ->
  Forall (accepted tag) operations.
Proof.
  unfold writeApi. intros H. apply finish_Ok in H as (b & imports & H).
  unfold writeApiBuilder in H.
  invert_bind H as u1 st1 H1 H. invert_bind H as u2 st2 H2 H.
  invert_bind H as u3 st3 H3 H. invert_bind H as u4 st4 H4 H.
  invert_bind H as lines st5 Hloop H.
  apply foldM_Ok in Hloop. rewrite Forall_forall in *.
  intros o Ho. destruct (Hloop o Ho) as (a & s & r' & Hr).
  eapply apiOperation_Ok. exact Hr.
Qed.

Lemma writeClient_Ok (tag : Identifier) (tagDescription : option string)
    (operations : list OperationExtended.t) (text : string) :
  writeClient enumTypes localeCompare tag tagDescription operations = Ok text ->
  Forall (accepted tag) operations.
Proof.
  unfold writeClient. intros H. apply finish_Ok in H as (b & imports & H).
  unfold writeClientBuilder in H.
  invert_bind H as u1 st1 H1 H.
  invert_bind H as lines st2 Hloop H.
  apply foldM_Ok in Hloop. rewrite Forall_forall in *.
  intros o Ho. destruct (Hloop o Ho) as (a & s & r' & Hr).
  eapply clientOperation_Ok. exact Hr.
Qed.

(** C2 (amended): [writeApi] and [writeClient] return only if the responses
    of every operation are exactly a [200] entry; the entry need not have
    JSON content.  A missing [200] entry makes the response check throw
    [Expected 200 response of operation <id>], and with any other status code
    the check throws. *)
Theorem responses_exactly_200 :
  forall (tag : Identifier) (tagDescription : option string)
         (operations : list OperationExtended.t),
    (forall text,
       writeApi enumTypes localeCompare tag tagDescription operations = Ok text
       \/ writeClient enumTypes localeCompare tag tagDescription operations = Ok text ->
       Forall
         (fun o => exactly200 (OpenAPIOperation.responses (OperationExtended.operation o)))
         operations)
    /\ (forall operationId responses doc st,
          lookup "200" responses = None ->
          checkResponses enumTypes operationId responses doc st
          = Raise (Thrown ("Expected 200 response of operation " ++ operationId)))
    /\ (forall operationId responses doc st code r,
          In (code, r) responses -> code <> "200" ->
          exists e, checkResponses enumTypes operationId responses doc st = Raise e).
Proof.
  intros tag tagDescription operations. split; [|split].
  - intros text [H|H]; [apply writeApi_Ok in H|apply writeClient_Ok in H];
      (eapply Forall_impl; [|exact H]);
      intros o (operationId & name & _ & _ & H200); exact H200.
  - intros operationId responses doc st Hnone.
    unfold checkResponses. rewrite Hnone. reflexivity.
  - intros operationId responses doc st code r Hin Hcode.
    destruct (checkResponses enumTypes operationId responses doc st)
      as [ok|e] eqn:E; [|exists e; reflexivity].
    apply checkResponses_Ok in E as [_ Hall].
    exfalso. apply Hcode. eapply Hall. exact Hin.
Qed.

Lemma allWord_app_dot (w rest : string) :
  Js.allWord (w ++ String "."%char rest) = false.
Proof.
  induction w as [|x w IH]; simpl; [reflexivity|].
  rewrite IH. apply andb_false_r.
Qed.

Lemma execDotted_spec (s m1 m2 : string) :
  execDotted s = Some (m1, m2) ->
  s = m1 ++ "." ++ m2 /\ Js.isWordString m1 = true /\ Js.isWordString m2 = true.
Proof.
  unfold execDotted.
  destruct (takeWord_spec s) as [E W].
  destruct (Extractor.takeWord s) as [w r]; simpl in E, W.
  destruct w as [|c w]; [discriminate|].
  destruct r as [|d r]; [discriminate|].
  destruct (nat_of_ascii d =? 46)%nat eqn:D; simpl; [|discriminate].
  apply nat_of_ascii_eq in D. subst d.
  destruct (Js.isWordString r) eqn:R; [|discriminate].
  intros [= <- <-]. split; [exact E|split; [exact W|exact R]].
Qed.

(** C3 (amended): [writeApi] and [writeClient] return only if every
    operation has an operation identifier that is a word, or the upper-camel
    name of the tag, a dot and a word.  The method name is the identifier
    itself in the first case and the word after the dot in the second; any
    other identifier makes the emitter throw.  Identifiers are not compared
    with one another. *)
Theorem operation_ids_valid :
  forall (tag : Identifier) (tagDescription : option string)
         (operations : list OperationExtended.t),
    (forall text,
       writeApi enumTypes localeCompare tag tagDescription operations = Ok text
       \/ writeClient enumTypes localeCompare tag tagDescription operations = Ok text ->
       Forall
         (fun o =>
            exists operationId,
              OpenAPIOperation.operationId (OperationExtended.operation o)
              = Some operationId
              /\ validOperationId tag operationId)
         operations)
    /\ (forall method url operationId,
          Js.isWordString operationId = true ->
          methodName tag method url operationId = Ok operationId)
    /\ (forall method url word,
          Js.isWordString (upperCamel tag) = true ->
          Js.isWordString word = true ->
          methodName tag method url (upperCamel tag ++ "." ++ word) = Ok word)
    /\ (forall method url operationId,
          ~ validOperationId tag operationId ->
          methodName tag method url operationId
          = Raise (operationIdError tag method url)).
Proof.
  intros tag tagDescription operations.
  assert (Hvalid : forall method url operationId name,
            methodName tag method url operationId = Ok name ->
            validOperationId tag operationId).
  { intros method url operationId name. unfold methodName, validOperationId.
    destruct (Js.isWordString operationId) eqn:W; [intros _; left; reflexivity|].
    destruct (execDotted operationId) as [[m1 m2]|] eqn:E; [|discriminate].
    destruct (String.eqb_spec m1 (upperCamel tag)) as [->|_]; [|discriminate].
    intros _. right. apply execDotted_spec in E as (E & W1 & W2).
    exists m2. auto. }
  split; [|split; [|split]].
  - intros text [H|H]; [apply writeApi_Ok in H|apply writeClient_Ok in H];
      (eapply Forall_impl; [|exact H]);
      intros o (operationId & name & Hid & Hname & _);
      exists operationId; split; [exact Hid|eapply Hvalid; exact Hname|
                                   exact Hid|eapply Hvalid; exact Hname].
  - intros method url operationId W. unfold methodName. rewrite W. reflexivity.
  - intros method url word Wt Ww. unfold methodName.
    assert (Hnot : Js.isWordString (upperCamel tag ++ "." ++ word) = false).
    { destruct (upperCamel tag) as [|c t]; [discriminate|].
      simpl in *. apply andb_true_iff in Wt as [Wc Wt]. rewrite Wc. simpl.
      apply allWord_app_dot. }
    rewrite Hnot. unfold execDotted.
    destruct (upperCamel tag) as [|c t] eqn:T; [discriminate|].
    change (String c t ++ "." ++ word) with (String c t ++ String "."%char word).
    rewrite takeWord_app; [|exact Wt|reflexivity].
    simpl. rewrite Ww. simpl. rewrite String.eqb_refl, Ascii.eqb_refl. reflexivity.
  - intros method url operationId Hinvalid. unfold methodName, operationIdError.
    destruct (Js.isWordString operationId) eqn:W.
    { exfalso. apply Hinvalid. left. exact W. }
    destruct (execDotted operationId) as [[m1 m2]|] eqn:E; [|reflexivity].
    destruct (String.eqb_spec m1 (upperCamel tag)) as [->|_]; [|reflexivity].
    exfalso. apply Hinvalid. right. apply execDotted_spec in E as (E & W1 & W2).
    exists m2. auto.
Qed.

End EmitterFacts.

(** *** Runs of the emitters *)

Example missing_200_aborts :
  Emitter.writeApi [] Sample.codeCompare Sample.petsTag None
    [Sample.pingWithoutResponse]
  = Raise (Thrown "Expected 200 response of operation ping")
  /\ Emitter.writeClient [] Sample.codeCompare Sample.petsTag None
       [Sample.pingWithoutResponse]
     = Raise (Thrown "Expected 200 response of operation ping").
Proof. split; vm_compute; reflexivity. Qed.

Example foreign_prefix_aborts :
  Emitter.writeApi [] Sample.codeCompare Sample.petsTag None [Sample.pingOfStore]
  = Raise (operationIdError Sample.petsTag "GET" (Extractor.parseUrl "/ping")).
Proof. vm_compute. reflexivity. Qed.

(** C2, as stated, fails for a [200] response without JSON content: both
    emitters accept the operation, which then returns [void]. *)
Lemma response_without_json_accepted :
  Emitter.lookup "200" Sample.okWithoutContent
  = Some (Plain (OpenAPIResponse.mk (Some "ok") None))
  /\ Emitter.checkResponses [] "ping" Sample.okWithoutContent []
       (mkImports (Some api) [])
     = Ok (None, [], mkImports (Some api) [])
  /\ isOk (Emitter.writeApi [] Sample.codeCompare Sample.petsTag None [Sample.ping])
     = true
  /\ isOk (Emitter.writeClient [] Sample.codeCompare Sample.petsTag None [Sample.ping])
     = true.
Proof. repeat split; vm_compute; reflexivity. Qed.

Lemma responses_exactly_200_witness :
  Forall
    (fun o => exactly200 (OpenAPIOperation.responses (OperationExtended.operation o)))
    [Sample.ping].
Proof.
  destruct (Emitter.writeApi [] Sample.codeCompare Sample.petsTag None [Sample.ping])
    as [text|e] eqn:E.
  - apply (proj1 (responses_exactly_200 [] Sample.codeCompare Sample.petsTag None
                    [Sample.ping]) text).
    left. exact E.
  - vm_compute in E. discriminate E.
Defined.

(** C3, as stated, fails for two operations of a tag with the same
    operation identifier: both emitters accept them. *)
Lemma duplicate_operation_ids_accepted :
  OpenAPIOperation.operationId (OperationExtended.operation Sample.ping)
  = OpenAPIOperation.operationId (OperationExtended.operation Sample.pingAgain)
  /\ isOk (Emitter.writeApi [] Sample.codeCompare Sample.petsTag None
             [Sample.ping; Sample.pingAgain])
     = true
  /\ isOk (Emitter.writeClient [] Sample.codeCompare Sample.petsTag None
             [Sample.ping; Sample.pingAgain])
     = true.
Proof. repeat split; vm_compute; reflexivity. Qed.

Lemma operation_ids_valid_witness :
  Emitter.methodName Sample.petsTag "GET" (Extractor.parseUrl "/pets") "Pets.list"
  = Ok "list"
  /\ Forall
       (fun o =>
          exists operationId,
            OpenAPIOperation.operationId (OperationExtended.operation o)
            = Some operationId
            /\ validOperationId Sample.petsTag operationId)
       [Sample.listPets].
Proof.
  split.
  - apply (proj1 (proj2 (proj2 (operation_ids_valid [] Sample.codeCompare
                                  Sample.petsTag None [])))
             "GET" (Extractor.parseUrl "/pets") "list");
      reflexivity.
  - destruct (Emitter.writeApi [] Sample.codeCompare Sample.petsTag None
                [Sample.listPets]) as [text|e] eqn:E.
    + apply (proj1 (operation_ids_valid [] Sample.codeCompare Sample.petsTag None
                      [Sample.listPets]) text).
      left. exact E.
    + vm_compute in E. discriminate E.
Defined.

(** ** Sorting *)

Section SortFacts.
Context {A : Type}.
Variable cmp : A -> A -> Z.

Lemma insertSorted_perm (x : A) (l : list A) :
  Permutation (insertSorted cmp x l) (x :: l).
Proof.
  induction l as [|y l IH]; simpl; [reflexivity|].
  destruct (cmp x y <=? 0)%Z; [reflexivity|].
  rewrite IH. apply perm_swap.
Qed.

Lemma sort_perm (l : list A) : Permutation (sort cmp l) l.
Proof.
  induction l as [|x l IH]; simpl; [reflexivity|].
  rewrite insertSorted_perm. constructor. exact IH.
Qed.

Section Total.
(** The comparator orders any two elements one way or the other. *)
Hypothesis cmp_total : forall a b, (0 < cmp a b)%Z -> (cmp b a <= 0)%Z.




Hypothesis cmp_trans :
  forall a b c, (cmp a b <= 0)%Z -> (cmp b c <= 0)%Z -> (cmp a c <= 0)%Z.



End Total.
End SortFacts.

(** ** Rendering the imports *)

Section RenderFacts.
Import ImportsImpl.
Variable localeCompare : string -> string -> Z.








End RenderFacts.




Section RenderOrder.
Import ImportsImpl.
Variable localeCompare : string -> string -> Z.

(** The comparator orders any two strings one way or the other, ... *)
Hypothesis compare_total :
  forall a b, (0 < localeCompare a b)%Z -> (localeCompare b a <= 0)%Z.
(** ... transitively, ... *)
Hypothesis compare_trans :
  forall a b c,
    (localeCompare a b <= 0)%Z -> (localeCompare b c <= 0)%Z ->
    (localeCompare a c <= 0)%Z.
(** ... and tells different strings apart. *)
Hypothesis compare_antisym :
  forall a b, (localeCompare a b <= 0)%Z -> (localeCompare b a <= 0)%Z -> a = b.








End RenderOrder.

(** *** A run of the rendering *)





Example render_api_imports :
  ImportsImpl.toString Sample.codeCompare Sample.registeredOneWay
  = blankLine
      ++ importStatement "../base-api" None ["BaseApi"]
      ++ importStatement "express" None ["Express"; "Response"]
      ++ blankLine.
Proof. reflexivity. Qed.


(* ===================================================================== *)
(** * Further properties *)
(* ===================================================================== *)

(** ** Identifier: the four spellings *)

Lemma join_trailing (sep w : string) (ws : list string) :
  Js.join sep (w :: ws)
  = w ++ String.concat EmptyString (map (String.append sep) ws).
Proof.
  revert w. induction ws as [|v ws IH]; intros w.
  - simpl. rewrite append_nil_r. reflexivity.
  - change (Js.join sep (w :: v :: ws)) with (w ++ sep ++ Js.join sep (v :: ws)).
    rewrite IH, map_cons, concat_cons, append_assoc. reflexivity.
Qed.

Lemma capitalize_lower (word : string) :
  IdentifierImpl.capitalize (Js.toLowerCase word)
  = if Extractor.nonEmpty word then Ok (capitalWord word) else Raise TypeError.
Proof. destruct word; reflexivity. Qed.

(** The loop of the constructor from a later word on. *)
Lemma forEachWord_later (words : list string) (i : nat) (acc : Identifier) :
  IdentifierImpl.forEachWord words (S i) acc
  = if forallb Extractor.nonEmpty words then
      Ok {| lowerCamel :=
              lowerCamel acc ++ String.concat EmptyString (map capitalWord words);
            upperCamel :=
              upperCamel acc ++ String.concat EmptyString (map capitalWord words);
            display :=
              display acc
                ++ String.concat EmptyString (map (String.append " ") words);
            kebab :=
              kebab acc
                ++ String.concat EmptyString
                     (map (String.append "-") (map Js.toLowerCase words)) |}
    else Raise TypeError.
Proof.
  revert i acc. induction words as [|w words IH]; intros i acc.
  - simpl. rewrite !append_nil_r. destruct acc; reflexivity.
  - simpl forallb. simpl IdentifierImpl.forEachWord.
    unfold IdentifierImpl.addWord. rewrite capitalize_lower.
    destruct (Extractor.nonEmpty w); [|reflexivity].
    simpl rbind. rewrite IH.
    destruct (forallb Extractor.nonEmpty words); [|reflexivity].
    change (0 <? S i)%nat with true. cbv iota.
    cbn [lowerCamel upperCamel display kebab].
    rewrite !map_cons, !concat_cons, !append_assoc. reflexivity.
Qed.

Lemma construct_spec (words : list string) :
  IdentifierImpl.construct words
  = if forallb Extractor.nonEmpty words then Ok (identifierOf words)
    else Raise TypeError.
Proof.
  unfold IdentifierImpl.construct. destruct words as [|w words]; [reflexivity|].
  simpl forallb. simpl IdentifierImpl.forEachWord.
  unfold IdentifierImpl.addWord. rewrite capitalize_lower.
  destruct (Extractor.nonEmpty w); [|reflexivity].
  simpl rbind. rewrite forEachWord_later.
  destruct (forallb Extractor.nonEmpty words); [|reflexivity].
  change (0 <? 0)%nat with false. cbv iota.
  unfold identifierOf. cbn [lowerCamel upperCamel display kebab].
  rewrite !map_cons, (join_trailing " "), (join_trailing "-"), concat_cons.
  reflexivity.
Qed.

Lemma forallb_nonEmpty (l : list string) :
  Forall (fun w => w <> EmptyString) l -> forallb Extractor.nonEmpty l = true.
Proof.
  induction 1 as [|w l Hw _ IH]; [reflexivity|].
  simpl. rewrite IH. destruct w; [congruence|reflexivity].
Qed.

Lemma trimEnd_idempotent (s : string) : Js.trimEnd (Js.trimEnd s) = Js.trimEnd s.
Proof.
  induction s as [|c s IH]; [reflexivity|].
  simpl. destruct (Js.trimEnd s) as [|d r] eqn:E.
  - destruct (Js.isSpace c) eqn:Hc; simpl; [reflexivity|].
    rewrite Hc. reflexivity.
  - change (Js.trimEnd (String c (String d r)))
      with (match Js.trimEnd (String d r) with
            | EmptyString => if Js.isSpace c then EmptyString else Js.chr c
            | rest' => String c rest'
            end).
    rewrite IH. reflexivity.
Qed.

Lemma trimEnd_head (c : ascii) (s : string) :
  Js.isSpace c = false -> exists r, Js.trimEnd (String c s) = String c r.
Proof.
  intros Hc. simpl. destruct (Js.trimEnd s) as [|d r].
  - rewrite Hc. exists EmptyString. reflexivity.
  - exists (String d r). reflexivity.
Qed.

Lemma trimStart_head (s : string) :
  Js.trimStart s = EmptyString
  \/ exists c r, Js.trimStart s = String c r /\ Js.isSpace c = false.
Proof.
  induction s as [|c s IH]; [left; reflexivity|].
  simpl. destruct (Js.isSpace c) eqn:Hc; [exact IH|].
  right. exists c, s. auto.
Qed.

(** What [trim] leaves is empty, or starts and ends with a character that
    is not white space. *)
Lemma trim_shape (s : string) :
  Js.trim s = EmptyString
  \/ exists c r, Js.trim s = String c r /\ Js.isSpace c = false
                 /\ Js.trimEnd (Js.trim s) = Js.trim s.
Proof.
  unfold Js.trim. destruct (trimStart_head s) as [->|(c & r & -> & Hc)].
  - left. reflexivity.
  - right. destruct (trimEnd_head c r Hc) as (r' & E).
    exists c, r'. rewrite trimEnd_idempotent. auto.
Qed.

Lemma splitSpaces_head (c : ascii) (r : string) :
  Js.isSpace c = false ->
  exists w ws, Js.splitSpaces (String c r) = String c w :: ws.
Proof.
  intros Hc. simpl. rewrite Hc. unfold Js.chr.
  destruct (Js.splitSpaces r); eauto.
Qed.

Lemma splitSpaces_later (s : string) :
  Js.trimEnd s = s ->
  Forall (fun w => w <> EmptyString) (tl (Js.splitSpaces s)).
Proof.
  induction s as [|c rest IH]; intros H; [constructor|].
  destruct rest as [|d r].
  - simpl in H. destruct (Js.isSpace c) eqn:Hc; [discriminate|].
    simpl. rewrite Hc. constructor.
  - assert (Hrest : Js.trimEnd (String d r) = String d r).
    { clear IH.
      change (Js.trimEnd (String c (String d r)))
        with (match Js.trimEnd (String d r) with
              | EmptyString => if Js.isSpace c then EmptyString else Js.chr c
              | rest' => String c rest'
              end) in H.
      destruct (Js.trimEnd (String d r)) as [|e r'].
      - destruct (Js.isSpace c); discriminate.
      - injection H as -> ->. reflexivity. }
    specialize (IH Hrest).
    change (Js.splitSpaces (String c (String d r)))
      with (if Js.isSpace c then
              if Js.isSpace d then Js.splitSpaces (String d r)
              else EmptyString :: Js.splitSpaces (String d r)
            else match Js.splitSpaces (String d r) with
                 | w :: ws => String c w :: ws
                 | [] => [Js.chr c]
                 end).
    destruct (Js.isSpace c).
    + destruct (Js.isSpace d) eqn:Hd; [exact IH|].
      destruct (splitSpaces_head d r Hd) as (w & ws & E).
      rewrite E in *. simpl in IH. simpl tl.
      constructor; [discriminate|exact IH].
    + destruct (Js.splitSpaces (String d r)) as [|w ws]; [constructor|exact IH].
Qed.

Lemma splitSpaces_trimmed (s : string) :
  Extractor.nonEmpty (Js.trim s) = true ->
  forallb Extractor.nonEmpty (Js.splitSpaces (Js.trim s)) = true.
Proof.
  intros H. destruct (trim_shape s) as [E|(c & r & E & Hc & Hend)].
  - rewrite E in H. discriminate.
  - apply forallb_nonEmpty.
    pose proof (splitSpaces_later _ Hend) as Hlater.
    rewrite E in *.
    destruct (splitSpaces_head c r Hc) as (w & ws & Ew). rewrite Ew in *.
    constructor; [discriminate|exact Hlater].
Qed.

Lemma splitHumps_trimmed (s : string) :
  Extractor.nonEmpty (Js.trim s) = true ->
  forallb Extractor.nonEmpty (Js.splitHumps (Js.trim s)) = true.
Proof.
  intros H. destruct (Js.trim s) as [|c r]; [discriminate|].
  apply forallb_nonEmpty, splitHumpsFrom_nonempty.
Qed.

(** X1: [fromWords] and [fromCamel] raise a [TypeError] exactly when the
    trimmed input is empty; otherwise they return the identifier whose
    [kebab] is the lower-cased words joined by hyphens, whose [display] is the
    words joined by spaces, whose [upperCamel] is the capitalised words and
    whose [lowerCamel] is the same with the first word in lower case. *)
Theorem identifier_spellings :
  forall s : string,
    IdentifierImpl.fromWords s
    = (if Extractor.nonEmpty (Js.trim s)
       then Ok (identifierOf (Js.splitSpaces (Js.trim s)))
       else Raise TypeError)
    /\ IdentifierImpl.fromCamel s
       = (if Extractor.nonEmpty (Js.trim s)
          then Ok (identifierOf (Js.splitHumps (Js.trim s)))
          else Raise TypeError).
Proof.
  intros s. unfold IdentifierImpl.fromWords, IdentifierImpl.fromCamel.
  rewrite !construct_spec.
  destruct (Extractor.nonEmpty (Js.trim s)) eqn:H.
  - rewrite (splitSpaces_trimmed s H), (splitHumps_trimmed s H). auto.
  - destruct (Js.trim s); [|discriminate]. auto.
Qed.

(** ** Identifier: letter case *)

Lemma lowerChar_idempotent (c : ascii) :
  Js.lowerChar (Js.lowerChar c) = Js.lowerChar c.
Proof. destruct c as [[] [] [] [] [] [] [] []]; reflexivity. Qed.

Lemma lowerChar_upperChar (c : ascii) :
  Js.lowerChar (Js.upperChar (Js.lowerChar c)) = Js.lowerChar c.
Proof. destruct c as [[] [] [] [] [] [] [] []]; reflexivity. Qed.

Lemma toLowerCase_idempotent (s : string) :
  Js.toLowerCase (Js.toLowerCase s) = Js.toLowerCase s.
Proof.
  induction s as [|c s IH]; [reflexivity|].
  unfold Js.toLowerCase in *. simpl. rewrite IH, lowerChar_idempotent. reflexivity.
Qed.

Lemma toLowerCase_app (a b : string) :
  Js.toLowerCase (a ++ b) = Js.toLowerCase a ++ Js.toLowerCase b.
Proof.
  induction a as [|c a IH]; [reflexivity|].
  unfold Js.toLowerCase in *. simpl. rewrite IH. reflexivity.
Qed.

Lemma toLowerCase_capitalWord (w : string) :
  Js.toLowerCase (capitalWord w) = Js.toLowerCase w.
Proof.
  destruct w as [|c w]; [reflexivity|].
  unfold capitalWord, Js.toLowerCase. simpl.
  rewrite lowerChar_upperChar.
  change (Js.mapChars Js.lowerChar) with Js.toLowerCase.
  rewrite toLowerCase_idempotent. reflexivity.
Qed.

Lemma toLowerCase_capitals (words : list string) :
  Js.toLowerCase (String.concat EmptyString (map capitalWord words))
  = Js.toLowerCase (String.concat EmptyString words).
Proof.
  induction words as [|w words IH]; [reflexivity|].
  rewrite map_cons, !concat_cons, !toLowerCase_app, IH, toLowerCase_capitalWord.
  reflexivity.
Qed.

Lemma toLowerCase_kebab (words : list string) :
  Js.toLowerCase (Js.join "-" (map Js.toLowerCase words))
  = Js.join "-" (map Js.toLowerCase words).
Proof.
  destruct words as [|w words]; [reflexivity|].
  rewrite map_cons, (join_trailing "-"), toLowerCase_app, toLowerCase_idempotent.
  f_equal. induction words as [|v words IH]; [reflexivity|].
  rewrite !map_cons, !concat_cons, !toLowerCase_app, IH, toLowerCase_idempotent.
  reflexivity.
Qed.

Lemma concat_splitHumpsFrom (c : ascii) (rest : string) :
  String.concat EmptyString (Js.splitHumpsFrom c rest) = String c rest.
Proof.
  revert c. induction rest as [|d rest IH]; intros c; [reflexivity|].
  simpl Js.splitHumpsFrom. specialize (IH d).
  destruct (negb (Js.isUpper c) && Js.isUpper d).
  - rewrite concat_cons, IH. reflexivity.
  - destruct (Js.splitHumpsFrom d rest) as [|w ws].
    + simpl in IH. discriminate.
    + rewrite concat_cons in *. simpl. rewrite IH. reflexivity.
Qed.

Lemma concat_splitHumps (s : string) :
  String.concat EmptyString (Js.splitHumps s) = s.
Proof. destruct s; [reflexivity|apply concat_splitHumpsFrom]. Qed.

(** X2: an identifier that [fromCamel] returns spells the trimmed input up
    to letter case in [upperCamel] and [lowerCamel], and the [kebab] spelling
    of [fromCamel] and [fromWords] has no upper-case letter. *)
Theorem spellings_keep_letters :
  forall (s : string) (ident : Identifier),
    (IdentifierImpl.fromCamel s = Ok ident ->
     Js.toLowerCase (upperCamel ident) = Js.toLowerCase (Js.trim s)
     /\ Js.toLowerCase (lowerCamel ident) = Js.toLowerCase (Js.trim s)
     /\ Js.toLowerCase (kebab ident) = kebab ident)
    /\ (IdentifierImpl.fromWords s = Ok ident ->
        Js.toLowerCase (kebab ident) = kebab ident).
Proof.
  intros s ident.
  unfold IdentifierImpl.fromCamel, IdentifierImpl.fromWords.
  rewrite !construct_spec. split.
  - destruct (forallb _ _); [|discriminate]. intros [= <-].
    unfold identifierOf. cbn [lowerCamel upperCamel kebab].
    split; [|split].
    + rewrite toLowerCase_capitals, concat_splitHumps. reflexivity.
    + pose proof (concat_splitHumps (Js.trim s)) as E.
      destruct (Js.splitHumps (Js.trim s)) as [|w words].
      * rewrite <- E. reflexivity.
      * rewrite toLowerCase_app, toLowerCase_idempotent, toLowerCase_capitals.
        rewrite <- E, concat_cons, toLowerCase_app. reflexivity.
    + apply toLowerCase_kebab.
  - destruct (forallb _ _); [|discriminate]. intros [= <-].
    apply toLowerCase_kebab.
Qed.

Lemma spellings_keep_letters_witness :
  Js.toLowerCase "UserProfile" = Js.toLowerCase (Js.trim " userProfile ")
  /\ Js.toLowerCase "userProfile" = Js.toLowerCase (Js.trim " userProfile ")
  /\ Js.toLowerCase "user-profile" = "user-profile".
Proof.
  apply (proj1 (spellings_keep_letters " userProfile "
                  (mkIdentifier "userProfile" "UserProfile" "user Profile"
                     "user-profile"))).
  reflexivity.
Defined.

(** ** Imports: registering *)

Lemma lookup_store_same (file : string) (e : ImportEntry)
    (l : list (string * ImportEntry)) :
  ImportsImpl.lookup file (ImportsImpl.store file e l) = Some e.
Proof.
  induction l as [|[f e'] l IH]; simpl.
  - rewrite String.eqb_refl. reflexivity.
  - destruct (String.eqb f file) eqn:E; simpl; rewrite E; [reflexivity|exact IH].
Qed.

Lemma lookup_store_other (file other : string) (e : ImportEntry)
    (l : list (string * ImportEntry)) :
  other <> file ->
  ImportsImpl.lookup other (ImportsImpl.store file e l)
  = ImportsImpl.lookup other l.
Proof.
  intros Hne. induction l as [|[f e'] l IH]; simpl.
  - destruct (String.eqb_spec file other); [congruence|reflexivity].
  - destruct (String.eqb_spec f file) as [->|Hf]; simpl.
    + destruct (String.eqb_spec file other); [congruence|reflexivity].
    + rewrite IH. reflexivity.
Qed.

Lemma store_store (file : string) (e e' : ImportEntry)
    (l : list (string * ImportEntry)) :
  ImportsImpl.store file e (ImportsImpl.store file e' l)
  = ImportsImpl.store file e l.
Proof.
  induction l as [|[f e0] l IH]; simpl.
  - rewrite String.eqb_refl. reflexivity.
  - destruct (String.eqb f file) eqn:E; simpl; rewrite E; [reflexivity|].
    rewrite IH. reflexivity.
Qed.

Lemma includes_In (l : list string) (x : string) :
  Js.includes l x = true <-> In x l.
Proof.
  unfold Js.includes. rewrite existsb_exists. split.
  - intros (y & Hy & E). apply String.eqb_eq in E. subst. exact Hy.
  - intros H. exists x. split; [exact H|apply String.eqb_refl].
Qed.

Lemma setAdd_In (name n : string) (s : list string) :
  In n (ImportsImpl.setAdd name s) <-> n = name \/ In n s.
Proof.
  unfold ImportsImpl.setAdd. destruct (Js.includes s name) eqn:E.
  - apply includes_In in E. split; [auto|]. intros [->|H]; assumption.
  - rewrite in_app_iff. simpl. intuition congruence.
Qed.

Lemma setAdd_idempotent (name : string) (s : list string) :
  ImportsImpl.setAdd name (ImportsImpl.setAdd name s) = ImportsImpl.setAdd name s.
Proof.
  assert (H : Js.includes (ImportsImpl.setAdd name s) name = true).
  { apply includes_In, setAdd_In. auto. }
  unfold ImportsImpl.setAdd at 1. rewrite H. reflexivity.
Qed.



Lemma addGlobal_again (file name : string) (isDefault : bool) (this st : Imports) :
  ImportsImpl.addGlobal file name isDefault this = Ok (tt, st) ->
  ImportsImpl.addGlobal file name isDefault st = Ok (tt, st).
Proof.
  unfold ImportsImpl.addGlobal.
  fold (entryOf file this).
  destruct isDefault; simpl negb; cbv iota.
  - destruct (Js.truthy (def (entryOf file this))) eqn:T.
    + destruct (negb (Js.show (def (entryOf file this)) =? name)) eqn:N;
        [discriminate|].
      intros [= <-]. cbn [imports folder].
      rewrite lookup_store_same, T, N, store_store. reflexivity.
    + intros [= <-]. cbn [imports folder].
      rewrite lookup_store_same. cbn [def named].
      destruct name as [|c name]; simpl Js.truthy; cbv iota.
      * rewrite store_store. reflexivity.
      * simpl Js.show. rewrite String.eqb_refl. simpl negb. cbv iota.
        rewrite store_store. reflexivity.
  - intros [= <-]. cbn [imports folder].
    rewrite lookup_store_same. cbn [def named].
    rewrite setAdd_idempotent, store_store. reflexivity.
Qed.

Lemma addGlobal_folder (file name : string) (isDefault : bool) (this st : Imports) :
  ImportsImpl.addGlobal file name isDefault this = Ok (tt, st) ->
  folder st = folder this.
Proof.
  unfold ImportsImpl.addGlobal.
  destruct (negb isDefault); [intros [= <-]; reflexivity|].
  destruct (Js.truthy _); [|intros [= <-]; reflexivity].
  destruct (negb _); [discriminate|intros [= <-]; reflexivity].
Qed.

(** X4: a registration that returned, made again on the state it left,
    returns that same state, through [addGlobal] and through [addLocal]. *)
Theorem registering_twice_changes_nothing :
  forall (target : ImportFolder) (file name : string) (isDefault : bool)
         (this st : Imports),
    (ImportsImpl.addGlobal file name isDefault this = Ok (tt, st) ->
     ImportsImpl.addGlobal file name isDefault st = Ok (tt, st))
    /\ (ImportsImpl.addLocal target file name isDefault this = Ok (tt, st) ->
        ImportsImpl.addLocal target file name isDefault st = Ok (tt, st)).
Proof.
  intros target file name isDefault this st. split.
  - apply addGlobal_again.
  - unfold ImportsImpl.addLocal. intros H.
    rewrite (addGlobal_folder _ _ _ this st H).
    apply (addGlobal_again _ _ _ this). exact H.
Qed.

Lemma registering_twice_changes_nothing_witness :
  ImportsImpl.addLocal None "type-utils" "validate" false
    (mkImports (Some api) [("../type-utils", mkEntry None ["validate"])])
  = Ok (tt, mkImports (Some api) [("../type-utils", mkEntry None ["validate"])]).
Proof.
  apply (proj2 (registering_twice_changes_nothing None "type-utils" "validate"
                  false (mkImports (Some api) []) _)).
  reflexivity.
Defined.

(** X5: [addGlobal] for a default import throws exactly when the file
    already has a non-empty alias that differs from the name, and then with
    the message [Default import already specified]. *)
Theorem default_import_conflict :
  forall (file name : string) (this : Imports) (e : exn),
    ImportsImpl.addGlobal file name true this = Raise e
    <-> (e = Thrown "Default import already specified"
         /\ exists d, def (entryOf file this) = Some d
                      /\ d <> EmptyString /\ d <> name).
Proof.
  intros file name this e. unfold ImportsImpl.addGlobal.
  fold (entryOf file this). simpl negb. cbv iota.
  destruct (def (entryOf file this)) as [[|c d]|]; simpl Js.truthy; cbv iota.
  - split; [discriminate|]. intros (_ & d & [= <-] & Hd & _). congruence.
  - simpl Js.show. destruct (String.eqb_spec (String c d) name) as [E|E]; simpl.
    + split; [discriminate|]. intros (_ & d' & [= <-] & _ & Hd). congruence.
    + split.
      * intros [= <-]. split; [reflexivity|].
        exists (String c d). repeat split; congruence.
      * intros (-> & _). reflexivity.
  - split; [discriminate|]. intros (_ & d & Hd & _). discriminate.
Qed.

Lemma default_import_conflict_witness :
  ImportsImpl.addGlobal "bignumber.js" "BigNumber" true
    (mkImports (Some model) [("bignumber.js", mkEntry (Some "Big") [])])
  = Raise (Thrown "Default import already specified").
Proof.
  apply (proj2 (default_import_conflict "bignumber.js" "BigNumber"
                  (mkImports (Some model) [("bignumber.js", mkEntry (Some "Big") [])])
                  (Thrown "Default import already specified"))).
  split; [reflexivity|]. exists "Big". repeat split; discriminate.
Defined.

(** ** Imports are only added *)

Lemma entryKept_refl (e : ImportEntry) : entryKept e e.
Proof. split; [reflexivity|apply incl_refl]. Qed.

Lemma grows_refl (a : Imports) : grows a a.
Proof.
  split; [reflexivity|]. intros file e H. exists e.
  split; [exact H|apply entryKept_refl].
Qed.

Lemma grows_trans (a b c : Imports) : grows a b -> grows b c -> grows a c.
Proof.
  intros [Fab Hab] [Fbc Hbc]. split; [congruence|].
  intros file e H.
  destruct (Hab _ _ H) as (e1 & H1 & [D1 N1]).
  destruct (Hbc _ _ H1) as (e2 & H2 & [D2 N2]).
  exists e2. split; [exact H2|]. split.
  - intros T. rewrite D2; [exact (D1 T)|]. rewrite (D1 T). exact T.
  - eapply incl_tran; eassumption.
Qed.

Lemma store_grows (file : string) (e : ImportEntry) (this : Imports) :
  entryKept (entryOf file this) e ->
  grows this (mkImports (folder this) (ImportsImpl.store file e (imports this))).
Proof.
  intros K. split; [reflexivity|]. intros f e0 H. cbn [imports].
  destruct (String.eqb_spec f file) as [->|Hne].
  - exists e. split; [apply lookup_store_same|].
    unfold entryOf in K. rewrite H in K. exact K.
  - exists e0. split; [|apply entryKept_refl].
    rewrite lookup_store_other by exact Hne. exact H.
Qed.

Lemma addGlobal_grows (file name : string) (isDefault : bool) :
  onlyAdds (ImportsImpl.addGlobal file name isDefault).
Proof.
  intros this [] st. unfold ImportsImpl.addGlobal. fold (entryOf file this).
  destruct isDefault; simpl negb; cbv iota.
  - destruct (Js.truthy (def (entryOf file this))) eqn:T.
    + destruct (negb _); [discriminate|]. intros [= <-].
      apply store_grows, entryKept_refl.
    + intros [= <-]. apply store_grows. split; [|apply incl_refl].
      rewrite T. discriminate.
  - intros [= <-]. apply store_grows. split; [reflexivity|].
    intros n Hn. apply setAdd_In. auto.
Qed.

Lemma addLocal_grows (target : ImportFolder) (file name : string)
    (isDefault : bool) :
  onlyAdds (ImportsImpl.addLocal target file name isDefault).
Proof.
  intros this a st. unfold ImportsImpl.addLocal. apply addGlobal_grows.
Qed.

Lemma addValidate_grows (name : string) : onlyAdds (ImportsImpl.addValidate name).
Proof. apply addLocal_grows. Qed.

Lemma onlyAdds_ret {A} (a : A) : onlyAdds (ret a).
Proof. intros st a' st' [= _ <-]. apply grows_refl. Qed.

Lemma onlyAdds_throw {A} (message : string) : onlyAdds (@throw A message).
Proof. intros st a st' H. discriminate H. Qed.

Lemma onlyAdds_lift {A} (r : result A) : onlyAdds (lift r).
Proof.
  intros st a st' H. apply lift_Ok in H as [_ ->]. apply grows_refl.
Qed.

Lemma onlyAdds_bind {A B} (m : M A) (k : A -> M B) :
  onlyAdds m -> (forall a, onlyAdds (k a)) -> onlyAdds (bind m k).
Proof.
  intros Hm Hk st b st' H. invert_bind H as a st1 H1 H2.
  eapply grows_trans; [eapply Hm|eapply Hk]; eassumption.
Qed.

Lemma onlyAdds_mapM {A B} (f : A -> M B) (l : list A) :
  Forall (fun x => onlyAdds (f x)) l -> onlyAdds (mapM f l).
Proof.
  induction 1 as [|x l Hx _ IH]; simpl.
  - apply onlyAdds_ret.
  - apply onlyAdds_bind; [exact Hx|]. intros y.
    apply onlyAdds_bind; [exact IH|]. intros ys. apply onlyAdds_ret.
Qed.

(** Solves [onlyAdds m] for a computation built from the registrations. *)
Ltac only_adds :=
  repeat first
    [ apply onlyAdds_ret
    | apply onlyAdds_throw
    | apply onlyAdds_lift
    | apply addValidate_grows
    | apply addLocal_grows
    | apply addGlobal_grows
    | assumption
    | apply onlyAdds_bind; [|intros ?]
    | progress cbv zeta
    | match goal with
      | |- onlyAdds (if ?b then _ else _) => destruct b
      | |- onlyAdds (match ?x with _ => _ end) => destruct x
      end ].

Lemma wellBehaved_throw (message : string) : wellBehaved (throw message).
Proof. intros st t st' H. discriminate H. Qed.

Lemma wellBehaved_ret (t : RuntimeType) :
  descriptorOnlyAdds t -> wellBehaved (ret t).
Proof. intros H st t' st' [= <- <-]. split; [apply grows_refl|exact H]. Qed.

Lemma wellBehaved_after {A} (m : M A) (k : A -> M RuntimeType) :
  onlyAdds m -> (forall a, wellBehaved (k a)) -> wellBehaved (bind m k).
Proof.
  intros Hm Hk st t st' H. invert_bind H as a st1 H1 H2.
  destruct (Hk _ _ _ _ H2) as [G D]. split; [|exact D].
  eapply grows_trans; [eapply Hm|]; eassumption.
Qed.

Lemma wellBehaved_then (m : M RuntimeType) (k : RuntimeType -> M RuntimeType) :
  wellBehaved m ->
  (forall t, descriptorOnlyAdds t -> wellBehaved (k t)) ->
  wellBehaved (bind m k).
Proof.
  intros Hm Hk st t st' H. invert_bind H as a st1 H1 H2.
  destruct (Hm _ _ _ H1) as [G1 D1].
  destruct (Hk _ D1 _ _ _ H2) as [G D]. split; [|exact D].
  eapply grows_trans; eassumption.
Qed.

Section ResolverGrowth.
Import RuntimeTypeImpl.
Variable enumTypes : list string.

Lemma stringFromJson_grows (format : option string) (minLength maxLength : option Z)
    (context : string) :
  onlyAdds (stringFromJson format minLength maxLength context).
Proof. unfold stringFromJson. only_adds. Qed.

Lemma referenceType_grows (ident : Identifier) (context : string) :
  descriptorOnlyAdds (referenceType enumTypes ident context).
Proof.
  unfold referenceType, descriptorOnlyAdds.
  destruct (Js.includes enumTypes (upperCamel ident));
    cbn [fromJson fromJsonParam toJson]; (split; [|split]); only_adds.
Qed.

Lemma unionType_grows (inner : list RuntimeType) :
  Forall descriptorOnlyAdds inner -> descriptorOnlyAdds (unionType inner).
Proof.
  intros H. unfold unionType, descriptorOnlyAdds.
  cbn [fromJson fromJsonParam toJson].
  (split; [|split]); only_adds; apply onlyAdds_mapM;
    (eapply Forall_impl; [|exact H]); intros t (D1 & D2 & D3); assumption.
Qed.

Lemma mapType_grows (inner : RuntimeType) (context : string) :
  descriptorOnlyAdds inner -> descriptorOnlyAdds (mapType inner context).
Proof.
  intros (D1 & D2 & D3). unfold mapType, descriptorOnlyAdds.
  cbn [fromJson fromJsonParam toJson]. (split; [|split]); only_adds.
Qed.

Lemma arrayType_grows (inner : RuntimeType) :
  descriptorOnlyAdds inner -> descriptorOnlyAdds (arrayType inner).
Proof.
  intros (D1 & D2 & D3). unfold arrayType, descriptorOnlyAdds.
  cbn [fromJson fromJsonParam toJson]. (split; [|split]); only_adds.
Qed.

Lemma providers_grow :
  wellBehaved BOOLEAN /\ wellBehaved NUMBER /\ wellBehaved INTEGER
  /\ wellBehaved BIG_NUMBER /\ wellBehaved BIG_INTEGER
  /\ wellBehaved DATE /\ wellBehaved DATE_TIME.
Proof.
  unfold BOOLEAN, NUMBER, INTEGER, BIG_NUMBER, BIG_INTEGER, DATE, DATE_TIME.
  repeat match goal with |- _ /\ _ => split end;
    repeat (apply wellBehaved_after; [apply addGlobal_grows|intros _]);
    apply wellBehaved_ret; unfold descriptorOnlyAdds;
    cbn [fromJson fromJsonParam toJson]; (split; [|split]); only_adds.
Qed.

Lemma stringCase_grows (schema : Schema) (context : string) (props : list string) :
  wellBehaved (stringCase schema context props).
Proof.
  unfold stringCase. destruct (size _); [apply wellBehaved_throw|].
  apply wellBehaved_ret. unfold descriptorOnlyAdds.
  cbn [fromJson fromJsonParam toJson].
  (split; [|split]); apply stringFromJson_grows.
Qed.

Lemma mapMFrom_grows (f : Schema -> nat -> M RuntimeType) (l : list Schema) :
  (forall x i, In x l -> wellBehaved (f x i)) ->
  forall i st inner st',
    mapMFrom f l i st = Ok (inner, st') ->
    grows st st' /\ Forall descriptorOnlyAdds inner.
Proof.
  induction l as [|x l IH]; intros Hf i st inner st' H.
  - injection H as <- <-. split; [apply grows_refl|constructor].
  - rewrite mapMFrom_cons in H.
    invert_bind H as y st1 H1 H2. invert_bind H2 as ys st2 H2 H3.
    injection H3 as <- <-.
    destruct (Hf x i (or_introl eq_refl) _ _ _ H1) as [G1 D1].
    destruct (IH (fun x i Hx => Hf x i (or_intror Hx)) _ _ _ _ H2) as [G2 D2].
    split; [eapply grows_trans; eassumption|constructor; assumption].
Qed.

Lemma body_grows (self : Schema -> string -> M RuntimeType) (schema : Schema) :
  (forall p c, child schema p = Some c -> forall context, wellBehaved (self c context)) ->
  forall context, wellBehaved (getRuntimeTypeBody enumTypes self schema context).
Proof.
  intros Hself context.
  destruct providers_grow as (PB & PN & PI & PBN & PBI & PD & PDT).
  unfold getRuntimeTypeBody.
  destruct (isReference schema).
  { destruct (size _); [apply wellBehaved_throw|].
    destruct (execRef _); [|apply wellBehaved_throw].
    apply wellBehaved_after; [apply onlyAdds_lift|intros ident].
    apply wellBehaved_after; [apply addLocal_grows|intros _].
    apply wellBehaved_ret, referenceType_grows. }
  destruct (oneOf schema) as [branches|] eqn:Eone.
  { destruct (size _); [apply wellBehaved_throw|].
    intros st t st' H. invert_bind H as inner st1 H1 H2.
    injection H2 as <- <-.
    apply mapMFrom_grows in H1.
    - destruct H1 as [G D]. split; [exact G|apply unionType_grows, D].
    - intros x i Hx. destruct (In_nth_error _ _ Hx) as (n & Hn).
      apply (Hself (Branch n)). simpl. rewrite Eone. exact Hn. }
  destruct (strictEq (type schema) "string").
  { destruct (format schema) as [f|]; [|apply stringCase_grows].
    destruct (_ || _); [apply stringCase_grows|].
    destruct (f =? "date").
    { destruct (size _); [apply wellBehaved_throw|exact PD]. }
    destruct (f =? "date-time").
    { destruct (size _); [apply wellBehaved_throw|exact PDT]. }
    apply wellBehaved_throw. }
  destruct (strictEq (type schema) "boolean").
  { destruct (size _); [apply wellBehaved_throw|exact PB]. }
  destruct (strictEq (type schema) "integer" || strictEq (type schema) "number").
  { destruct (strictEq (format schema) "big");
      destruct (strictEq (type schema) "integer");
      destruct (size _); try apply wellBehaved_throw; assumption. }
  destruct (strictEq (type schema) "object").
  { destruct (size _); [apply wellBehaved_throw|].
    destruct (additionalProperties schema) as [[b|value]|] eqn:Eap;
      try apply wellBehaved_throw.
    apply wellBehaved_then.
    - apply (Hself AdditionalProperties). simpl. rewrite Eap. reflexivity.
    - intros t D. apply wellBehaved_ret, mapType_grows, D. }
  destruct (strictEq (type schema) "array").
  { destruct (size _); [apply wellBehaved_throw|].
    destruct (items schema) as [item|] eqn:Eit; [|apply wellBehaved_throw].
    apply wellBehaved_then.
    - apply (Hself Items). simpl. exact Eit.
    - intros t D. apply wellBehaved_ret, arrayType_grows, D. }
  apply wellBehaved_throw.
Qed.

End ResolverGrowth.

(** Induction on a schema through its positions. *)
Lemma Schema_children_ind (P : Schema -> Prop) :
  (forall s, (forall p c, child s p = Some c -> P c) -> P s) ->
  forall s, P s.
Proof.
  intros H. fix IH 1. intros [ks r o t f mn mx ap it]. apply H.
  intros p c. destruct p as [i| |]; simpl.
  - destruct o as [bs|]; [|discriminate]. revert i.
    induction bs as [|b bs IHbs]; intros [|i]; simpl; try discriminate.
    + intros [= <-]. apply IH.
    + apply IHbs.
  - destruct it as [i|]; [|discriminate]. intros [= <-]. apply IH.
  - destruct ap as [[b|v]|]; try discriminate. intros [= <-]. apply IH.
Qed.

(** X6: when [getRuntimeType] returns, the import set holds all it held
    before (same folder, every entry with its alias and names), and each of
    the three generators of the returned descriptor, whenever it returns,
    has only added imports as well. *)
Theorem resolving_only_adds_imports :
  forall (enumTypes : list string) (schema : Schema) (context : string)
         (st st' : Imports) (t : RuntimeType),
    RuntimeTypeImpl.getRuntimeType enumTypes schema context st = Ok (t, st') ->
    grows st st' /\ descriptorOnlyAdds t.
Proof.
  intros enumTypes schema. induction schema as [schema IH] using Schema_children_ind.
  intros context st st' t H. rewrite getRuntimeType_unfold in H.
  revert H. apply body_grows. intros p c Hc context' s1 t1 s2 H1.
  eapply IH; eassumption.
Qed.

(** ** The resolver: what it refuses *)

Lemma resolving_only_adds_imports_witness :
  exists (t : RuntimeType) (st' : Imports),
    RuntimeTypeImpl.getRuntimeType [] Cases.date "Pet.born" Cases.withLuxon
    = Ok (t, st')
    /\ grows Cases.withLuxon st' /\ descriptorOnlyAdds t.
Proof.
  eexists. eexists. split; [vm_compute; reflexivity|].
  apply (resolving_only_adds_imports [] Cases.date "Pet.born").
  vm_compute. reflexivity.
Defined.

Section ResolverErrors.
Import RuntimeTypeImpl.
Variable enumTypes : list string.

Lemma size_true (props : list string) : props <> [] -> size props = true.
Proof. destruct props; [congruence|reflexivity]. Qed.

Lemma stripPrefix_spec (prefix s rest : string) :
  stripPrefix prefix s = Some rest -> s = prefix ++ rest.
Proof.
  revert s. induction prefix as [|p prefix IH]; intros s; simpl.
  - intros [= ->]. reflexivity.
  - destruct s as [|c s]; [discriminate|].
    destruct (Ascii.eqb_spec p c) as [->|]; [|discriminate].
    intros H. rewrite (IH _ H). reflexivity.
Qed.

Lemma execRef_spec (r name : string) :
  execRef r = Some name
  <-> r = "#/components/schemas/" ++ name /\ Js.isWordString name = true.
Proof.
  unfold execRef. split.
  - destruct (stripPrefix _ r) as [n|] eqn:E; [|discriminate].
    destruct (Js.isWordString n) eqn:W; [|discriminate].
    intros [= <-]. split; [apply stripPrefix_spec, E|exact W].
  - intros [-> W]. rewrite stripPrefix_app, W. reflexivity.
Qed.

(** X7: a reference with any key besides [$ref] is refused with the list of
    those keys; a reference with no other key whose pointer is not
    [#/components/schemas/] followed by a word is refused with the pointer;
    any other reference resolves to the descriptor of the named schema after
    registering its type from the model folder. *)
Theorem reference_resolution :
  forall (schema : Schema) (context : string) (st : Imports),
    isReference schema = true ->
    (delete "$ref" (keys schema) <> [] ->
     getRuntimeType enumTypes schema context st
     = Raise (Thrown (unexpectedProperties "schema reference" context
                        (delete "$ref" (keys schema)))))
    /\ (delete "$ref" (keys schema) = [] ->
        (forall name, Js.isWordString name = true ->
                      ref schema <> Some ("#/components/schemas/" ++ name)) ->
        getRuntimeType enumTypes schema context st
        = Raise (malformedReference schema))
    /\ (forall name,
          delete "$ref" (keys schema) = [] ->
          ref schema = Some ("#/components/schemas/" ++ name) ->
          Js.isWordString name = true ->
          exists ident st',
            IdentifierImpl.fromCamel name = Ok ident
            /\ ImportsImpl.addLocal (Some model) (kebab ident) (upperCamel ident)
                 false st = Ok (tt, st')
            /\ getRuntimeType enumTypes schema context st
               = Ok (referenceType enumTypes ident context, st')).
Proof.
  intros schema context st Href. split; [|split].
  - intros Hkeys. rewrite getRuntimeType_unfold. unfold getRuntimeTypeBody.
    rewrite Href, (size_true _ Hkeys). reflexivity.
  - intros Hkeys Hform. rewrite getRuntimeType_unfold. unfold getRuntimeTypeBody.
    rewrite Href, Hkeys. cbv beta iota delta [size].
    destruct (execRef (Js.show (ref schema))) as [name|] eqn:E; [|reflexivity].
    apply execRef_spec in E as [E W]. exfalso.
    destruct (ref schema) as [r|] eqn:Er.
    + apply (Hform name W).
      change (r = "#/components/schemas/" ++ name) in E. rewrite E. reflexivity.
    + simpl in E. discriminate E.
  - intros name Hkeys Hptr W.
    destruct (fromCamel_word name W) as (ident & Hident).
    destruct (addLocal_named (Some model) (kebab ident) (upperCamel ident) st)
      as (st' & Hadd).
    exists ident, st'. split; [exact Hident|]. split; [exact Hadd|].
    rewrite getRuntimeType_unfold. unfold getRuntimeTypeBody.
    rewrite Href, Hkeys, Hptr.
    change (Js.show (Some ("#/components/schemas/" ++ name)))
      with ("#/components/schemas/" ++ name).
    rewrite (proj2 (execRef_spec _ name) (conj eq_refl W)).
    cbv beta iota delta [size].
    unfold lift, bind. rewrite Hident, Hadd. reflexivity.
Qed.

Lemma strictEq_false (x : option string) (s : string) :
  (forall t, x = Some t -> t <> s) -> strictEq x s = false.
Proof.
  intros H. destruct x as [t|]; [|reflexivity].
  simpl. apply String.eqb_neq. apply H. reflexivity.
Qed.

(** X8: a schema that is neither a reference nor a [oneOf] and whose [type]
    is absent or none of [string], [boolean], [integer], [number], [object],
    [array] is refused with [Unexpected type '<type>' of '<context>'], whatever
    its other keys. *)
Theorem unknown_type_rejected :
  forall (schema : Schema) (context : string) (st : Imports),
    isReference schema = false ->
    oneOf schema = None ->
    (forall t, type schema = Some t -> ~ In t knownTypes) ->
    getRuntimeType enumTypes schema context st
    = Raise (unexpectedType schema context).
Proof.
  intros schema context st Href Hone Htype.
  rewrite getRuntimeType_unfold. unfold getRuntimeTypeBody.
  rewrite Href, Hone.
  assert (Hno : forall s, In s knownTypes -> strictEq (type schema) s = false).
  { intros s Hs. apply strictEq_false. intros t Ht E. subst t.
    exact (Htype s Ht Hs). }
  rewrite (Hno "string"), (Hno "boolean"), (Hno "integer"), (Hno "number"),
    (Hno "object"), (Hno "array") by (simpl; auto 10).
  reflexivity.
Qed.

Lemma delete_In (k x : string) (props : list string) :
  In x (delete k props) <-> In x props /\ x <> k.
Proof.
  unfold delete. rewrite filter_In, negb_true_iff, String.eqb_neq. reflexivity.
Qed.

(** X9: a schema of type [integer] or [number] with any key besides
    [description] and [type] is refused, a [format] included unless it is
    [big]; the message lists the keys that are left. *)
Theorem number_keys_rejected :
  forall (schema : Schema) (context t k : string) (st : Imports),
    plainOfType schema t ->
    t = "integer" \/ t = "number" ->
    In k (otherKeys schema) ->
    (k = "format" -> format schema <> Some "big") ->
    In k (numberKeys schema)
    /\ getRuntimeType enumTypes schema context st
       = Raise (Thrown (unexpectedProperties (t ++ " schema") context
                          (numberKeys schema))).
Proof.
  intros schema context t k st (Href & Hone & Htype) Hnum Hk Hformat.
  assert (Hin : In k (numberKeys schema)).
  { unfold numberKeys. destruct (strictEq (format schema) "big") eqn:Ebig;
      [|exact Hk].
    apply delete_In. split; [exact Hk|]. intros ->.
    apply Hformat; [reflexivity|].
    destruct (format schema) as [f|]; [|discriminate].
    simpl in Ebig. apply String.eqb_eq in Ebig. congruence. }
  split; [exact Hin|].
  rewrite getRuntimeType_unfold. unfold getRuntimeTypeBody.
  rewrite Href, Hone, Htype. fold (otherKeys schema).
  assert (Hbranch : strictEq (Some t) "string" = false
                    /\ strictEq (Some t) "boolean" = false
                    /\ (strictEq (Some t) "integer" || strictEq (Some t) "number")
                       = true).
  { destruct Hnum as [-> | ->]; repeat split. }
  destruct Hbranch as (-> & -> & ->).
  change (Js.show (Some t)) with t.
  unfold numberKeys in *.
  destruct (strictEq (format schema) "big");
    (rewrite size_true; [reflexivity|]);
    intros E; rewrite E in Hin; exact Hin.
Qed.

(** X10: the descriptor of a map (type [object]) is named
    [ReadonlyMap<string, T>] after the descriptor of its value, resolved under
    the context extended by [.additionalProperties], and its [fromJsonParam]
    throws [Unexpected map parameter '<context>']. *)
Theorem map_never_a_parameter :
  forall (schema : Schema) (context : string) (st st' : Imports) (t : RuntimeType),
    plainOfType schema "object" ->
    getRuntimeType enumTypes schema context st = Ok (t, st') ->
    (forall st2,
       fromJsonParam t st2
       = Raise (Thrown ("Unexpected map parameter '" ++ context ++ "'")))
    /\ exists value inner st1,
         additionalProperties schema = Some (inr value)
         /\ getRuntimeType enumTypes value (context ++ ".additionalProperties") st
            = Ok (inner, st1)
         /\ typeName t = "ReadonlyMap<string, " ++ typeName inner ++ ">".
Proof.
  intros schema context st st' t (Href & Hone & Htype).
  rewrite getRuntimeType_unfold. unfold getRuntimeTypeBody.
  rewrite Href, Hone, Htype.
  change (strictEq (Some "object") "string") with false.
  change (strictEq (Some "object") "boolean") with false.
  change (strictEq (Some "object") "integer") with false.
  change (strictEq (Some "object") "number") with false.
  change (strictEq (Some "object") "object") with true.
  cbv beta iota delta [orb].
  destruct (size _); [discriminate|].
  destruct (additionalProperties schema) as [[b|value]|]; try discriminate.
  intros H. invert_bind H as inner st1 H1 H2. injection H2 as <- <-.
  split; [intros st2; reflexivity|]. exists value, inner, st1. auto.
Qed.


End ResolverErrors.

Lemma reference_resolution_witness :
  RuntimeTypeImpl.getRuntimeType [] Cases.describedReference "Owner.pet"
    (mkImports (Some model) [])
  = Raise (Thrown "Unexpected properties of schema reference 'Owner.pet': description")
  /\ RuntimeTypeImpl.getRuntimeType [] Cases.foreignReference "Owner.pet"
       (mkImports (Some model) [])
     = Raise (Thrown "Expected ref to be of form /^#\/components\/schemas\/(\w+)$/, but found: #/definitions/Pet").
Proof.
  split.
  - apply (proj1 (reference_resolution [] Cases.describedReference "Owner.pet"
                    (mkImports (Some model) []) eq_refl)).
    discriminate.
  - apply (proj1 (proj2 (reference_resolution [] Cases.foreignReference "Owner.pet"
                           (mkImports (Some model) []) eq_refl)));
      [reflexivity|].
    intros name _. discriminate.
Defined.

Lemma unknown_type_rejected_witness :
  RuntimeTypeImpl.getRuntimeType [] Cases.untyped "Pet.extra"
    (mkImports (Some model) [])
  = Raise (Thrown "Unexpected type 'undefined' of 'Pet.extra'").
Proof.
  apply (unknown_type_rejected [] Cases.untyped); [reflexivity|reflexivity|].
  intros t H. discriminate H.
Defined.

Lemma number_keys_rejected_witness :
  In "format" (numberKeys Cases.int32)
  /\ RuntimeTypeImpl.getRuntimeType [] Cases.int32 "Pet.age"
       (mkImports (Some model) [])
     = Raise (Thrown "Unexpected properties of integer schema 'Pet.age': format").
Proof.
  apply (number_keys_rejected [] Cases.int32 "Pet.age" "integer" "format").
  - repeat split.
  - left. reflexivity.
  - simpl. left. reflexivity.
  - intros _. discriminate.
Defined.

Lemma map_never_a_parameter_witness :
  exists (t : RuntimeType) (st' : Imports),
    RuntimeTypeImpl.getRuntimeType [] (Sample.map Sample.plainString) "find.query.filter"
      (mkImports (Some api) [])
    = Ok (t, st')
    /\ fromJsonParam t st'
       = Raise (Thrown "Unexpected map parameter 'find.query.filter'").
Proof.
  eexists. eexists. split; [vm_compute; reflexivity|].
  apply (proj1 (map_never_a_parameter [] (Sample.map Sample.plainString)
                  "find.query.filter" (mkImports (Some api) [])
                  (mkImports (Some api) []) _
                  (conj eq_refl (conj eq_refl eq_refl)) eq_refl)).
Defined.


(** X27: a schema of type [string] whose [format] is none of [email],
    [password], [uuid], [date], [date-time] is refused with
    [Unexpected string format '<format>' of '<context>'], whatever its other
    keys. *)
Theorem unknown_string_format_rejected :
  forall (enumTypes : list string) (schema : Schema) (context f : string)
         (st : Imports),
    plainOfType schema "string" ->
    format schema = Some f ->
    ~ In f ["email"; "password"; "uuid"; "date"; "date-time"] ->
    RuntimeTypeImpl.getRuntimeType enumTypes schema context st
    = Raise (Thrown ("Unexpected string format '" ++ f ++ "' of '" ++ context ++ "'")).
Proof.
  intros enumTypes schema context f st (Href & Hone & Htype) Hformat Hnot.
  rewrite getRuntimeType_unfold. unfold RuntimeTypeImpl.getRuntimeTypeBody.
  rewrite Href, Hone, Htype, Hformat.
  change (RuntimeTypeImpl.strictEq (Some "string") "string") with true. cbv iota.
  assert (Hno : forall s, In s ["email"; "password"; "uuid"; "date"; "date-time"] ->
                          (f =? s) = false).
  { intros s Hs. apply String.eqb_neq. intros ->. exact (Hnot Hs). }
  rewrite (Hno "email"), (Hno "password"), (Hno "uuid"), (Hno "date"),
    (Hno "date-time") by (simpl; auto 10).
  reflexivity.
Qed.

Lemma unknown_string_format_rejected_witness :
  RuntimeTypeImpl.getRuntimeType [] Sample.binaryString "Pet.photo"
    (mkImports (Some model) [])
  = Raise (Thrown "Unexpected string format 'binary' of 'Pet.photo'").
Proof.
  apply (unknown_string_format_rejected [] Sample.binaryString "Pet.photo" "binary").
  - repeat split.
  - reflexivity.
  - simpl. intros [H|[H|[H|[H|[H|[]]]]]]; discriminate H.
Defined.

(** ** The extractor: what it stores *)

Section ExtractorMore.
Import Extractor.

Lemma foldM_ext {A B} (f g : B -> A -> result B) (l : list A) (acc : B) :
  (forall a x, In x l -> f a x = g a x) -> foldM f l acc = foldM g l acc.
Proof.
  revert acc. induction l as [|x l IH]; intros acc H; [reflexivity|].
  simpl. rewrite (H acc x (or_introl eq_refl)).
  destruct (g acc x) as [acc'|e]; [|reflexivity].
  simpl. apply IH. intros a y Hy. apply H. right. exact Hy.
Qed.

Lemma addPath_methodEntries (acc : ByTag) (urlString : string)
    (entries : list (string * OpenAPIOperation.t)) :
  addPath acc (urlString, entries) = addPath acc (urlString, methodEntries entries).
Proof.
  unfold addPath. cbn [fst snd]. revert acc.
  induction entries as [|[key op] entries IH]; intros acc; [reflexivity|].
  unfold methodEntries. cbn [filter fst].
  destruct (isHttpMethod (Js.toUpperCase key)) eqn:E.
  - cbn [map foldM fst snd].
    destruct (addOperation urlString (parseUrl urlString) acc (Js.toUpperCase key, op))
      as [acc'|e]; [|reflexivity].
    simpl rbind. apply IH.
  - cbn [map foldM fst snd]. unfold addOperation at 1. cbn [fst snd].
    rewrite E. simpl rbind. apply IH.
Qed.

(** X12: the extractor reads only the entries of a path item whose key, in
    upper case, is an HTTP method: dropping all other entries changes neither
    its result nor its error. *)
Theorem only_method_entries_count :
  forall (tags : list OpenAPITag.t)
         (paths : list (string * list (string * OpenAPIOperation.t))),
    operationsByTag tags paths = operationsByTag tags (methodsOnly paths).
Proof.
  intros tags paths. unfold operationsByTag.
  generalize (declaredTags tags) as acc.
  induction paths as [|[urlString entries] paths IH]; intros acc; [reflexivity|].
  cbn [methodsOnly map foldM fst snd].
  rewrite addPath_methodEntries.
  destruct (addPath acc (urlString, methodEntries entries)) as [acc'|e];
    [|reflexivity].
  simpl rbind. apply IH.
Qed.

Lemma store_In (name : string) (e : TagEntry.t) (o : ByTag) (n : string)
    (x : TagEntry.t) :
  In (n, x) (store name e o) -> (n, x) = (name, e) \/ In (n, x) o.
Proof.
  induction o as [|[k v] o IH]; simpl.
  - intros [H|[]]. left. symmetry. exact H.
  - destruct (String.eqb_spec k name) as [->|Hne]; simpl.
    + intros [H|H]; [left; symmetry; exact H|right; right; exact H].
    + intros [H|H]; [right; left; exact H|].
      destruct (IH H) as [E|E]; [left; exact E|right; right; exact E].
Qed.

Lemma lookup_In (name : string) (e : TagEntry.t) (o : ByTag) :
  lookup name o = Some e -> In (name, e) o.
Proof.
  induction o as [|[k v] o IH]; simpl; [discriminate|].
  destruct (String.eqb_spec k name) as [->|Hne].
  - intros [= ->]. left. reflexivity.
  - intros H. right. apply IH, H.
Qed.

Lemma tag_lookup_store_same (name : string) (e : TagEntry.t) (o : ByTag) :
  lookup name (store name e o) = Some e.
Proof.
  induction o as [|[k v] o IH]; simpl.
  - rewrite String.eqb_refl. reflexivity.
  - destruct (String.eqb k name) eqn:E; simpl; rewrite E; [reflexivity|exact IH].
Qed.

Lemma tag_lookup_store_other (name other : string) (e : TagEntry.t) (o : ByTag) :
  other <> name -> lookup other (store name e o) = lookup other o.
Proof.
  intros Hne. induction o as [|[k v] o IH]; simpl.
  - destruct (String.eqb_spec name other); [congruence|reflexivity].
  - destruct (String.eqb_spec k name) as [->|Hk]; simpl.
    + destruct (String.eqb_spec name other); [congruence|reflexivity].
    + rewrite IH. reflexivity.
Qed.

Lemma declaredTags_empty (tags : list OpenAPITag.t) (n : string) (e : TagEntry.t) :
  In (n, e) (declaredTags tags) -> TagEntry.operations e = [].
Proof.
  unfold declaredTags.
  assert (H : forall acc,
             (forall n e, In (n, e) acc -> TagEntry.operations e = []) ->
             forall n e,
               In (n, e)
                 (fold_left
                    (fun o tag =>
                       store (OpenAPITag.name tag)
                         (TagEntry.mk (OpenAPITag.description tag)
                            (OpenAPITag.externalDocs tag) []) o) tags acc) ->
               TagEntry.operations e = []).
  { induction tags as [|tag tags IH]; intros acc Hacc; [exact Hacc|].
    simpl. apply IH. intros k v Hin. apply store_In in Hin as [E|Hin].
    - injection E as _ ->. reflexivity.
    - eapply Hacc, Hin. }
  apply H. intros k v [].
Qed.

(** One method entry, once its tag is known. *)
Lemma addOperation_method (urlString key : string) (op : OpenAPIOperation.t)
    (acc acc' : ByTag) :
  isHttpMethod (Js.toUpperCase key) = true ->
  addOperation urlString (parseUrl urlString) acc (Js.toUpperCase key, op) = Ok acc' ->
  exists tagName,
    OpenAPIOperation.tags op = TagsArray [tagName]
    /\ acc' = store tagName
                (TagEntry.mk
                   (TagEntry.description
                      (match lookup tagName acc with
                       | Some tag => tag
                       | None => TagEntry.mk None None []
                       end))
                   (TagEntry.externalDocs
                      (match lookup tagName acc with
                       | Some tag => tag
                       | None => TagEntry.mk None None []
                       end))
                   (TagEntry.operations
                      (match lookup tagName acc with
                       | Some tag => tag
                       | None => TagEntry.mk None None []
                       end)
                    ++ [extended urlString key op]))
                acc.
Proof.
  intros Hm. unfold addOperation. cbn [fst snd]. rewrite Hm. simpl negb. cbv iota.
  destruct (OpenAPIOperation.tags op) as [|[|tagName [|]]|]; try discriminate.
  intros [= <-]. exists tagName. split; reflexivity.
Qed.

Section Sound.
Variable paths : list (string * list (string * OpenAPIOperation.t)).

Lemma addPath_sound (urlString : string)
    (entries : list (string * OpenAPIOperation.t)) :
  In (urlString, entries) paths ->
  forall (done rest : list (string * OpenAPIOperation.t)) (acc acc' : ByTag),
    entries = (done ++ rest)%list ->
    allExtracted paths acc ->
    foldM (addOperation urlString (parseUrl urlString))
      (map (fun kv => (Js.toUpperCase (fst kv), snd kv)) rest) acc = Ok acc' ->
    allExtracted paths acc'.
Proof.
  intros Hpath done rest. revert done.
  induction rest as [|[key op] rest IH]; intros done acc acc' Hsplit Hacc H.
  - injection H as <-. exact Hacc.
  - cbn [map foldM fst snd] in H.
    destruct (addOperation urlString (parseUrl urlString) acc (Js.toUpperCase key, op))
      as [acc1|e] eqn:E; [|discriminate].
    simpl rbind in H.
    apply (IH (done ++ [(key, op)])%list acc1 acc');
      [rewrite <- app_assoc; exact Hsplit| |exact H].
    destruct (isHttpMethod (Js.toUpperCase key)) eqn:Hm.
    + apply (addOperation_method _ _ _ _ _ Hm) in E as (tagName & Htags & ->).
      intros n e o Hin Ho. apply store_In in Hin as [Eq|Hin].
      * injection Eq as -> ->. cbn [TagEntry.operations] in Ho.
        apply in_app_or in Ho as [Ho|[<-|[]]].
        -- destruct (lookup tagName acc) as [tag|] eqn:L; [|destruct Ho].
           eapply Hacc; [apply lookup_In, L|exact Ho].
        -- exists urlString, entries, key, op.
           split; [exact Hpath|]. split; [|auto].
           rewrite Hsplit. apply in_or_app. right. left. reflexivity.
      * eapply Hacc; eassumption.
    + unfold addOperation in E. cbn [fst snd] in E. rewrite Hm in E.
      injection E as <-. exact Hacc.
Qed.

Lemma paths_sound (rest : list (string * list (string * OpenAPIOperation.t)))
    (acc acc' : ByTag) :
  incl rest paths ->
  allExtracted paths acc ->
  foldM addPath rest acc = Ok acc' ->
  allExtracted paths acc'.
Proof.
  revert acc. induction rest as [|[urlString entries] rest IH];
    intros acc Hincl Hacc H.
  - injection H as <-. exact Hacc.
  - cbn [foldM] in H.
    destruct (addPath acc (urlString, entries)) as [acc1|e] eqn:E; [|discriminate].
    simpl rbind in H. apply (IH acc1); [|  |exact H].
    + intros x Hx. apply Hincl. right. exact Hx.
    + unfold addPath in E. cbn [fst snd] in E.
      apply (addPath_sound urlString entries (Hincl _ (or_introl eq_refl))
               [] entries acc acc1 eq_refl Hacc E).
Qed.

End Sound.

(** X13: every operation the extractor stores under a tag stems from a method
    entry of the paths that names exactly this tag, with the key in upper case
    as its method and the parsed path as its url. *)
Theorem extracted_operations_sound :
  forall (tags : list OpenAPITag.t)
         (paths : list (string * list (string * OpenAPIOperation.t)))
         (byTag : ByTag),
    operationsByTag tags paths = Ok byTag ->
    forall tagName entry o,
      In (tagName, entry) byTag ->
      In o (TagEntry.operations entry) ->
      extractedFrom paths tagName o.
Proof.
  intros tags paths byTag H tagName entry o Hin Ho.
  unfold operationsByTag in H.
  apply (paths_sound paths paths (declaredTags tags) byTag (incl_refl _)) in H.
  - eapply H; eassumption.
  - intros n e x Hn Hx. rewrite (declaredTags_empty _ _ _ Hn) in Hx. destruct Hx.
Qed.

End ExtractorMore.

Section ExtractorComplete.
Import Extractor.

Lemma stored_after_store (acc : ByTag) (tagName n : string)
    (description externalDocs : option string) (o x : OperationExtended.t) :
  stored acc n o ->
  stored
    (store tagName
       (TagEntry.mk description externalDocs
          (TagEntry.operations
             (match lookup tagName acc with
              | Some tag => tag
              | None => TagEntry.mk None None []
              end) ++ [x])%list)
       acc) n o.
Proof.
  intros (entry & L & Hin). unfold stored.
  destruct (String.eqb_spec n tagName) as [->|Hne].
  - rewrite tag_lookup_store_same. eexists. split; [reflexivity|].
    cbn [TagEntry.operations]. rewrite L. apply in_or_app. left. exact Hin.
  - rewrite tag_lookup_store_other by exact Hne. exists entry. auto.
Qed.

Lemma addOperation_keeps (urlString : string) (url : Url.t) (acc acc' : ByTag)
    (x : string * OpenAPIOperation.t) (n : string) (o : OperationExtended.t) :
  addOperation urlString url acc x = Ok acc' ->
  stored acc n o -> stored acc' n o.
Proof.
  unfold addOperation. destruct (negb (isHttpMethod (fst x))).
  - intros [= <-] H. exact H.
  - destruct (OpenAPIOperation.tags (snd x)) as [|[|tagName [|]]|];
      try discriminate.
    intros [= <-] H. apply stored_after_store. exact H.
Qed.

Lemma operations_keep (urlString : string) (url : Url.t)
    (entries : list (string * OpenAPIOperation.t)) (acc acc' : ByTag)
    (n : string) (o : OperationExtended.t) :
  foldM (addOperation urlString url) entries acc = Ok acc' ->
  stored acc n o -> stored acc' n o.
Proof.
  revert acc. induction entries as [|x entries IH]; intros acc H Hs.
  - injection H as <-. exact Hs.
  - cbn [foldM] in H.
    destruct (addOperation urlString url acc x) as [acc1|e] eqn:E; [|discriminate].
    simpl rbind in H. apply (IH acc1 H). eapply addOperation_keeps; eassumption.
Qed.

Lemma paths_keep (paths : list (string * list (string * OpenAPIOperation.t)))
    (acc acc' : ByTag) (n : string) (o : OperationExtended.t) :
  foldM addPath paths acc = Ok acc' ->
  stored acc n o -> stored acc' n o.
Proof.
  revert acc. induction paths as [|path paths IH]; intros acc H Hs.
  - injection H as <-. exact Hs.
  - cbn [foldM] in H.
    destruct (addPath acc path) as [acc1|e] eqn:E; [|discriminate].
    simpl rbind in H. apply (IH acc1 H).
    unfold addPath in E. eapply operations_keep; eassumption.
Qed.

Lemma operations_store (urlString key : string) (op : OpenAPIOperation.t)
    (entries : list (string * OpenAPIOperation.t)) (acc acc' : ByTag) :
  In (key, op) entries ->
  isHttpMethod (Js.toUpperCase key) = true ->
  foldM (addOperation urlString (parseUrl urlString))
    (map (fun kv => (Js.toUpperCase (fst kv), snd kv)) entries) acc = Ok acc' ->
  exists tagName,
    OpenAPIOperation.tags op = TagsArray [tagName]
    /\ stored acc' tagName (extended urlString key op).
Proof.
  revert acc. induction entries as [|x entries IH]; intros acc Hin Hm H;
    [destruct Hin|].
  cbn [map foldM] in H.
  destruct (addOperation urlString (parseUrl urlString) acc
              (Js.toUpperCase (fst x), snd x)) as [acc1|e] eqn:E; [|discriminate].
  simpl rbind in H. destruct Hin as [->|Hin].
  - cbn [fst snd] in E.
    apply (addOperation_method _ _ _ _ _ Hm) in E as (tagName & Htags & ->).
    exists tagName. split; [exact Htags|].
    eapply operations_keep; [exact H|].
    unfold stored. rewrite tag_lookup_store_same. eexists. split; [reflexivity|].
    cbn [TagEntry.operations]. apply in_or_app. right. left. reflexivity.
  - apply (IH acc1 Hin Hm H).
Qed.

(** X14: when the extractor returns, every method entry of every path stands,
    without its tags, under the one tag it names. *)
Theorem extracted_operations_complete :
  forall (tags : list OpenAPITag.t)
         (paths : list (string * list (string * OpenAPIOperation.t)))
         (byTag : ByTag),
    operationsByTag tags paths = Ok byTag ->
    forall urlString entries key op,
      In (urlString, entries) paths ->
      In (key, op) entries ->
      isHttpMethod (Js.toUpperCase key) = true ->
      exists tagName,
        OpenAPIOperation.tags op = TagsArray [tagName]
        /\ stored byTag tagName (extended urlString key op).
Proof.
  intros tags paths byTag H urlString entries key op Hpath Hentry Hm.
  unfold operationsByTag in H. revert H. generalize (declaredTags tags) as acc.
  induction paths as [|path paths IH]; intros acc H; [destruct Hpath|].
  cbn [foldM] in H.
  destruct (addPath acc path) as [acc1|e] eqn:E; [|discriminate].
  simpl rbind in H. destruct Hpath as [->|Hpath].
  - unfold addPath in E. cbn [fst snd] in E.
    destruct (operations_store _ _ _ _ _ _ Hentry Hm E) as (tagName & Htags & Hs).
    exists tagName. split; [exact Htags|].
    eapply paths_keep; eassumption.
  - apply (IH Hpath acc1 H).
Qed.

Lemma store_keys_after (name : string) (e : TagEntry.t) (o : ByTag) :
  exists later, map fst (store name e o) = (map fst o ++ later)%list.
Proof.
  induction o as [|[k v] o (later & IH)]; simpl.
  - exists [name]. reflexivity.
  - destruct (String.eqb k name); simpl.
    + exists []. rewrite app_nil_r. reflexivity.
    + exists later. rewrite IH. reflexivity.
Qed.

Lemma addOperation_keys (urlString : string) (url : Url.t) (acc acc' : ByTag)
    (x : string * OpenAPIOperation.t) :
  addOperation urlString url acc x = Ok acc' ->
  exists later, map fst acc' = (map fst acc ++ later)%list.
Proof.
  unfold addOperation. destruct (negb (isHttpMethod (fst x))).
  - intros [= <-]. exists []. rewrite app_nil_r. reflexivity.
  - destruct (OpenAPIOperation.tags (snd x)) as [|[|tagName [|]]|];
      try discriminate.
    intros [= <-]. apply store_keys_after.
Qed.

Lemma foldM_keys {A} (f : ByTag -> A -> result ByTag) (l : list A) :
  (forall acc x acc', f acc x = Ok acc' ->
                      exists later, map fst acc' = (map fst acc ++ later)%list) ->
  forall acc acc',
    foldM f l acc = Ok acc' ->
    exists later, map fst acc' = (map fst acc ++ later)%list.
Proof.
  intros Hf. induction l as [|x l IH]; intros acc acc' H.
  - injection H as <-. exists []. rewrite app_nil_r. reflexivity.
  - cbn [foldM] in H. destruct (f acc x) as [acc1|e] eqn:E; [|discriminate].
    simpl rbind in H.
    destruct (Hf _ _ _ E) as (l1 & E1). destruct (IH _ _ H) as (l2 & E2).
    exists (l1 ++ l2)%list. rewrite E2, E1, app_assoc. reflexivity.
Qed.


End ExtractorComplete.

Example only_method_entries_run :
  Extractor.operationsByTag [] Paths.pets
  = Ok [("Pets", TagEntry.mk None None [extended "/pets" "get" Paths.listOperation])].
Proof. vm_compute. reflexivity. Qed.

Lemma extracted_operations_sound_witness :
  extractedFrom Paths.pets "Pets" (extended "/pets" "get" Paths.listOperation).
Proof.
  apply (extracted_operations_sound [] Paths.pets
           [("Pets", TagEntry.mk None None
                       [extended "/pets" "get" Paths.listOperation])]
           only_method_entries_run "Pets"
           (TagEntry.mk None None [extended "/pets" "get" Paths.listOperation])).
  - left. reflexivity.
  - left. reflexivity.
Defined.

Lemma extracted_operations_complete_witness :
  exists tagName,
    OpenAPIOperation.tags Paths.listOperation = TagsArray [tagName]
    /\ stored
         [("Pets", TagEntry.mk None None [extended "/pets" "get" Paths.listOperation])]
         tagName (extended "/pets" "get" Paths.listOperation).
Proof.
  apply (extracted_operations_complete [] Paths.pets _ only_method_entries_run
           "/pets" (snd (hd ("", []) Paths.pets))).
  - left. reflexivity.
  - right. left. reflexivity.
  - reflexivity.
Defined.


(** ** Comments *)

Section CommentFacts.
Import Emitter.

Lemma shiftEmpty_blanks (lines : list (option string)) :
  Forall blank lines -> shiftEmpty lines = [].
Proof.
  induction 1 as [|x l Hx _ IH]; [reflexivity|].
  simpl. rewrite Hx. exact IH.
Qed.

Lemma shiftEmpty_after_blanks (blanks lines : list (option string)) :
  Forall blank blanks -> shiftEmpty (blanks ++ lines)%list = shiftEmpty lines.
Proof.
  induction 1 as [|x l Hx _ IH]; [reflexivity|].
  simpl. rewrite Hx. exact IH.
Qed.

Lemma shiftEmpty_app (a b : list (option string)) :
  (Forall blank a /\ shiftEmpty (a ++ b)%list = shiftEmpty b)
  \/ (shiftEmpty a <> [] /\ shiftEmpty (a ++ b)%list = (shiftEmpty a ++ b)%list).
Proof.
  induction a as [|x a IH]; [left; split; [constructor|reflexivity]|].
  simpl. destruct (Js.truthy x) eqn:T.
  - right. split; [discriminate|reflexivity].
  - destruct IH as [[Hall E]|[Hne E]].
    + left. split; [constructor; [exact T|exact Hall]|exact E].
    + right. split; assumption.
Qed.

Lemma shiftEmpty_nil_blanks (a : list (option string)) :
  shiftEmpty a = [] -> Forall blank a.
Proof.
  induction a as [|x a IH]; [constructor|].
  simpl. destruct (Js.truthy x) eqn:T; [discriminate|].
  intros H. constructor; [exact T|apply IH, H].
Qed.

Lemma Forall_blank_rev (a : list (option string)) :
  Forall blank a -> Forall blank (rev a).
Proof. intros H. apply Forall_rev. exact H. Qed.

Lemma popEmpty_before_blanks (lines blanks : list (option string)) :
  Forall blank blanks -> popEmpty (lines ++ blanks)%list = popEmpty lines.
Proof.
  intros H. unfold popEmpty. rewrite rev_app_distr.
  rewrite shiftEmpty_after_blanks by (apply Forall_blank_rev, H). reflexivity.
Qed.

Lemma popEmpty_blanks (lines : list (option string)) :
  Forall blank lines -> popEmpty lines = [].
Proof.
  intros H. unfold popEmpty.
  rewrite shiftEmpty_blanks by (apply Forall_blank_rev, H). reflexivity.
Qed.

Lemma popEmpty_app (a b : list (option string)) :
  (Forall blank b /\ popEmpty (a ++ b)%list = popEmpty a)
  \/ (popEmpty b <> [] /\ popEmpty (a ++ b)%list = (a ++ popEmpty b)%list).
Proof.
  unfold popEmpty. rewrite rev_app_distr.
  destruct (shiftEmpty_app (rev b) (rev a)) as [[Hall E]|[Hne E]].
  - left. split; [|rewrite E; reflexivity].
    apply Forall_rev in Hall. rewrite rev_involutive in Hall. exact Hall.
  - right. split.
    + intros Hnil. apply Hne. apply (f_equal (@rev _)) in Hnil.
      rewrite rev_involutive in Hnil. exact Hnil.
    + rewrite E, rev_app_distr, rev_involutive. reflexivity.
Qed.

Lemma trimmedLines_outer (before lines after : list (option string)) :
  Forall blank before -> Forall blank after ->
  trimmedLines (before ++ lines ++ after)%list = trimmedLines lines.
Proof.
  intros Hb Ha. unfold trimmedLines.
  rewrite app_assoc, popEmpty_before_blanks by exact Ha.
  destruct (popEmpty_app before lines) as [[Hl E]|[Hne E]]; rewrite E.
  - rewrite (popEmpty_blanks _ Hb), (popEmpty_blanks _ Hl). reflexivity.
  - apply shiftEmpty_after_blanks. exact Hb.
Qed.

Lemma appendMarkdownAsComment_trimmed (b : StringBuilder.t)
    (lines lines' : list (option string)) :
  trimmedLines lines = trimmedLines lines' ->
  appendMarkdownAsComment b lines = appendMarkdownAsComment b lines'.
Proof.
  unfold appendMarkdownAsComment, trimmedLines. intros ->. reflexivity.
Qed.

Lemma splitLines_blank (d : option string) :
  Js.truthy d = false \/ Js.trim (Js.show d) = EmptyString ->
  Forall blank (map Some (splitLines d)).
Proof.
  unfold splitLines. destruct (Js.truthy d); intros [H|H]; try discriminate;
    try constructor.
  rewrite H. simpl. constructor; [reflexivity|constructor].
Qed.

(** X16: [appendMarkdownAsComment] ignores empty and undefined lines at both
    ends; with nothing but such lines, and for a description that is
    undefined, empty or white space only, it leaves the builder as it is. *)
Theorem comment_ignores_outer_blank_lines :
  forall (b : StringBuilder.t) (before lines after : list (option string)),
    Forall blank before ->
    Forall blank after ->
    appendMarkdownAsComment b (before ++ lines ++ after)%list
    = appendMarkdownAsComment b lines
    /\ appendMarkdownAsComment b (before ++ after)%list = b
    /\ (forall description,
          Js.truthy description = false
          \/ Js.trim (Js.show description) = EmptyString ->
          appendMarkdownAsComment b (map Some (splitLines description)) = b).
Proof.
  intros b before lines after Hb Ha. split; [|split].
  - apply appendMarkdownAsComment_trimmed, trimmedLines_outer; assumption.
  - rewrite (appendMarkdownAsComment_trimmed b _ []); [reflexivity|].
    apply (trimmedLines_outer before [] after); assumption.
  - intros description Hd.
    rewrite (appendMarkdownAsComment_trimmed b _ []); [reflexivity|].
    pose proof (trimmedLines_outer (map Some (splitLines description)) [] []
                  (splitLines_blank _ Hd) (Forall_nil _)) as E.
    rewrite app_nil_r in E. exact E.
Qed.

End CommentFacts.

Section CommentRuns.
Import Emitter.

Lemma appendMarkdownAsComment_long (b : StringBuilder.t)
    (lines : list (option string)) (s1 s2 : option string)
    (rest : list (option string)) :
  trimmedLines lines = s1 :: s2 :: rest ->
  appendMarkdownAsComment b lines
  = StringBuilder.append
      (fst (fold_left commentLine (s1 :: s2 :: rest)
              (StringBuilder.append b (nl ++ "/**" ++ nl), false)))
      (" */" ++ nl).
Proof.
  unfold appendMarkdownAsComment, trimmedLines. intros ->.
  change (fun (st : StringBuilder.t * bool) (x : option string) =>
            let '(b0, lastEmpty) := st in
            if Js.truthy x then (appends b0 [" * "; Js.show x; nl], false)
            else ((if lastEmpty then b0 else StringBuilder.append b0 (" *" ++ nl)),
                  true))
    with commentLine.
  destruct (fold_left commentLine (s1 :: s2 :: rest)
              (StringBuilder.append b (nl ++ "/**" ++ nl), false)).
  reflexivity.
Qed.

Lemma commentLine_blank_twice (st : StringBuilder.t * bool) (x y : option string) :
  blank x -> blank y -> commentLine (commentLine st x) y = commentLine st x.
Proof.
  intros Hx Hy. destruct st as [b lastEmpty]. unfold commentLine.
  rewrite Hx, Hy. reflexivity.
Qed.

Lemma fold_blank_twice (head tail : list (option string)) (x y : option string)
    (st : StringBuilder.t * bool) :
  blank x -> blank y ->
  fold_left commentLine (head ++ x :: y :: tail)%list st
  = fold_left commentLine (head ++ x :: tail)%list st.
Proof.
  intros Hx Hy. rewrite !fold_left_app. simpl.
  rewrite commentLine_blank_twice by assumption. reflexivity.
Qed.

(** X17: [appendMarkdownAsComment] writes the same for two neighbouring empty
    lines as for one: a run of empty lines inside a comment gives one blank
    comment line. *)
Theorem comment_collapses_blank_runs :
  forall (b : StringBuilder.t) (head tail : list (option string))
         (x y : option string),
    blank x -> blank y ->
    appendMarkdownAsComment b (head ++ x :: y :: tail)%list
    = appendMarkdownAsComment b (head ++ x :: tail)%list.
Proof.
  intros b head tail x y Hx Hy.
  destruct (popEmpty_app [x; y] tail) as [[Htail _]|[Hne Etail2]].
  { (* nothing but blank lines after [head] *)
    apply appendMarkdownAsComment_trimmed.
    pose proof (trimmedLines_outer [] head (x :: y :: tail)
                  (Forall_nil _) (Forall_cons _ Hx (Forall_cons _ Hy Htail))) as E1.
    pose proof (trimmedLines_outer [] head (x :: tail)
                  (Forall_nil _) (Forall_cons _ Hx Htail)) as E2.
    simpl in E1, E2. rewrite E1, E2. reflexivity. }
  assert (Htail : popEmpty tail <> []).
  { intros E. destruct (popEmpty_app [x; y] tail) as [[Hall _]|[H _]].
    - apply Hne. apply popEmpty_blanks. repeat constructor; assumption.
    - exact (H E). }
  assert (Etail1 : popEmpty (x :: tail) = x :: popEmpty tail).
  { destruct (popEmpty_app [x] tail) as [[Hall _]|[_ E]]; [|exact E].
    exfalso. apply Htail, popEmpty_blanks, Hall. }
  assert (Etail2' : popEmpty (x :: y :: tail) = x :: y :: popEmpty tail).
  { destruct (popEmpty_app [x; y] tail) as [[Hall _]|[_ E]]; [|exact E].
    exfalso. apply Htail, popEmpty_blanks, Hall. }
  assert (E1 : popEmpty (head ++ x :: y :: tail)%list
               = (head ++ x :: y :: popEmpty tail)%list).
  { destruct (popEmpty_app head (x :: y :: tail)) as [[Hall _]|[_ E]].
    - exfalso. apply Htail, popEmpty_blanks.
      inversion Hall as [|? ? _ H1]; inversion H1; assumption.
    - rewrite E, Etail2'. reflexivity. }
  assert (E2 : popEmpty (head ++ x :: tail)%list
               = (head ++ x :: popEmpty tail)%list).
  { destruct (popEmpty_app head (x :: tail)) as [[Hall _]|[_ E]].
    - exfalso. apply Htail, popEmpty_blanks. inversion Hall; assumption.
    - rewrite E, Etail1. reflexivity. }
  destruct (shiftEmpty_app head (x :: y :: popEmpty tail)) as [[Hhead E]|[Hhead E]].
  { (* nothing but blank lines in [head] *)
    apply appendMarkdownAsComment_trimmed. unfold trimmedLines.
    rewrite E1, E2, E.
    rewrite (shiftEmpty_after_blanks head (x :: popEmpty tail) Hhead).
    simpl. rewrite Hx, Hy. reflexivity. }
  assert (E' : shiftEmpty (head ++ x :: popEmpty tail)%list
               = (shiftEmpty head ++ x :: popEmpty tail)%list).
  { destruct (shiftEmpty_app head (x :: popEmpty tail)) as [[Hall _]|[_ E']];
      [|exact E'].
    exfalso. apply Hhead, shiftEmpty_blanks, Hall. }
  destruct (shiftEmpty head) as [|s1 first] eqn:Efirst; [congruence|].
  assert (T1 : exists s2 rest,
             (first ++ x :: y :: popEmpty tail)%list = s2 :: rest).
  { destruct first; simpl; eauto. }
  assert (T2 : exists s2 rest, (first ++ x :: popEmpty tail)%list = s2 :: rest).
  { destruct first; simpl; eauto. }
  destruct T1 as (a1 & r1 & T1). destruct T2 as (a2 & r2 & T2).
  rewrite (appendMarkdownAsComment_long b _ s1 a1 r1)
    by (unfold trimmedLines; rewrite E1, E; simpl; rewrite T1; reflexivity).
  rewrite (appendMarkdownAsComment_long b _ s1 a2 r2)
    by (unfold trimmedLines; rewrite E2, E'; simpl; rewrite T2; reflexivity).
  rewrite <- T1, <- T2.
  change (s1 :: (first ++ x :: y :: popEmpty tail)%list)
    with ((s1 :: first) ++ x :: y :: popEmpty tail)%list.
  change (s1 :: (first ++ x :: popEmpty tail)%list)
    with ((s1 :: first) ++ x :: popEmpty tail)%list.
  rewrite fold_blank_twice by assumption. reflexivity.
Qed.

End CommentRuns.

Lemma comment_ignores_outer_blank_lines_witness :
  Emitter.appendMarkdownAsComment StringBuilder.empty
    ([None; Some EmptyString] ++ [Some "Pets api."] ++ [Some EmptyString])%list
  = Emitter.appendMarkdownAsComment StringBuilder.empty [Some "Pets api."].
Proof.
  apply (comment_ignores_outer_blank_lines StringBuilder.empty
           [None; Some EmptyString] [Some "Pets api."] [Some EmptyString]).
  - repeat constructor.
  - repeat constructor.
Defined.

Lemma comment_collapses_blank_runs_witness :
  Emitter.appendMarkdownAsComment StringBuilder.empty
    ([Some "List pets."] ++ Some EmptyString :: None :: [Some "@return Pets."])%list
  = Emitter.appendMarkdownAsComment StringBuilder.empty
      ([Some "List pets."] ++ Some EmptyString :: [Some "@return Pets."])%list.
Proof.
  apply (comment_collapses_blank_runs StringBuilder.empty [Some "List pets."]
           [Some "@return Pets."] (Some EmptyString) None); reflexivity.
Defined.

(** ** The emitters: request bodies and parameters *)

Section EmitterShape.
Import Emitter.
Variable enumTypes : list string.

Lemma getTypeFromContent_None (content : option (list (string * OpenAPIMediaType.t)))
    (context : string) (st : Imports) :
  jsonSchema content = None ->
  getTypeFromContent enumTypes content context st = Ok (None, st).
Proof.
  unfold jsonSchema, getTypeFromContent.
  destruct content as [content|]; [|reflexivity].
  destruct (lookup "application/json" content) as [media|]; [|reflexivity].
  intros ->. reflexivity.
Qed.

Lemma getTypeFromContent_Some (content : option (list (string * OpenAPIMediaType.t)))
    (context : string) (st st' : Imports) (t : option RuntimeType) :
  getTypeFromContent enumTypes content context st = Ok (t, st') ->
  jsonSchema content <> None -> t <> None.
Proof.
  unfold jsonSchema, getTypeFromContent.
  destruct content as [content|]; [|congruence].
  destruct (lookup "application/json" content) as [media|]; [|congruence].
  destruct (OpenAPIMediaType.schema media) as [schema|]; [|congruence].
  intros H _. invert_bind H as d st1 H1 H2. injection H2 as <- _. discriminate.
Qed.

Lemma refuseBodyReference_Ok (operationId : string)
    (requestBody : option (OrReference OpenAPIRequestBody.t))
    (st : Imports) (r : unit * Imports) :
  refuseBodyReference operationId requestBody st = Ok r ->
  forall target, requestBody <> Some (Reference target).
Proof.
  unfold refuseBodyReference. destruct requestBody as [[target|body]|];
    [discriminate| |]; intros _ target; discriminate.
Qed.

Lemma apiRequestBody_Ok (operationId : string)
    (requestBody : option (OrReference OpenAPIRequestBody.t)) (l : ApiLocals)
    (st : Imports) (r : ApiLocals * Imports) :
  (forall target, requestBody <> Some (Reference target)) ->
  apiRequestBody enumTypes operationId requestBody l st = Ok r ->
  bodyAccepted requestBody.
Proof.
  intros Href. unfold apiRequestBody, bodyAccepted.
  destruct requestBody as [[target|body]|]; [|  |trivial].
  - exfalso. exact (Href target eq_refl).
  - intros H Hschema. invert_bind H as t st1 H1 H2.
    pose proof (getTypeFromContent_Some _ _ _ _ _ H1 Hschema) as Ht.
    destruct t as [t|]; [|congruence].
    destruct (OpenAPIRequestBody.required body) as [[|]|];
      [reflexivity|discriminate|discriminate].
Qed.

Lemma clientRequestBody_Ok (operationId : string)
    (requestBody : option (OrReference OpenAPIRequestBody.t)) (l : ClientLocals)
    (st : Imports) (r : ClientLocals * Imports) :
  (forall target, requestBody <> Some (Reference target)) ->
  clientRequestBody enumTypes operationId requestBody l st = Ok r ->
  bodyAccepted requestBody.
Proof.
  intros Href. unfold clientRequestBody, bodyAccepted.
  destruct requestBody as [[target|body]|]; [|  |trivial].
  - exfalso. exact (Href target eq_refl).
  - intros H Hschema. invert_bind H as t st1 H1 H2.
    pose proof (getTypeFromContent_Some _ _ _ _ _ H1 Hschema) as Ht.
    destruct t as [t|]; [|congruence].
    destruct (OpenAPIRequestBody.required body) as [[|]|];
      [reflexivity|discriminate|discriminate].
Qed.

Lemma refuseOtherProps_Ok (operationId : string) (other : list (string * string))
    (st : Imports) (r : unit * Imports) :
  refuseOtherProps operationId other st = Ok r -> other = [].
Proof.
  unfold refuseOtherProps. destruct other; [reflexivity|discriminate].
Qed.

Lemma apiParameter_Ok (operationId : string) (l : ApiLocals)
    (p : OrReference OpenAPIParameter.t) (st : Imports) (r : ApiLocals * Imports) :
  apiParameter enumTypes operationId l p st = Ok r ->
  apiParameterAccepted enumTypes operationId p.
Proof.
  unfold apiParameter, apiParameterAccepted.
  destruct p as [target|parameter]; [discriminate|].
  destruct (OpenAPIParameter.schema parameter) as [schema|] eqn:Es; [|discriminate].
  intros H. invert_bind H as t st1 Ht H. invert_bind H as u st2 Hv H.
  invert_bind H as lines st3 Hl H. invert_bind H as expr st4 He H.
  exists parameter, schema, t. split; [reflexivity|]. split; [exact Es|].
  split; [exists st, st1; exact Ht|exists st3, expr, st4; exact He].
Qed.

Lemma clientParameter_Ok (operationId : string) (l : ClientLocals)
    (p : OrReference OpenAPIParameter.t) (st : Imports)
    (r : ClientLocals * Imports) :
  clientParameter enumTypes operationId l p st = Ok r ->
  clientParameterAccepted enumTypes operationId p.
Proof.
  unfold clientParameter, clientParameterAccepted.
  destruct p as [target|parameter]; [discriminate|].
  destruct (negb (OpenAPIParameter.in_ parameter =? "path")
            && negb (OpenAPIParameter.in_ parameter =? "query")) eqn:Hin;
    [discriminate|].
  destruct (OpenAPIParameter.schema parameter) as [schema|] eqn:Es; [|discriminate].
  intros H. invert_bind H as t st1 Ht H.
  exists parameter, schema, t. split; [reflexivity|]. split.
  - apply andb_false_iff in Hin as [Hin|Hin]; apply negb_false_iff in Hin;
      apply String.eqb_eq in Hin; auto.
  - split; [exact Es|]. exists st, st1. exact Ht.
Qed.

(** What an operation has passed, besides its identifier and responses,
    when the loop of [writeApi] accepts it. *)
Lemma apiOperation_shape (tag : Identifier)
    (acc : StringBuilder.t * StringBuilder.t) (o : OperationExtended.t)
    (st : Imports) (r : StringBuilder.t * StringBuilder.t * Imports) :
  apiOperation enumTypes tag acc o st = Ok r ->
  bodyAccepted (OpenAPIOperation.requestBody (OperationExtended.operation o))
  /\ OpenAPIOperation.other (OperationExtended.operation o) = []
  /\ Forall (apiParameterAccepted enumTypes (idOf o)) (parametersOf o).
Proof.
  unfold apiOperation. destruct acc as [abstractMethodLines registerLines].
  intros H. invert_bind H as operationId st1 Hid H.
  assert (Eid : operationId = idOf o).
  { unfold requireOperationId in Hid. unfold idOf.
    destruct (Js.truthy _); [|discriminate]. injection Hid as <- _. reflexivity. }
  invert_bind H as name st2 Hname H.
  invert_bind H as u st3 Hbody H.
  invert_bind H as l1 st4 Hrequest H.
  invert_bind H as l2 st5 Hparams H.
  invert_bind H as rt st6 Hresponses H.
  destruct rt as [returnType doc].
  invert_bind H as lines st7 Hlines H.
  invert_bind H as u2 st8 Hother H.
  split; [|split].
  - eapply apiRequestBody_Ok; [|exact Hrequest].
    eapply refuseBodyReference_Ok. exact Hbody.
  - eapply refuseOtherProps_Ok. exact Hother.
  - apply foldM_Ok in Hparams. unfold parametersOf. rewrite <- Eid.
    eapply Forall_impl; [|exact Hparams].
    intros p (a & s & r' & Hp). eapply apiParameter_Ok. exact Hp.
Qed.

Lemma clientOperation_shape (tag : Identifier) (b : StringBuilder.t)
    (o : OperationExtended.t) (st : Imports) (r : StringBuilder.t * Imports) :
  clientOperation enumTypes tag b o st = Ok r ->
  bodyAccepted (OpenAPIOperation.requestBody (OperationExtended.operation o))
  /\ OpenAPIOperation.other (OperationExtended.operation o) = []
  /\ Forall (clientParameterAccepted enumTypes (idOf o)) (parametersOf o).
Proof.
  unfold clientOperation.
  intros H. invert_bind H as operationId st1 Hid H.
  assert (Eid : operationId = idOf o).
  { unfold requireOperationId in Hid. unfold idOf.
    destruct (Js.truthy _); [|discriminate]. injection Hid as <- _. reflexivity. }
  invert_bind H as name st2 Hname H.
  invert_bind H as u st3 Hbody H.
  invert_bind H as l1 st4 Hrequest H.
  invert_bind H as l2 st5 Hparams H.
  invert_bind H as rt st6 Hresponses H.
  destruct rt as [returnType doc].
  invert_bind H as u1 st7 Hconfig H.
  invert_bind H as u2 st8 Hbuilder H.
  invert_bind H as b' st9 Hreturn H.
  invert_bind H as u3 st10 Hother H.
  split; [|split].
  - eapply clientRequestBody_Ok; [|exact Hrequest].
    eapply refuseBodyReference_Ok. exact Hbody.
  - eapply refuseOtherProps_Ok. exact Hother.
  - apply foldM_Ok in Hparams. unfold parametersOf. rewrite <- Eid.
    eapply Forall_impl; [|exact Hparams].
    intros p (a & s & r' & Hp). eapply clientParameter_Ok. exact Hp.
Qed.

Variable localeCompare : string -> string -> Z.

Lemma writeApi_operations (tag : Identifier) (tagDescription : option string)
    (operations : list OperationExtended.t) (text : string) :
  writeApi enumTypes localeCompare tag tagDescription operations = Ok text ->
  Forall (fun o => exists acc st r, apiOperation enumTypes tag acc o st = Ok r)
    operations.
Proof.
  unfold writeApi. intros H. apply finish_Ok in H as (b & imports & H).
  unfold writeApiBuilder in H.
  invert_bind H as u1 st1 H1 H. invert_bind H as u2 st2 H2 H.
  invert_bind H as u3 st3 H3 H. invert_bind H as u4 st4 H4 H.
  invert_bind H as lines st5 Hloop H.
  apply foldM_Ok in Hloop. exact Hloop.
Qed.

Lemma writeClient_operations (tag : Identifier) (tagDescription : option string)
    (operations : list OperationExtended.t) (text : string) :
  writeClient enumTypes localeCompare tag tagDescription operations = Ok text ->
  Forall (fun o => exists b st r, clientOperation enumTypes tag b o st = Ok r)
    operations.
Proof.
  unfold writeClient. intros H. apply finish_Ok in H as (b & imports & H).
  unfold writeClientBuilder in H.
  invert_bind H as u1 st1 H1 H.
  invert_bind H as lines st2 Hloop H.
  apply foldM_Ok in Hloop. exact Hloop.
Qed.

(** X18: [writeApi] and [writeClient] return only if the request body of every
    operation is absent or inline, required whenever it has a JSON schema, and
    the operation has no property besides the ones the emitters read. *)
Theorem request_bodies_inline_and_required :
  forall (tag : Identifier) (tagDescription : option string)
         (operations : list OperationExtended.t) (text : string),
    writeApi enumTypes localeCompare tag tagDescription operations = Ok text
    \/ writeClient enumTypes localeCompare tag tagDescription operations = Ok text ->
    Forall
      (fun o =>
         bodyAccepted (OpenAPIOperation.requestBody (OperationExtended.operation o))
         /\ OpenAPIOperation.other (OperationExtended.operation o) = [])
      operations.
Proof.
  intros tag tagDescription operations text [H|H].
  - apply writeApi_operations in H. eapply Forall_impl; [|exact H].
    intros o (acc & st & r & Hr). apply apiOperation_shape in Hr. tauto.
  - apply writeClient_operations in H. eapply Forall_impl; [|exact H].
    intros o (acc & st & r & Hr). apply clientOperation_shape in Hr. tauto.
Qed.

(** X19: [writeApi] returns only if every parameter of every operation is
    inline and has a schema that resolves, under the context
    [<operationId>.<in>.<name>], to a descriptor whose [fromJsonParam] returns;
    [writeClient] returns only if every parameter is inline, in the path or the
    query, and has a schema that resolves under that context. *)
Theorem parameters_inline_and_resolved :
  forall (tag : Identifier) (tagDescription : option string)
         (operations : list OperationExtended.t) (text : string),
    (writeApi enumTypes localeCompare tag tagDescription operations = Ok text ->
     Forall (fun o => Forall (apiParameterAccepted enumTypes (idOf o)) (parametersOf o))
       operations)
    /\ (writeClient enumTypes localeCompare tag tagDescription operations = Ok text ->
        Forall
          (fun o => Forall (clientParameterAccepted enumTypes (idOf o)) (parametersOf o))
          operations).
Proof.
  intros tag tagDescription operations text. split; intros H.
  - apply writeApi_operations in H. eapply Forall_impl; [|exact H].
    intros o (acc & st & r & Hr). apply apiOperation_shape in Hr. tauto.
  - apply writeClient_operations in H. eapply Forall_impl; [|exact H].
    intros o (acc & st & r & Hr). apply clientOperation_shape in Hr. tauto.
Qed.

(** A reference among the parameters of a file that [writeApi] returns. *)
Lemma api_reference_parameter :
  forall (tag : Identifier) (tagDescription : option string)
         (operations : list OperationExtended.t) (text : string)
         (o : OperationExtended.t) (parameter : OpenAPIParameter.t)
         (schema : Schema),
    writeApi enumTypes localeCompare tag tagDescription operations = Ok text ->
    In o operations ->
    In (Plain parameter) (parametersOf o) ->
    OpenAPIParameter.schema parameter = Some schema ->
    isReference schema = true ->
    enumReference enumTypes schema.
Proof.
  intros tag tagDescription operations text o parameter schema H Ho Hp Hs Href.
  apply writeApi_operations in H. rewrite Forall_forall in H.
  destruct (H o Ho) as (acc & st & r & Hr).
  apply apiOperation_shape in Hr as (_ & _ & Hparams).
  rewrite Forall_forall in Hparams.
  destruct (Hparams _ Hp)
    as (parameter' & schema' & t & [= <-] & Hs' & (s1 & s2 & Ht) & (s3 & e & s4 & He)).
  rewrite Hs in Hs'. injection Hs' as <-.
  destruct (reference_descriptor enumTypes _ _ _ _ _ Href Ht)
    as (name & ident & Hname & Hident & ->).
  apply (proj1 (execRef_spec _ _)) in Hname as [Hname W].
  exists name, ident. split; [|split; [exact Hident|]].
  - destruct (ref schema) as [r'|]; [|simpl in Hname; discriminate].
    change (r' = "#/components/schemas/" ++ name) in Hname.
    rewrite Hname. reflexivity.
  - unfold RuntimeTypeImpl.referenceType in He.
    destruct (Js.includes enumTypes (upperCamel ident)); [reflexivity|].
    discriminate He.
Qed.

End EmitterShape.

(** ** The model writers and the driver *)

Section DriverFacts.
Import Driver.

Lemma strictEq_true (x : option string) (s : string) :
  RuntimeTypeImpl.strictEq x s = true <-> x = Some s.
Proof.
  destruct x as [t|]; simpl; [|split; discriminate].
  rewrite String.eqb_eq. split; congruence.
Qed.

Lemma classify_Ok (enums objects enums' objects' : list string)
    (entry : string * OpenAPIModel.t) :
  classify (enums, objects) entry = Ok (enums', objects') ->
  exists ident,
    IdentifierImpl.fromCamel (fst entry) = Ok ident
    /\ isReference (OpenAPIModel.schema (snd entry)) = false
    /\ ((type (OpenAPIModel.schema (snd entry)) = Some "string"
         /\ enums' = (enums ++ [upperCamel ident])%list /\ objects' = objects)
        \/ (type (OpenAPIModel.schema (snd entry)) = Some "object"
            /\ enums' = enums /\ objects' = (objects ++ [upperCamel ident])%list)).
Proof.
  unfold classify.
  destruct (IdentifierImpl.fromCamel (fst entry)) as [ident|e]; [|discriminate].
  simpl rbind.
  destruct (isReference (OpenAPIModel.schema (snd entry))); [discriminate|].
  destruct (RuntimeTypeImpl.strictEq _ "string") eqn:Es.
  - intros [= <- <-]. exists ident. split; [reflexivity|]. split; [reflexivity|].
    left. apply strictEq_true in Es. auto.
  - destruct (RuntimeTypeImpl.strictEq _ "object") eqn:Eo; [|discriminate].
    intros [= <- <-]. exists ident. split; [reflexivity|]. split; [reflexivity|].
    right. apply strictEq_true in Eo. auto.
Qed.

Lemma namedAs_cons (entry : string * OpenAPIModel.t)
    (schemas : list (string * OpenAPIModel.t)) (t name : string) :
  namedAs (entry :: schemas) t name
  <-> (exists ident,
         IdentifierImpl.fromCamel (fst entry) = Ok ident
         /\ type (OpenAPIModel.schema (snd entry)) = Some t
         /\ name = upperCamel ident)
      \/ namedAs schemas t name.
Proof.
  unfold namedAs. split.
  - intros (rawName & schema & ident & [E|Hin] & H).
    + left. subst entry. exists ident. exact H.
    + right. exists rawName, schema, ident. auto.
  - intros [(ident & H)|(rawName & schema & ident & Hin & H)].
    + exists (fst entry), (snd entry), ident. split; [|exact H].
      left. destruct entry; reflexivity.
    + exists rawName, schema, ident. split; [right; exact Hin|exact H].
Qed.

Lemma classifySchemas_from (schemas : list (string * OpenAPIModel.t))
    (enums objects enums' objects' : list string) :
  Extractor.foldM classify schemas (enums, objects) = Ok (enums', objects') ->
  Forall classifiable schemas
  /\ (forall name, In name enums' <-> In name enums \/ namedAs schemas "string" name)
  /\ (forall name,
        In name objects' <-> In name objects \/ namedAs schemas "object" name)
  /\ length enums' + length objects'
     = length enums + length objects + length schemas.
Proof.
  revert enums objects.
  induction schemas as [|entry schemas IH]; intros enums objects H.
  - injection H as <- <-. split; [constructor|].
    split; [|split; [|simpl; lia]]; intros name; split; auto;
      intros [H|(r & s & i & [] & _)]; exact H.
  - cbn [Extractor.foldM] in H.
    destruct (classify (enums, objects) entry) as [[enums1 objects1]|e] eqn:E;
      [|discriminate].
    simpl rbind in H. apply IH in H as (Hall & He & Ho & Hlen).
    apply classify_Ok in E as (ident & Hident & Href & Hcase).
    split; [constructor; [|exact Hall]|].
    { split; [exact Href|]. destruct Hcase as [(T & _)|(T & _)]; auto. }
    destruct Hcase as [(T & -> & ->)|(T & -> & ->)].
    + split; [|split].
      * intros name. rewrite He, in_app_iff, namedAs_cons. simpl. split.
        -- intros [[H|[<-|[]]]|H]; auto. right. left. exists ident. auto.
        -- intros [H|[(i & Hi & _ & ->)|H]]; auto.
           left. right. left. congruence.
      * intros name. rewrite Ho, namedAs_cons. split.
        -- intros [H|H]; auto.
        -- intros [H|[(i & _ & T' & _)|H]]; auto. congruence.
      * rewrite length_app in Hlen. simpl in *. lia.
    + split; [|split].
      * intros name. rewrite He, namedAs_cons. split.
        -- intros [H|H]; auto.
        -- intros [H|[(i & _ & T' & _)|H]]; auto. congruence.
      * intros name. rewrite Ho, in_app_iff, namedAs_cons. simpl. split.
        -- intros [[H|[<-|[]]]|H]; auto. right. left. exists ident. auto.
        -- intros [H|[(i & Hi & _ & ->)|H]]; auto.
           left. right. left. congruence.
      * rewrite length_app in Hlen. simpl in *. lia.
Qed.

(** X21: the classification of [components.schemas] returns only if every
    schema is inline and of type [string] or [object]; [enumTypes] then holds
    exactly the upper-camel names of the schemas of type [string],
    [objectTypes] those of type [object], one name for each schema. *)
Theorem schemas_classified_by_type :
  forall (schemas : list (string * OpenAPIModel.t)) (enums objects : list string),
    classifySchemas schemas = Ok (enums, objects) ->
    Forall classifiable schemas
    /\ (forall name, In name enums <-> namedAs schemas "string" name)
    /\ (forall name, In name objects <-> namedAs schemas "object" name)
    /\ length enums + length objects = length schemas.
Proof.
  intros schemas enums objects H. unfold classifySchemas in H.
  apply classifySchemas_from in H as (Hall & He & Ho & Hlen).
  split; [exact Hall|]. split; [|split; [|exact Hlen]]; intros name.
  - rewrite He. simpl. tauto.
  - rewrite Ho. simpl. tauto.
Qed.

Lemma toString_app (t : string) (a b : StringBuilder.t) :
  StringBuilder.toString t (a ++ b)%list
  = StringBuilder.toString t a ++ StringBuilder.toString t b.
Proof.
  unfold StringBuilder.toString. rewrite map_app, concat_app. reflexivity.
Qed.

Lemma toString_appends (t : string) (b : StringBuilder.t) (l : list string) :
  StringBuilder.toString t (Emitter.appends b l)
  = StringBuilder.toString t b ++ String.concat EmptyString l.
Proof.
  revert b. induction l as [|s l IH]; intros b.
  - simpl. rewrite append_nil_r. reflexivity.
  - unfold Emitter.appends in *. cbn [fold_left]. rewrite IH.
    unfold StringBuilder.append. rewrite toString_app, concat_cons, append_assoc.
    unfold StringBuilder.toString at 2. simpl. reflexivity.
Qed.

Lemma toString_append1 (t : string) (b : StringBuilder.t) (s : string) :
  StringBuilder.toString t (StringBuilder.append b s)
  = StringBuilder.toString t b ++ s.
Proof.
  unfold StringBuilder.append. rewrite toString_app.
  unfold StringBuilder.toString at 2. simpl. reflexivity.
Qed.

Lemma appendValues_from (t sep : string) (values : list string) (i : nat)
    (b : StringBuilder.t) :
  StringBuilder.toString t
    (forEachFrom
       (fun b value i =>
          StringBuilder.append
            (if (0 <? i)%nat then StringBuilder.append b sep else b) value)
       values i b)
  = StringBuilder.toString t b
      ++ (if (0 <? i)%nat
          then String.concat EmptyString (map (String.append sep) values)
          else Js.join sep values).
Proof.
  revert i b. induction values as [|v values IH]; intros i b.
  - simpl. destruct (0 <? i)%nat; rewrite append_nil_r; reflexivity.
  - cbn [forEachFrom]. rewrite IH. change (0 <? S i)%nat with true. cbv iota.
    rewrite toString_append1. destruct (0 <? i)%nat.
    + rewrite toString_append1, map_cons, concat_cons, !append_assoc. reflexivity.
    + rewrite join_trailing, !append_assoc. reflexivity.
Qed.

Lemma appendValues_text (t sep : string) (values : list string)
    (b : StringBuilder.t) :
  StringBuilder.toString t (appendValues sep values b)
  = StringBuilder.toString t b ++ Js.join sep values.
Proof. unfold appendValues, forEach. apply appendValues_from. Qed.

(** X22: [writeEnumModel] throws [Expected enum values in <name>] when the
    schema has no [enum]; otherwise it returns the comment of the description,
    the union type of the values joined by [ | ] and the array [values<name>]
    of the same values joined by commas, also for an empty list of values. *)
Theorem enum_model_text :
  forall (enumName : string) (schema : OpenAPIModel.t),
    writeEnumModel enumName schema
    = match OpenAPIModel.enum schema with
      | None => Raise (Thrown ("Expected enum values in " ++ enumName))
      | Some values =>
          Ok (enumModelText enumName (OpenAPIModel.description schema) values)
      end.
Proof.
  intros enumName schema. unfold writeEnumModel.
  destruct (OpenAPIModel.enum schema) as [values|]; [|reflexivity].
  f_equal. unfold enumModelText, commentOf.
  rewrite toString_append1, appendValues_text, toString_appends,
    appendValues_text, toString_appends.
  cbn [String.concat]. rewrite !append_assoc. reflexivity.
Qed.

End DriverFacts.

Section DriverLoops.
Import Driver.
Variable enumTypes : list string.
Variable localeCompare : string -> string -> Z.

Lemma forEachR_Ok {A B} (f : A -> result B) (l : list A) (ys : list B) :
  forEachR f l = Ok ys -> Forall2 (fun x y => f x = Ok y) l ys.
Proof.
  revert ys. induction l as [|x l IH]; intros ys H.
  - injection H as <-. constructor.
  - cbn [forEachR] in H. destruct (f x) as [y|e] eqn:E; [|discriminate].
    simpl rbind in H. destruct (forEachR f l) as [ys'|e]; [|discriminate].
    injection H as <-. constructor; [exact E|apply IH; reflexivity].
Qed.

Lemma Forall2_left {A B} (P : A -> Prop) (R : A -> B -> Prop) (l : list A)
    (ys : list B) :
  (forall x y, R x y -> P x) -> Forall2 R l ys -> Forall P l /\ length ys = length l.
Proof.
  intros H. induction 1 as [|x y l ys Hxy _ [IH1 IH2]]; [split; [constructor|reflexivity]|].
  split; [constructor; [eapply H; exact Hxy|exact IH1]|simpl; congruence].
Qed.

Lemma objectProperty_Ok (objectName : string) (required : option (list string))
    (l : ModelLocals) (entry : string * OpenAPIProperty.t) (st : Imports)
    (r : ModelLocals * Imports) :
  objectProperty enumTypes objectName required l entry st = Ok r ->
  propertyAccepted enumTypes objectName entry.
Proof.
  unfold objectProperty, propertyAccepted. intros H.
  invert_bind H as t st1 Ht H. invert_bind H as u st2 Hopt H.
  invert_bind H as printed st3 Hprint H. invert_bind H as validated st4 Hval H.
  exists t. split; [exists st, st1; exact Ht|].
  split; [exists st2, printed, st3; exact Hprint|].
  exists st3, validated, st4. exact Hval.
Qed.

(** X23: [writeObjectModel] throws [Expected properties in <name>] when the
    schema has no [properties]; it returns only if the schema of every property
    resolves under the context [<name>.<property>] to a descriptor whose
    [toJson] and [fromJson] return. *)
Theorem object_model_properties :
  forall (objectName : string) (objectSchema : OpenAPIModel.t),
    (OpenAPIModel.properties objectSchema = None ->
     writeObjectModel enumTypes localeCompare objectName objectSchema
     = Raise (Thrown ("Expected properties in " ++ objectName)))
    /\ (forall text,
          writeObjectModel enumTypes localeCompare objectName objectSchema = Ok text ->
          exists properties,
            OpenAPIModel.properties objectSchema = Some properties
            /\ Forall (propertyAccepted enumTypes objectName) properties).
Proof.
  intros objectName objectSchema. unfold writeObjectModel. split.
  - intros ->. reflexivity.
  - intros text H.
    destruct (OpenAPIModel.properties objectSchema) as [properties|];
      [|discriminate].
    exists properties. split; [reflexivity|].
    apply finish_Ok in H as (b & imports & H). unfold writeObjectModelBuilder in H.
    invert_bind H as u1 st1 H1 H. invert_bind H as u2 st2 H2 H.
    invert_bind H as l st3 Hloop H.
    apply foldM_Ok in Hloop. eapply Forall_impl; [|exact Hloop].
    intros entry (a & s & r & Hr). eapply objectProperty_Ok. exact Hr.
Qed.

Lemma fromWords_Ok (s : string) (ident : Identifier) :
  IdentifierImpl.fromWords s = Ok ident -> Js.trim s <> EmptyString.
Proof.
  unfold IdentifierImpl.fromWords. intros H E. rewrite E in H. discriminate H.
Qed.

Lemma writeTag_Ok (mode : Mode) (entry : string * TagEntry.t)
    (file : Identifier * string) :
  writeTag enumTypes localeCompare mode entry = Ok file -> tagAccepted entry.
Proof.
  unfold writeTag, tagAccepted.
  destruct (TagEntry.externalDocs (snd entry)); [discriminate|].
  destruct (TagEntry.operations (snd entry)) as [|o operations]; [discriminate|].
  cbn [Emitter.isNil].
  destruct (IdentifierImpl.fromWords (fst entry)) as [ident|e] eqn:E;
    [|discriminate].
  intros _. split; [reflexivity|]. split; [discriminate|].
  eapply fromWords_Ok. exact E.
Qed.

Lemma writeTags_Ok (mode : Mode) (byTag : Extractor.ByTag)
    (files : list (Identifier * string)) :
  writeTags localeCompare enumTypes mode byTag = Ok files ->
  Forall tagAccepted byTag.
Proof.
  intros H. unfold writeTags in H. apply forEachR_Ok in H.
  apply (Forall2_left tagAccepted) in H as [Hall _];
    [|intros x y Hxy; eapply writeTag_Ok; exact Hxy].
  eapply Permutation_Forall; [apply sort_perm|exact Hall].
Qed.

(** X24: the loop over the tags returns only if every tag, declared or not,
    has no [externalDocs], has at least one operation and has a name that is
    not blank; it then yields one file for each tag. *)
Theorem tags_written_have_operations :
  forall (mode : Mode) (byTag : Extractor.ByTag)
         (files : list (Identifier * string)),
    writeTags localeCompare enumTypes mode byTag = Ok files ->
    Forall tagAccepted byTag /\ length files = length byTag.
Proof.
  intros mode byTag files H. unfold writeTags in H.
  apply forEachR_Ok in H.
  apply (Forall2_left tagAccepted) in H as [Hall Hlen];
    [|intros x y Hxy; eapply writeTag_Ok; exact Hxy].
  pose proof (sort_perm (byName localeCompare) byTag) as P.
  split.
  - eapply Permutation_Forall; eassumption.
  - rewrite Hlen. apply Permutation_length. exact P.
Qed.

Lemma writeModel_Ok (entry : string * OpenAPIModel.t) (file : string * string) :
  writeModel enumTypes localeCompare entry = Ok file -> modelAccepted entry.
Proof.
  unfold writeModel, modelAccepted.
  destruct (IdentifierImpl.fromCamel (fst entry)) as [ident|e]; [|discriminate].
  simpl rbind.
  destruct (RuntimeTypeImpl.strictEq (type (OpenAPIModel.schema (snd entry))) "string")
    eqn:Es.
  - unfold writeEnumModel.
    destruct (OpenAPIModel.enum (snd entry)); [|discriminate].
    intros _. split; [discriminate|].
    apply strictEq_true in Es. congruence.
  - unfold writeObjectModel.
    destruct (OpenAPIModel.properties (snd entry)); [|discriminate].
    intros _. split; [|discriminate].
    intros T. apply strictEq_true in T. congruence.
Qed.

End DriverLoops.

Section DriverEnds.
Import Driver.
Variable enumTypes : list string.
Variable localeCompare : string -> string -> Z.

(** X25: the loop over the schemas returns, with one file for each schema
    named by the kebab spelling of its name, only if every schema of type
    [string] has [enum] values and every other schema has [properties]. *)
Theorem models_written_have_their_parts :
  forall (schemas : list (string * OpenAPIModel.t))
         (files : list (string * string)),
    writeModels localeCompare enumTypes schemas = Ok files ->
    Forall modelAccepted schemas
    /\ Forall2
         (fun entry file =>
            exists ident,
              IdentifierImpl.fromCamel (fst entry) = Ok ident
              /\ fst file = kebab ident ++ ".ts")
         schemas files.
Proof.
  intros schemas files H. unfold writeModels in H. apply forEachR_Ok in H.
  split.
  - apply (Forall2_left modelAccepted) in H as [Hall _]; [exact Hall|].
    intros x y Hxy. eapply writeModel_Ok. exact Hxy.
  - eapply Forall2_impl; [|exact H].
    intros entry file Hw. unfold writeModel in Hw.
    destruct (IdentifierImpl.fromCamel (fst entry)) as [ident|e]; [|discriminate].
    exists ident. split; [reflexivity|]. simpl rbind in Hw.
    destruct (if RuntimeTypeImpl.strictEq _ _ then _ else _) as [contents|e];
      [|discriminate].
    injection Hw as <-. reflexivity.
Qed.

Lemma tag_store_key (name : string) (e : TagEntry.t) (o : Extractor.ByTag) :
  In name (map fst (Extractor.store name e o)).
Proof.
  induction o as [|[k v] o IH]; simpl; [left; reflexivity|].
  destruct (String.eqb_spec k name) as [->|Hne]; simpl; [left; reflexivity|].
  right. exact IH.
Qed.

Lemma declaredTags_keys (tags : list OpenAPITag.t) (tag : OpenAPITag.t) :
  In tag tags -> In (OpenAPITag.name tag) (map fst (Extractor.declaredTags tags)).
Proof.
  unfold Extractor.declaredTags.
  assert (H : forall acc,
             (In tag tags \/ In (OpenAPITag.name tag) (map fst acc)) ->
             In (OpenAPITag.name tag)
               (map fst
                  (fold_left
                     (fun o t =>
                        Extractor.store (OpenAPITag.name t)
                          (TagEntry.mk (OpenAPITag.description t)
                             (OpenAPITag.externalDocs t) []) o) tags acc))).
  { induction tags as [|t tags IH]; intros acc [Hin|Hin];
      try destruct Hin; try exact Hin.
    - subst t. cbn [fold_left]. apply IH. right. apply tag_store_key.
    - cbn [fold_left]. apply IH. left. assumption.
    - cbn [fold_left]. apply IH. right.
      destruct (store_keys_after (OpenAPITag.name t)
                  (TagEntry.mk (OpenAPITag.description t)
                     (OpenAPITag.externalDocs t) []) acc) as (later & E).
      rewrite E. apply in_or_app. left. exact Hin. }
  intros Hin. apply H. left. exact Hin.
Qed.

(** X26: a declared tag that no operation of the paths names makes the loop
    over the tags throw. *)
Theorem unused_declared_tag_aborts :
  forall (mode : Mode) (tags : list OpenAPITag.t)
         (paths : list (string * list (string * OpenAPIOperation.t)))
         (byTag : Extractor.ByTag) (tag : OpenAPITag.t),
    Extractor.operationsByTag tags paths = Ok byTag ->
    In tag tags ->
    (forall urlString entries key op,
       In (urlString, entries) paths -> In (key, op) entries ->
       OpenAPIOperation.tags op <> TagsArray [OpenAPITag.name tag]) ->
    exists e, writeTags localeCompare enumTypes mode byTag = Raise e.
Proof.
  intros mode tags paths byTag tag Hby Htag Hunused.
  destruct (writeTags localeCompare enumTypes mode byTag) as [files|e] eqn:E;
    [|exists e; reflexivity].
  exfalso. apply writeTags_Ok in E.
  assert (Hkey : In (OpenAPITag.name tag) (map fst byTag)).
  { unfold Extractor.operationsByTag in Hby.
    assert (Hfirst : exists later,
               map fst byTag
               = (map fst (Extractor.declaredTags tags) ++ later)%list).
    { revert Hby. apply foldM_keys. intros acc path acc' Ea.
      unfold Extractor.addPath in Ea. revert Ea. apply foldM_keys.
      intros a x a' Ha. eapply addOperation_keys. exact Ha. }
    destruct Hfirst as (later & ->). apply in_or_app. left.
    apply declaredTags_keys, Htag. }
  apply in_map_iff in Hkey as ([name entry] & Hname & Hin). simpl in Hname.
  subst name. rewrite Forall_forall in E.
  destruct (E _ Hin) as (_ & Hops & _). simpl in Hops.
  destruct (TagEntry.operations entry) as [|o operations] eqn:Eo; [congruence|].
  assert (Hsound : allExtracted paths byTag).
  { unfold Extractor.operationsByTag in Hby.
    apply (paths_sound paths paths (Extractor.declaredTags tags) byTag
             (incl_refl _)); [|exact Hby].
    intros n e x Hn Hx. rewrite (declaredTags_empty _ _ _ Hn) in Hx. destruct Hx. }
  destruct (Hsound _ _ o Hin) as (u & entries & key & op & Hp & He & _ & Ht & _).
  - rewrite Eo. left. reflexivity.
  - exact (Hunused _ _ _ _ Hp He Ht).
Qed.

End DriverEnds.

(** ** Runs of the emitters, the model writers and the driver *)

Example blank_name_has_no_identifier :
  IdentifierImpl.fromWords "  " = Raise TypeError
  /\ IdentifierImpl.fromWords " pet  store " = Ok (identifierOf ["pet"; "store"]).
Proof. split; reflexivity. Qed.

Example optional_body_aborts :
  Emitter.writeClient [] Sample.codeCompare Sample.petsTag None
    [Operations.addPetOptionally]
  = Raise (Thrown "Body is not required for operation addPet").
Proof. vm_compute. reflexivity. Qed.

Example api_refuses_object_parameter :
  Emitter.writeApi [] Sample.codeCompare Sample.petsTag None [Operations.getPet]
  = Raise (Thrown "Unexpected reference parameter 'getPet.path.petId'").
Proof. vm_compute. reflexivity. Qed.

Example client_accepts_object_parameter :
  isOk (Emitter.writeClient [] Sample.codeCompare Sample.petsTag None
          [Operations.getPet]) = true.
Proof. vm_compute. reflexivity. Qed.

Lemma request_bodies_inline_and_required_witness :
  Forall
    (fun o =>
       bodyAccepted (OpenAPIOperation.requestBody (OperationExtended.operation o))
       /\ OpenAPIOperation.other (OperationExtended.operation o) = [])
    [Operations.addPet].
Proof.
  eapply (request_bodies_inline_and_required [] Sample.codeCompare Sample.petsTag
            None [Operations.addPet]).
  left. vm_compute. reflexivity.
Defined.

Lemma parameters_inline_and_resolved_witness :
  Forall
    (fun o => Forall (apiParameterAccepted ["PetId"] (idOf o)) (parametersOf o))
    [Operations.getPet]
  /\ Forall
       (fun o => Forall (clientParameterAccepted [] (idOf o)) (parametersOf o))
       [Operations.getPet].
Proof.
  split.
  - eapply (proj1 (parameters_inline_and_resolved ["PetId"] Sample.codeCompare
                     Sample.petsTag None [Operations.getPet] _)).
    vm_compute. reflexivity.
  - eapply (proj2 (parameters_inline_and_resolved [] Sample.codeCompare
                     Sample.petsTag None [Operations.getPet] _)).
    vm_compute. reflexivity.
Defined.

(** X20: in a file that [writeApi] returns, every parameter whose schema is a
    reference refers to a schema classified as a string enum; with the
    [enumTypes] of the classification loop, this is a schema of
    [components.schemas] of type [string]. *)
Theorem api_reference_parameters_are_enums :
  forall (enumTypes : list string) (localeCompare : string -> string -> Z)
         (tag : Identifier) (tagDescription : option string)
         (operations : list OperationExtended.t) (text : string)
         (o : OperationExtended.t) (parameter : OpenAPIParameter.t)
         (schema : Schema),
    Emitter.writeApi enumTypes localeCompare tag tagDescription operations = Ok text ->
    In o operations ->
    In (Plain parameter) (parametersOf o) ->
    OpenAPIParameter.schema parameter = Some schema ->
    isReference schema = true ->
    enumReference enumTypes schema
    /\ (forall schemas objectTypes,
          Driver.classifySchemas schemas = Ok (enumTypes, objectTypes) ->
          exists name ident,
            ref schema = Some ("#/components/schemas/" ++ name)
            /\ IdentifierImpl.fromCamel name = Ok ident
            /\ namedAs schemas "string" (upperCamel ident)).
Proof.
  intros enumTypes localeCompare tag tagDescription operations text o parameter
    schema H Ho Hp Hs Href.
  pose proof (api_reference_parameter enumTypes localeCompare tag tagDescription
                operations text o parameter schema H Ho Hp Hs Href) as Henum.
  split; [exact Henum|].
  intros schemas objectTypes Hclass.
  destruct Henum as (name & ident & Hname & Hident & Hin).
  exists name, ident. split; [exact Hname|]. split; [exact Hident|].
  unfold Driver.classifySchemas in Hclass.
  apply classifySchemas_from in Hclass as (_ & He & _).
  apply includes_In in Hin.
  destruct (proj1 (He _) Hin) as [[]|Hnamed]. exact Hnamed.
Qed.

Lemma api_reference_parameters_are_enums_witness :
  enumReference ["PetId"] (Sample.reference "PetId")
  /\ exists name ident,
       ref (Sample.reference "PetId") = Some ("#/components/schemas/" ++ name)
       /\ IdentifierImpl.fromCamel name = Ok ident
       /\ namedAs [("petId", Models.status)] "string" (upperCamel ident).
Proof.
  edestruct (fun text H =>
               api_reference_parameters_are_enums ["PetId"] Sample.codeCompare
                 Sample.petsTag None [Operations.getPet] text Operations.getPet
                 Operations.petIdParameter (Sample.reference "PetId") H
                 (or_introl eq_refl) (or_introl eq_refl) eq_refl eq_refl)
    as [Henum Hnamed].
  - vm_compute. reflexivity.
  - split; [exact Henum|].
    apply (Hnamed [("petId", Models.status)] []). reflexivity.
Defined.

Lemma schemas_classified_by_type_witness :
  Forall classifiable [("status", Models.status); ("pet", Models.pet)]
  /\ (forall name,
        In name ["Status"]
        <-> namedAs [("status", Models.status); ("pet", Models.pet)] "string" name)
  /\ (forall name,
        In name ["Pet"]
        <-> namedAs [("status", Models.status); ("pet", Models.pet)] "object" name)
  /\ length ["Status"] + length ["Pet"]
     = length [("status", Models.status); ("pet", Models.pet)].
Proof.
  apply (schemas_classified_by_type [("status", Models.status); ("pet", Models.pet)]).
  reflexivity.
Defined.

Example top_level_array_refused :
  Driver.classifySchemas [("tags", Models.tags)]
  = Raise (Thrown "Unexpected schema type: array").
Proof. reflexivity. Qed.

Example enum_model_of_status :
  Driver.writeEnumModel "Status" Models.status
  = Ok ("export type Status = " ++ Emitter.quoted "available" ++ " | "
          ++ Emitter.quoted "sold" ++ ";" ++ Emitter.nl ++ Emitter.nl
          ++ "/** Array of Status values. */" ++ Emitter.nl
          ++ "export const valuesStatus: readonly Status[] = ["
          ++ Emitter.quoted "available" ++ "," ++ Emitter.quoted "sold" ++ "];").
Proof. vm_compute. reflexivity. Qed.

Lemma object_model_properties_witness :
  Driver.writeObjectModel [] Sample.codeCompare "Email" Models.email
  = Raise (Thrown "Expected properties in Email")
  /\ exists properties,
       OpenAPIModel.properties Models.pet = Some properties
       /\ Forall (propertyAccepted [] "Pet") properties.
Proof.
  split.
  - apply (proj1 (object_model_properties [] Sample.codeCompare "Email" Models.email)).
    reflexivity.
  - eapply (proj2 (object_model_properties [] Sample.codeCompare "Pet" Models.pet)).
    vm_compute. reflexivity.
Defined.

Lemma tags_written_have_operations_witness :
  exists files : list (Identifier * string),
    Forall tagAccepted
      [("Pets", TagEntry.mk None None [Sample.listPets; Sample.ping])]
    /\ length files = 1.
Proof.
  eexists.
  eapply (tags_written_have_operations [] Sample.codeCompare ApiMode
            [("Pets", TagEntry.mk None None [Sample.listPets; Sample.ping])]).
  vm_compute. reflexivity.
Defined.

Lemma models_written_have_their_parts_witness :
  exists files : list (string * string),
    Forall modelAccepted [("status", Models.status); ("pet", Models.pet)]
    /\ Forall2
         (fun entry file =>
            exists ident,
              IdentifierImpl.fromCamel (fst entry) = Ok ident
              /\ fst file = kebab ident ++ ".ts")
         [("status", Models.status); ("pet", Models.pet)] files.
Proof.
  eexists.
  eapply (models_written_have_their_parts ["Status"] Sample.codeCompare
            [("status", Models.status); ("pet", Models.pet)]).
  vm_compute. reflexivity.
Defined.

Example string_model_without_values_aborts :
  Driver.writeModels Sample.codeCompare ["Email"] [("email", Models.email)]
  = Raise (Thrown "Expected enum values in Email").
Proof. reflexivity. Qed.

Lemma unused_declared_tag_aborts_witness :
  exists e,
    Driver.writeTags Sample.codeCompare [] ApiMode
      [("Store", TagEntry.mk (Some "The store.") None []);
       ("Pets", TagEntry.mk None None [extended "/pets" "get" Paths.listOperation])]
    = Raise e.
Proof.
  apply (unused_declared_tag_aborts [] Sample.codeCompare ApiMode Paths.declared
           Paths.pets _ (OpenAPITag.mk "Store" (Some "The store.") None)).
  - vm_compute. reflexivity.
  - left. reflexivity.
  - intros urlString entries key op [[= <- <-]|[]] [[= <- <-]|[[= <- <-]|[]]];
      discriminate.
Defined.
